(** * FreeFileSync: the abstract file system layer ([fs/abstract.cpp])

    A shallow embedding of [AbstractFileSystem] (alias [AFS]): path identity,
    the path status resolver, stream and transactional file copy, recursive
    folder creation and recursive deletion.

    Every call into a backend driver is a transition on the driver's device
    state; an exception leaves the device as the failing call left it. The
    embedding keeps a call log next to the device state, so that the order of
    driver calls and observer notifications can be stated. *)

From Stdlib Require Import ZArith List String Ascii Bool Arith Lia.
From Stdlib Require OrderedTypeEx.
Import ListNotations.

Local Open Scope string_scope.
Local Open Scope Z_scope.

(* ===================================================================== *)
(** * Strings ([zen/string_tools.h]) *)
(* ===================================================================== *)

Definition Zstring := string.
Definition wstring := string.

Definition FILE_NAME_SEPARATOR : ascii := "/"%char.

Module Zen.

(** Split [s] around the last occurrence of [c]. *)
Fixpoint splitLast (c : ascii) (s : Zstring) : option (Zstring * Zstring) :=
  match s with
  | EmptyString => None
  | String a r =>
      match splitLast c r with
      | Some (b, t) => Some (String a b, t)
      | None => if Ascii.eqb a c then Some (EmptyString, r) else None
      end
  end.

(** [beforeLast(s, c, IF_MISSING_RETURN_NONE)] *)
Definition beforeLast_orNone (s : Zstring) (c : ascii) : Zstring :=
  match splitLast c s with
  | Some (b, _) => b
  | None => EmptyString
  end.

(** [beforeLast(s, c, IF_MISSING_RETURN_ALL)]; also what
    [Zstring(s.begin(), find_last(s.begin(), s.end(), c))] builds, since
    [find_last] answers [s.end()] when [c] does not occur. *)
Definition beforeLast_orAll (s : Zstring) (c : ascii) : Zstring :=
  match splitLast c s with
  | Some (b, _) => b
  | None => s
  end.

(** [afterLast(s, c, IF_MISSING_RETURN_ALL)] *)
Definition afterLast_orAll (s : Zstring) (c : ascii) : Zstring :=
  match splitLast c s with
  | Some (_, t) => t
  | None => s
  end.

Fixpoint containsChar (s : Zstring) (c : ascii) : bool :=
  match s with
  | EmptyString => false
  | String a r => Ascii.eqb a c || containsChar r c
  end.

Definition startsWithChar (s : Zstring) (c : ascii) : bool :=
  match s with
  | EmptyString => false
  | String a _ => Ascii.eqb a c
  end.

Fixpoint endsWithChar (s : Zstring) (c : ascii) : bool :=
  match s with
  | EmptyString => false
  | String a EmptyString => Ascii.eqb a c
  | String _ r => endsWithChar r c
  end.

Fixpoint containsDouble (s : Zstring) (c : ascii) : bool :=
  match s with
  | EmptyString => false
  | String a r => (Ascii.eqb a c && startsWithChar r c) || containsDouble r c
  end.

Definition hexDigit (n : Z) : ascii :=
  match n with
  | 0 => "0" | 1 => "1" | 2 => "2" | 3 => "3" | 4 => "4" | 5 => "5"
  | 6 => "6" | 7 => "7" | 8 => "8" | 9 => "9" | 10 => "a" | 11 => "b"
  | 12 => "c" | 13 => "d" | 14 => "e" | _ => "f"
  end%char.

(** [printNumber<Zstring>] with the format [%04x], for a 16-bit [n]. *)
Definition printNumber_04x (n : Z) : Zstring :=
  let n := n mod 65536 in
  String (hexDigit (n / 4096))
    (String (hexDigit ((n / 256) mod 16))
       (String (hexDigit ((n / 16) mod 16))
          (String (hexDigit (n mod 16)) EmptyString))).

End Zen.

(* ===================================================================== *)
(** * Data model *)
(* ===================================================================== *)

(** [struct AfsPath { Zstring value; }]: path relative to the device root. *)
Record AfsPath := mkAfsPath { value : Zstring }.

(** The backend handle [std::shared_ptr<const AbstractFileSystem>]: the
    dynamic type of the driver object, as its rank in the order of
    [std::type_info::before], and the device the object stands for. *)
Record Afs := mkAfs { afsType : nat; afsDevice : Zstring }.

Record AbstractPath := mkAbstractPath { afs : Afs; afsPath : AfsPath }.

Inductive ItemType := FILE | FOLDER | SYMLINK.

Definition FileId := string.

Module StreamAttributes.
Record t := mk
  { modTime : Z;       (* time_t *)
    fileSize : Z;      (* uint64_t *)
    fileId : FileId }. (* optional: empty when the driver has none *)
End StreamAttributes.

(** [zen::FileError]. The texts are built with [replaceCpy] from translated
    templates; the embedding keeps which template it is and its arguments. *)
Inductive FileError :=
| DriverError (msg : wstring)
    (* raised inside a driver *)
| UnexpectedStreamSize (source : AfsPath) (expected actual : Z)
    (* Cannot read file %x. / Unexpected size of data stream.
       Expected: %x bytes, Actual: %y bytes [notifyUnbufferedIO] *)
| PermissionsNotSupported (target : AbstractPath)
    (* Cannot write permissions of %x. /
       Operation not supported for different base folder types. *)
| PathIsDeviceRoot (target : AbstractPath)
    (* Cannot write file %x. / Path is device root. *)
| ErrorPair (e e2 : FileError).
    (* FileError(e.toString(), e2.toString()) *)

Module FileCopyResult.
Record t := mk
  { fileSize : Z;
    modTime : Z;
    sourceFileId : FileId;
    targetFileId : FileId;
    errorModTime : option FileError }.
End FileCopyResult.

Module PathStatusImpl.
Record t := mk
  { existingType : ItemType;
    existingAfsPath : AfsPath;
    relPath : list Zstring }.
End PathStatusImpl.

Module PathStatus.
Record t := mk
  { existingType : ItemType;
    existingPath : AbstractPath;
    relPath : list Zstring }.
End PathStatus.

(** Handles of the streams a driver opens. *)
Record InputStream := mkInputStream { inPath : AbstractPath; inHandle : nat }.
Record OutputStream := mkOutputStream { outPath : AbstractPath; outHandle : nat }.

Definition ItemType_eqb (a b : ItemType) : bool :=
  match a, b with
  | FILE, FILE | FOLDER, FOLDER | SYMLINK, SYMLINK => true
  | _, _ => false
  end.

Definition AfsPath_eqb (a b : AfsPath) : bool := String.eqb (value a) (value b).

Definition Afs_eqb (a b : Afs) : bool :=
  Nat.eqb (afsType a) (afsType b) && String.eqb (afsDevice a) (afsDevice b).

Definition AbstractPath_eqb (a b : AbstractPath) : bool :=
  Afs_eqb (afs a) (afs b) && AfsPath_eqb (afsPath a) (afsPath b).

(* ===================================================================== *)
(** * Path identity *)
(* ===================================================================== *)

(** [bool fff::isValidRelPath(const Zstring& relPath)] *)
Definition isValidRelPath (relPath : Zstring) : bool :=
  negb (Zen.containsChar relPath (ascii_of_nat 92)) && (* the backslash *)
  negb (Zen.startsWithChar relPath FILE_NAME_SEPARATOR) &&
  negb (Zen.endsWithChar relPath FILE_NAME_SEPARATOR) &&
  negb (Zen.containsDouble relPath FILE_NAME_SEPARATOR).

(** The two comparators [compareAbstractPath] delegates to. Neither is
    defined in [abstract.cpp]: [compareDeviceRootSameAfsType] is a virtual
    function every driver overrides (it is only called between two drivers of
    one dynamic type), [compareFilePath] is the platform's file name order
    from [zen/file_path.h]. *)
Class PathOrder := {
  compareDeviceRootSameAfsType : Afs -> Afs -> Z;
  compareFilePath : Zstring -> Zstring -> Z;
}.

(** [typeid( *lhs.afs ).before(typeid( *rhs.afs ))]: the order of the dynamic driver types. *)
Definition typeid_before (lhs rhs : Afs) : bool :=
  Nat.ltb (afsType lhs) (afsType rhs).

(** [int AFS::compareAbstractPath(const AbstractPath& lhs, const AbstractPath& rhs)] *)
Definition compareAbstractPath {order : PathOrder} (lhs rhs : AbstractPath) : Z :=
  if typeid_before (afs lhs) (afs rhs) then -1
  else if typeid_before (afs rhs) (afs lhs) then 1
  else
    let rv := compareDeviceRootSameAfsType (afs lhs) (afs rhs) in
    if negb (rv =? 0) then rv
    else compareFilePath (value (afsPath lhs)) (value (afsPath rhs)).

(** [std::optional<AfsPath> AFS::getParentAfsPath(const AfsPath& afsPath)] *)
Definition getParentAfsPath (p : AfsPath) : option AfsPath :=
  match value p with
  | EmptyString => None
  | _ => Some (mkAfsPath (Zen.beforeLast_orNone (value p) FILE_NAME_SEPARATOR))
  end.

(** [std::optional<AbstractPath> AFS::getParentFolderPath(const AbstractPath& ap)] *)
Definition getParentFolderPath (ap : AbstractPath) : option AbstractPath :=
  match getParentAfsPath (afsPath ap) with
  | Some parentAfsPath => Some (mkAbstractPath (afs ap) parentAfsPath)
  | None => None
  end.

(** Modelled from the spec: [AFS::getItemName] is declared in [abstract.h]
    and not defined in [abstract.cpp]. The name of an item is the last
    component of its path. *)
Definition getItemNameAfs (p : AfsPath) : Zstring :=
  Zen.afterLast_orAll (value p) FILE_NAME_SEPARATOR.

Definition getItemName (ap : AbstractPath) : Zstring := getItemNameAfs (afsPath ap).

(** Modelled from the spec: [AFS::appendRelPath] is declared in [abstract.h]
    and not defined in [abstract.cpp]. It appends one component below a
    path; the join is the one [AFS::traverseFolderRecursive] spells out (a
    separator only after a non-empty base). *)
Definition appendAfsPath (base : AfsPath) (itemName : Zstring) : AfsPath :=
  match value base with
  | EmptyString => mkAfsPath itemName
  | _ => mkAfsPath (value base ++ String FILE_NAME_SEPARATOR itemName)
  end.

Definition appendRelPath (ap : AbstractPath) (relPath : Zstring) : AbstractPath :=
  mkAbstractPath (afs ap) (appendAfsPath (afsPath ap) relPath).

(** The path list of one [TraverserWorkload] entry, as
    [AFS::traverseFolderRecursive] joins it below the base path. *)
Definition joinRelPathComponents (basePath : AfsPath) (relPathComponents : list Zstring) : AfsPath :=
  fold_left appendAfsPath relPathComponents basePath.

(* ===================================================================== *)
(** * Driver calls, exceptions and the call log *)
(* ===================================================================== *)

(** What the layer does to the outside, in the order it does it: the calls
    into drivers and the calls of the caller's observers. *)
Inductive Event :=
| CallGetItemType (ap : AbstractPath)
| CallTraverseFolder (ap : AbstractPath) (found : list (Zstring * ItemType))
| CallCreateFolderPlain (ap : AbstractPath)
| CallRemoveFilePlain (ap : AbstractPath)
| CallRemoveSymlinkPlain (ap : AbstractPath)
| CallRemoveFolderPlain (ap : AbstractPath)
| CallSetModTime (ap : AbstractPath) (modTime : Z)
| CallMoveAndRenameItem (apSource apTarget : AbstractPath)
| CallCopyFileForSameAfsType (apSource apTarget : AbstractPath) (copyFilePermissions : bool)
| CallGetInputStream (ap : AbstractPath)
| CallGetAttributesBuffered (ap : AbstractPath)
| CallGetOutputStream (ap : AbstractPath) (streamSize : option Z)
| CallBufferedStreamCopy (apSource apTarget : AbstractPath)
| CallFinalize (ap : AbstractPath)
| CloseOutputStream (ap : AbstractPath)
| CloseInputStream (ap : AbstractPath)
| NotifyBeforeFileDeletion (displayPath : wstring)
| NotifyBeforeFolderDeletion (displayPath : wstring).

(** How a call ends: with a value, with a [FileError] thrown, or not at all
    (a driver call that does not return, or a recursion of the embedding
    that has run out of fuel). *)
Inductive Outcome (A : Type) :=
| Ok (a : A)
| Throw (e : FileError)
| Diverge.
Arguments Ok {A} a.
Arguments Throw {A} e.
Arguments Diverge {A}.

Record State (Dev : Type) := mkState { dev : Dev; log : list Event }.
Arguments mkState {Dev} dev log.
Arguments dev {Dev} s.
Arguments log {Dev} s.

(** A computation of the layer. The state is returned in every case: what a
    failed operation did before it threw stays done. *)
Definition M (Dev A : Type) := State Dev -> Outcome A * State Dev.

Definition ret {Dev A} (a : A) : M Dev A := fun s => (Ok a, s).

Definition bind {Dev A B} (m : M Dev A) (k : A -> M Dev B) : M Dev B :=
  fun s =>
    match m s with
    | (Ok a, s') => k a s'
    | (Throw e, s') => (Throw e, s')
    | (Diverge, s') => (Diverge, s')
    end.

Definition throw {Dev A} (e : FileError) : M Dev A := fun s => (Throw e, s).

Definition diverge {Dev A} : M Dev A := fun s => (Diverge, s).

(** [try { m } catch (FileError& e) { handler }] *)
Definition try_catch {Dev A} (m : M Dev A) (handler : FileError -> M Dev A) : M Dev A :=
  fun s =>
    match m s with
    | (Throw e, s') => handler e s'
    | r => r
    end.

(** [ZEN_ON_SCOPE_FAIL(cleanup)] in front of the rest [m] of a scope: the
    cleanup runs when the scope is left by an exception, which is then
    rethrown. The cleanup is a [try] block whose errors are swallowed. *)
Definition on_scope_fail {Dev A} (cleanup : M Dev unit) (m : M Dev A) : M Dev A :=
  fun s =>
    match m s with
    | (Throw e, s') =>
        match cleanup s' with
        | (Diverge, s'') => (Diverge, s'')
        | (_, s'') => (Throw e, s'')
        end
    | r => r
    end.

(** The destructor of a local object: runs however the scope [m] is left. *)
Definition with_destructor {Dev A} (m : M Dev A) (destructor : State Dev -> State Dev) : M Dev A :=
  fun s =>
    match m s with
    | (Diverge, s') => (Diverge, s')
    | (r, s') => (r, destructor s')
    end.

Declare Scope afs_scope.
Delimit Scope afs_scope with afs.
Notation "x <- m ;; k" := (bind m (fun x => k))
  (at level 61, m at next level, right associativity) : afs_scope.
Notation "m ;;; k" := (bind m (fun _ => k))
  (at level 61, right associativity) : afs_scope.
Local Open Scope afs_scope.

Definition emit {Dev} (ev : Event) : M Dev unit :=
  fun s => (Ok tt, mkState (dev s) (log s ++ [ev])).

(** A driver call: logged, then run on the device. *)
Definition call {Dev A} (ev : Event) (op : Dev -> Outcome A * Dev) : M Dev A :=
  fun s =>
    let (r, d) := op (dev s) in
    (r, mkState d (log s ++ [ev])).

Fixpoint forEach {Dev A} (l : list A) (body : A -> M Dev unit) : M Dev unit :=
  match l with
  | [] => ret tt
  | x :: rest => body x ;;; forEach rest body
  end.

(** What [abstract.cpp] calls and does not define. [Dev] is the state of
    everything the drivers talk to.

    Most are virtual functions of [AbstractFileSystem], which every driver
    implements. [drvBufferedStreamCopy] is the pump [zen::bufferedStreamCopy]
    over the read and write functions of two streams, taken as one step.
    [drvCloseOutputStream] and [drvCloseInputStream] are the destructors of
    the streams. [equalFilePath] is the platform's equality of file names
    ([zen/file_path.h]).

    The stream functions answer, next to their result, the [bytesDelta]
    values they passed to the [IOCallback] they were given. A folder
    traversal answers the items it delivered before it ended and the error
    it ended with, if any. *)
Class AfsDriver (Dev : Type) := {
  drvGetItemType : AbstractPath -> Dev -> Outcome ItemType * Dev;
  drvTraverseFolder : AbstractPath -> Dev -> (list (Zstring * ItemType) * option FileError) * Dev;
  drvCreateFolderPlain : AbstractPath -> Dev -> Outcome unit * Dev;
  drvRemoveFilePlain : AbstractPath -> Dev -> Outcome unit * Dev;
  drvRemoveSymlinkPlain : AbstractPath -> Dev -> Outcome unit * Dev;
  drvRemoveFolderPlain : AbstractPath -> Dev -> Outcome unit * Dev;
  drvSetModTime : AbstractPath -> Z -> Dev -> Outcome unit * Dev;
  drvMoveAndRenameItem : AbstractPath -> AbstractPath -> Dev -> Outcome unit * Dev;
  drvCopyFileForSameAfsType :
    AbstractPath -> StreamAttributes.t -> AbstractPath -> bool -> Dev -> Outcome FileCopyResult.t * Dev;
  drvGetInputStream : AbstractPath -> Dev -> Outcome (InputStream * list Z) * Dev;
  drvGetAttributesBuffered : InputStream -> Dev -> Outcome (option StreamAttributes.t) * Dev;
  drvGetOutputStream : AbstractPath -> option Z -> Dev -> Outcome (OutputStream * list Z) * Dev;
  drvBufferedStreamCopy : InputStream -> OutputStream -> Dev -> Outcome (list Z) * Dev;
  drvFinalize : OutputStream -> Dev -> Outcome (FileId * list Z) * Dev;
  drvCloseOutputStream : OutputStream -> Dev -> Dev;
  drvCloseInputStream : InputStream -> Dev -> Dev;
  getDisplayPath : AbstractPath -> wstring;
  equalFilePath : Zstring -> Zstring -> bool;
}.

(* ===================================================================== *)
(** * The layer: [namespace fff], [AbstractFileSystem] *)
(* ===================================================================== *)

Section Layer.
Context {Dev : Type} {driver : AfsDriver Dev}.

(** ** The static forwarders of [abstract.h]: [AFS::f(ap)] is
    [ap.afs->f(ap.afsPath)]. *)

Definition getItemType (ap : AbstractPath) : M Dev ItemType :=
  call (CallGetItemType ap) (drvGetItemType ap).

Definition createFolderPlain (ap : AbstractPath) : M Dev unit :=
  call (CallCreateFolderPlain ap) (drvCreateFolderPlain ap).

Definition removeFilePlain (ap : AbstractPath) : M Dev unit :=
  call (CallRemoveFilePlain ap) (drvRemoveFilePlain ap).

Definition removeSymlinkPlain (ap : AbstractPath) : M Dev unit :=
  call (CallRemoveSymlinkPlain ap) (drvRemoveSymlinkPlain ap).

Definition removeFolderPlain (ap : AbstractPath) : M Dev unit :=
  call (CallRemoveFolderPlain ap) (drvRemoveFolderPlain ap).

Definition setModTime (ap : AbstractPath) (modTime : Z) : M Dev unit :=
  call (CallSetModTime ap modTime) (drvSetModTime ap modTime).

Definition moveAndRenameItem (apSource apTarget : AbstractPath) : M Dev unit :=
  call (CallMoveAndRenameItem apSource apTarget) (drvMoveAndRenameItem apSource apTarget).

Definition copyFileForSameAfsType (apSource : AbstractPath) (attrSource : StreamAttributes.t)
    (apTarget : AbstractPath) (copyFilePermissions : bool) : M Dev FileCopyResult.t :=
  call (CallCopyFileForSameAfsType apSource apTarget copyFilePermissions)
       (drvCopyFileForSameAfsType apSource attrSource apTarget copyFilePermissions).

Definition getInputStream (ap : AbstractPath) : M Dev (InputStream * list Z) :=
  call (CallGetInputStream ap) (drvGetInputStream ap).

Definition getAttributesBuffered (streamIn : InputStream) : M Dev (option StreamAttributes.t) :=
  call (CallGetAttributesBuffered (inPath streamIn)) (drvGetAttributesBuffered streamIn).

Definition getOutputStream (ap : AbstractPath) (streamSize : option Z) : M Dev (OutputStream * list Z) :=
  call (CallGetOutputStream ap streamSize) (drvGetOutputStream ap streamSize).

Definition bufferedStreamCopy (streamIn : InputStream) (streamOut : OutputStream) : M Dev (list Z) :=
  call (CallBufferedStreamCopy (inPath streamIn) (outPath streamOut))
       (drvBufferedStreamCopy streamIn streamOut).

Definition finalize (streamOut : OutputStream) : M Dev (FileId * list Z) :=
  call (CallFinalize (outPath streamOut)) (drvFinalize streamOut).

Definition closeOutputStream (streamOut : OutputStream) (s : State Dev) : State Dev :=
  mkState (drvCloseOutputStream streamOut (dev s)) (log s ++ [CloseOutputStream (outPath streamOut)]).

Definition closeInputStream (streamIn : InputStream) (s : State Dev) : State Dev :=
  mkState (drvCloseInputStream streamIn (dev s)) (log s ++ [CloseInputStream (inPath streamIn)]).

(** ** Flat traversal *)

(** One of the three [std::function] slots of [traverseFolderFlat]: empty,
    or a function of the item's name that updates what the caller collects
    ([inl]) or throws a value that is not a [FileError] ([inr]). *)
Definition TraverserSlot (Acc Exc : Type) := option (Zstring -> Acc -> Acc + Exc).

(** [FlatTraverserCallback]: each item goes to the slot of its type; an
    empty slot ignores it; no folder is entered and no link followed. *)
Fixpoint deliver {Acc Exc} (onFile onFolder onSymlink : TraverserSlot Acc Exc)
    (items : list (Zstring * ItemType)) (acc : Acc) : Acc + Exc :=
  match items with
  | [] => inl acc
  | (itemName, type) :: rest =>
      let slot := match type with
                  | FILE => onFile
                  | FOLDER => onFolder
                  | SYMLINK => onSymlink
                  end in
      match slot with
      | None => deliver onFile onFolder onSymlink rest acc
      | Some f =>
          match f itemName acc with
          | inl acc' => deliver onFile onFolder onSymlink rest acc'
          | inr x => inr x
          end
      end
  end.

(** [void AFS::traverseFolderFlat(afsPath, onFile, onFolder, onSymlink)]:
    [reportDirError] and [reportItemError] throw, so the error a traversal
    ends with leaves as a [FileError], unless a slot threw first. *)
Definition traverseFolderFlat {Acc Exc} (ap : AbstractPath)
    (onFile onFolder onSymlink : TraverserSlot Acc Exc) (init : Acc) : M Dev (Acc + Exc) :=
  fun s =>
    let '((items, err), d) := drvTraverseFolder ap (dev s) in
    let s' := mkState d (log s ++ [CallTraverseFolder ap items]) in
    match deliver onFile onFolder onSymlink items init with
    | inr x => (Ok (inr x), s')
    | inl acc =>
        match err with
        | Some e => (Throw e, s')
        | None => (Ok (inl acc), s')
        end
    end.

(** ** Stream copy *)

(** [int64_t] arithmetic, two's complement. *)
Definition int64 (z : Z) : Z := (z + 2 ^ 63) mod 2 ^ 64 - 2 ^ 63.

(** [makeSigned] of a [uint64_t]. *)
Definition makeSigned (u : Z) : Z := int64 u.

(** [IOCallbackDivider]: every [bytesDelta] a stream reports is added to
    [totalUnbufferedIO]. *)
Definition addUnbufferedIO (total : Z) (bytesDeltas : list Z) : Z :=
  fold_left (fun t bytesDelta => int64 (t + bytesDelta)) bytesDeltas total.

(** The attributes [copyFileAsStream] goes on with. *)
Definition chooseAttributes (attr : option StreamAttributes.t) (attrSource : StreamAttributes.t)
    : StreamAttributes.t :=
  match attr with
  | Some a => a          (* Native/MTP *)
  | None => attrSource   (* SFTP/FTP: use more stale ones *)
  end.

(** [AFS::FileCopyResult AFS::copyFileAsStream(afsPathSource, attrSource, apTarget, notifyUnbufferedIO) const]
    with [this] and [afsPathSource] as [apSource]. Of the two things an
    [IOCallbackDivider] does with a [bytesDelta], adding it to
    [totalUnbufferedIO] and passing a share on to the progress observer
    [notifyUnbufferedIO], the first is kept. *)
Definition copyFileAsStream (apSource : AbstractPath) (attrSource : StreamAttributes.t)
    (apTarget : AbstractPath) : M Dev FileCopyResult.t :=
  let totalUnbufferedIO := 0 in
  inOpen <- getInputStream apSource ;;
  let '(streamIn, io) := inOpen in
  let totalUnbufferedIO := addUnbufferedIO totalUnbufferedIO io in
  with_destructor
    (attr <- getAttributesBuffered streamIn ;;
     let attrSourceNew := chooseAttributes attr attrSource in
     outOpen <- getOutputStream apTarget (Some (StreamAttributes.fileSize attrSourceNew)) ;;
     let '(streamOut, io) := outOpen in
     let totalUnbufferedIO := addUnbufferedIO totalUnbufferedIO io in
     with_destructor
       (io <- bufferedStreamCopy streamIn streamOut ;;
        let totalUnbufferedIO := addUnbufferedIO totalUnbufferedIO io in
        fin <- finalize streamOut ;;
        let '(targetFileId, io) := fin in
        let totalUnbufferedIO := addUnbufferedIO totalUnbufferedIO io in
        if negb (totalUnbufferedIO =? int64 (2 * makeSigned (StreamAttributes.fileSize attrSourceNew)))
        then throw (UnexpectedStreamSize (afsPath apSource)
                      ((2 * StreamAttributes.fileSize attrSourceNew) mod 2 ^ 64)
                      totalUnbufferedIO)
        else
          errorModTime <- try_catch
                            (setModTime apTarget (StreamAttributes.modTime attrSourceNew) ;;;
                             ret None)
                            (fun e => ret (Some e)) ;;
          ret (FileCopyResult.mk
                 (StreamAttributes.fileSize attrSourceNew)
                 (StreamAttributes.modTime attrSourceNew)
                 (StreamAttributes.fileId attrSourceNew)
                 targetFileId
                 errorModTime))
       (closeOutputStream streamOut))
    (closeInputStream streamIn).

(** The streams of one [copyFileAsStream] from the device [d] all ran without
    an error: what the copy then goes on with. *)
Definition streamsCopied (apSource : AbstractPath) (attrSource : StreamAttributes.t)
    (apTarget : AbstractPath) (d : Dev)
    (streamIn : InputStream) (streamOut : OutputStream)
    (attrSourceNew : StreamAttributes.t) (targetFileId : FileId) (totalUnbufferedIO : Z)
    (d' : Dev) : Prop :=
  exists io1 d1 attr d2 io2 d3 io3 d4 io4,
    drvGetInputStream apSource d = (Ok (streamIn, io1), d1) /\
    drvGetAttributesBuffered streamIn d1 = (Ok attr, d2) /\
    attrSourceNew = chooseAttributes attr attrSource /\
    drvGetOutputStream apTarget (Some (StreamAttributes.fileSize attrSourceNew)) d2
      = (Ok (streamOut, io2), d3) /\
    drvBufferedStreamCopy streamIn streamOut d3 = (Ok io3, d4) /\
    drvFinalize streamOut d4 = (Ok (targetFileId, io4), d') /\
    totalUnbufferedIO
      = addUnbufferedIO (addUnbufferedIO (addUnbufferedIO (addUnbufferedIO 0 io1) io2) io3) io4.

(** The calls [copyFileAsStream] has logged when its streams are done. *)
Definition streamCalls (apSource apTarget : AbstractPath) (streamIn : InputStream)
    (streamOut : OutputStream) (streamSize : Z) : list Event :=
  [ CallGetInputStream apSource;
    CallGetAttributesBuffered (inPath streamIn);
    CallGetOutputStream apTarget (Some streamSize);
    CallBufferedStreamCopy (inPath streamIn) (outPath streamOut);
    CallFinalize (outPath streamOut) ].

(** The result [copyFileAsStream] builds in its last lines. *)
Definition streamCopyResult (attrSourceNew : StreamAttributes.t) (targetFileId : FileId)
    (errorModTime : option FileError) : FileCopyResult.t :=
  FileCopyResult.mk
    (StreamAttributes.fileSize attrSourceNew)
    (StreamAttributes.modTime attrSourceNew)
    (StreamAttributes.fileId attrSourceNew)
    targetFileId
    errorModTime.

(** ** Transactional copy *)

Definition TEMP_FILE_ENDING : Zstring := ".ffs_tmp".

(** [typeid( *a ) == typeid( *b )] *)
Definition sameAfsType (a b : Afs) : bool := Nat.eqb (afsType a) (afsType b).

(** The lambda [copyFilePlain] of [copyFileTransactional]. *)
Definition copyFilePlain (apSource : AbstractPath) (attrSource : StreamAttributes.t)
    (copyFilePermissions : bool) (apTargetTmp : AbstractPath) : M Dev FileCopyResult.t :=
  if sameAfsType (afs apSource) (afs apTargetTmp)
  then copyFileForSameAfsType apSource attrSource apTargetTmp copyFilePermissions
  else if copyFilePermissions
       then throw (PermissionsNotSupported apTargetTmp)
       else copyFileAsStream apSource attrSource apTargetTmp.

(** The name of the temporary file next to [fileName]; [crc16] stands for
    [getCrc16(generateGUID())]. *)
Definition tempFileName (fileName : Zstring) (crc16 : Z) : Zstring :=
  let shortGuid := Zen.printNumber_04x crc16 in
  Zen.beforeLast_orAll fileName "."%char ++ String "."%char (shortGuid ++ TEMP_FILE_ENDING).

(** The optional [std::function<void()>]: [None] is the empty function. *)
Definition invoke (f : option (M Dev unit)) : M Dev unit :=
  match f with
  | Some g => g
  | None => ret tt
  end.

(** [AFS::FileCopyResult AFS::copyFileTransactional(apSource, attrSource, apTarget,
      copyFilePermissions, transactionalCopy, onDeleteTargetFile, notifyUnbufferedIO)] *)
Definition copyFileTransactional (apSource : AbstractPath) (attrSource : StreamAttributes.t)
    (apTarget : AbstractPath) (copyFilePermissions transactionalCopy : bool)
    (onDeleteTargetFile : option (M Dev unit)) (crc16 : Z) : M Dev FileCopyResult.t :=
  if transactionalCopy then
    match getParentFolderPath apTarget with
    | None => throw (PathIsDeviceRoot apTarget)
    | Some parentPath =>
        let fileName := getItemName apTarget in
        let fileNameTmp := tempFileName fileName crc16 in
        let apTargetTmp := appendRelPath parentPath fileNameTmp in
        result <- copyFilePlain apSource attrSource copyFilePermissions apTargetTmp ;;
        on_scope_fail
          (try_catch (removeFilePlain apTargetTmp) (fun _ => ret tt))
          (invoke onDeleteTargetFile ;;;
           moveAndRenameItem apTargetTmp apTarget ;;;
           ret result)
    end
  else
    invoke onDeleteTargetFile ;;;
    copyFilePlain apSource attrSource copyFilePermissions apTarget.

End Layer.

Section Resolver.
Context {Dev : Type} {driver : AfsDriver Dev}.

(** The three lambdas of the listing in [getPathStatusViaFolderTraversal]:
    [if (equalFilePath(fi.itemName, itemName)) throw type;] *)
Definition throwTypeIfNamed (itemName : Zstring) (type : ItemType) : TraverserSlot unit ItemType :=
  Some (fun foundName _ => if equalFilePath foundName itemName then inr type else inl tt).

(** The type of the first listed item the three lambdas throw for. *)
Fixpoint firstNamed (itemName : Zstring) (items : list (Zstring * ItemType)) : option ItemType :=
  match items with
  | [] => None
  | (foundName, type) :: rest =>
      if equalFilePath foundName itemName then Some type else firstNamed itemName rest
  end.

(** [ps.relPath.push_back(itemName); return ps;] *)
Definition pushBackRelPath (ps : PathStatusImpl.t) (itemName : Zstring) : PathStatusImpl.t :=
  PathStatusImpl.mk (PathStatusImpl.existingType ps) (PathStatusImpl.existingAfsPath ps)
                    (PathStatusImpl.relPath ps ++ [itemName])%list.

Definition isEmpty {A} (l : list A) : bool :=
  match l with
  | [] => true
  | _ => false
  end.

(** [AFS::PathStatusImpl AFS::getPathStatusViaFolderTraversal(const AfsPath& afsPath) const],
    on the driver [this]; [recurse] is the function itself, called on the
    parent path. *)
Definition getPathStatusViaFolderTraversal_body
    (recurse : Afs -> AfsPath -> M Dev PathStatusImpl.t)
    (this : Afs) (afsPath : AfsPath) : M Dev PathStatusImpl.t :=
  let parentAfsPath := getParentAfsPath afsPath in
  try_catch
    (type <- getItemType (mkAbstractPath this afsPath) ;;
     ret (PathStatusImpl.mk type afsPath []))
    (fun e =>
       match parentAfsPath with
       | None => throw e (* device root *)
       | Some parentAfsPath =>
           let itemName := getItemNameAfs afsPath in
           ps <- recurse this parentAfsPath ;;
           if isEmpty (PathStatusImpl.relPath ps) &&
              negb (ItemType_eqb (PathStatusImpl.existingType ps) FILE)
           then
             found <- traverseFolderFlat (mkAbstractPath this parentAfsPath)
                        (throwTypeIfNamed itemName FILE)
                        (throwTypeIfNamed itemName FOLDER)
                        (throwTypeIfNamed itemName SYMLINK) tt ;;
             match found with
             | inr type => ret (PathStatusImpl.mk type afsPath [])
             | inl _ => ret (pushBackRelPath ps itemName)
             end
           else ret (pushBackRelPath ps itemName)
       end).

(** The parent path is shorter than the path: [fuel] bounds the depth of
    the recursion. *)
Fixpoint getPathStatusViaFolderTraversal_rec (fuel : nat) (this : Afs) (afsPath : AfsPath)
    : M Dev PathStatusImpl.t :=
  match fuel with
  | O => diverge
  | S fuel' =>
      getPathStatusViaFolderTraversal_body (getPathStatusViaFolderTraversal_rec fuel') this afsPath
  end.

Definition getPathStatusViaFolderTraversal (this : Afs) (afsPath : AfsPath) : M Dev PathStatusImpl.t :=
  getPathStatusViaFolderTraversal_rec (S (String.length (value afsPath))) this afsPath.

(** The listings of the folder [ap] among logged calls. *)
Definition isListingOf (ap : AbstractPath) (ev : Event) : bool :=
  match ev with
  | CallTraverseFolder listed _ => AbstractPath_eqb listed ap
  | _ => false
  end.

Definition listingsOf (ap : AbstractPath) (calls : list Event) : nat :=
  List.length (filter (isListingOf ap) calls).

End Resolver.

(** The pure virtual [PathStatusImpl getPathStatus(const AfsPath&) const]:
    a driver answers it by its own means or with
    [getPathStatusViaFolderTraversal]. *)
Class AfsBackend (Dev : Type) := {
  afsDriver :: AfsDriver Dev;
  afsGetPathStatus : Afs -> AfsPath -> M Dev PathStatusImpl.t;
}.

Section Folders.
Context {Dev : Type} {backend : AfsBackend Dev}.

(** [AFS::PathStatus AFS::getPathStatus(const AbstractPath& ap)] *)
Definition getPathStatus (ap : AbstractPath) : M Dev PathStatus.t :=
  psi <- afsGetPathStatus (afs ap) (afsPath ap) ;;
  ret (PathStatus.mk (PathStatusImpl.existingType psi)
                     (mkAbstractPath (afs ap) (PathStatusImpl.existingAfsPath psi))
                     (PathStatusImpl.relPath psi)).

(** [std::optional<AFS::ItemType> AFS::getItemTypeIfExists(const AbstractPath& ap)] *)
Definition getItemTypeIfExists (ap : AbstractPath) : M Dev (option ItemType) :=
  ps <- getPathStatus ap ;;
  if isEmpty (PathStatus.relPath ps)
  then ret (Some (PathStatus.existingType ps))
  else ret None.

(** ** Recursive create *)

(** The loop of [createFolderIfMissingRecursion] over [ps.relPath], from
    [intermediatePath]; [throw;] rethrows what [createFolderPlain] threw. *)
Fixpoint createMissingFolders (intermediatePath : AbstractPath) (relPath : list Zstring) : M Dev unit :=
  match relPath with
  | [] => ret tt
  | itemName :: rest =>
      let intermediatePath := appendRelPath intermediatePath itemName in
      try_catch
        (createFolderPlain intermediatePath)
        (fun e =>
           (* already existing => possible, if run in parallel *)
           goOn <- try_catch
                     (type <- getItemType intermediatePath ;;
                      ret (negb (ItemType_eqb type FILE)))
                     (fun _ => ret false) ;;
           if goOn then ret tt else throw e) ;;;
      createMissingFolders intermediatePath rest
  end.

(** [void AFS::createFolderIfMissingRecursion(const AbstractPath& ap)] *)
Definition createFolderIfMissingRecursion (ap : AbstractPath) : M Dev unit :=
  match getParentFolderPath ap with
  | None => (* device root *)
      getItemType ap ;;; ret tt
  | Some _ =>
      try_catch
        (createFolderPlain ap)
        (fun e =>
           ps <- getPathStatus ap ;;
           if ItemType_eqb (PathStatus.existingType ps) FILE
           then throw e
           else createMissingFolders (PathStatus.existingPath ps) (PathStatus.relPath ps))
  end.

(** ** Recursive delete *)

(** An optional observer [std::function<void (const std::wstring& displayPath)>]. *)
Definition Observer := option (wstring -> M Dev unit).

Definition notify (observer : Observer) (displayPath : wstring) : M Dev unit :=
  match observer with
  | Some f => f displayPath
  | None => ret tt
  end.

(** Observers that record their calls in the log. *)
Definition recordFileDeletion : Observer :=
  Some (fun displayPath => emit (NotifyBeforeFileDeletion displayPath)).

Definition recordFolderDeletion : Observer :=
  Some (fun displayPath => emit (NotifyBeforeFolderDeletion displayPath)).

(** The lambdas of the listing in [removeFolderRecursionImpl]: each pushes
    the name to the back of its vector. *)
Definition NameLists := (list Zstring * list Zstring * list Zstring)%type.

Definition pushFileName : TraverserSlot NameLists Empty_set :=
  Some (fun (itemName : Zstring) '((fileNames, folderNames, symlinkNames) : NameLists) =>
          inl ((fileNames ++ [itemName])%list, folderNames, symlinkNames)).

Definition pushFolderName : TraverserSlot NameLists Empty_set :=
  Some (fun (itemName : Zstring) '((fileNames, folderNames, symlinkNames) : NameLists) =>
          inl (fileNames, (folderNames ++ [itemName])%list, symlinkNames)).

Definition pushSymlinkName : TraverserSlot NameLists Empty_set :=
  Some (fun (itemName : Zstring) '((fileNames, folderNames, symlinkNames) : NameLists) =>
          inl (fileNames, folderNames, (symlinkNames ++ [itemName])%list)).

(** The lambda [removeFolderRecursionImpl] of [removeFolderIfExistsRecursion];
    [fuel] bounds the depth of the folder tree it can descend. *)
Fixpoint removeFolderRecursionImpl (fuel : nat)
    (onBeforeFileDeletion onBeforeFolderDeletion : Observer)
    (folderPath : AbstractPath) : M Dev unit :=
  match fuel with
  | O => diverge
  | S fuel' =>
      listed <- traverseFolderFlat folderPath pushFileName pushFolderName pushSymlinkName
                  ([], [], []) ;;
      match listed with
      | inr impossible => match impossible : Empty_set with end
      | inl (fileNames, folderNames, symlinkNames) =>
          forEach fileNames (fun fileName =>
            let filePath := appendRelPath folderPath fileName in
            notify onBeforeFileDeletion (getDisplayPath filePath) ;;;
            removeFilePlain filePath) ;;;
          forEach symlinkNames (fun symlinkName =>
            let linkPath := appendRelPath folderPath symlinkName in
            notify onBeforeFileDeletion (getDisplayPath linkPath) ;;;
            removeSymlinkPlain linkPath) ;;;
          forEach folderNames (fun folderName =>
            removeFolderRecursionImpl fuel' onBeforeFileDeletion onBeforeFolderDeletion
              (appendRelPath folderPath folderName)) ;;;
          notify onBeforeFolderDeletion (getDisplayPath folderPath) ;;;
          removeFolderPlain folderPath
      end
  end.

(** [void AFS::removeFolderIfExistsRecursion(ap, onBeforeFileDeletion, onBeforeFolderDeletion)] *)
Definition removeFolderIfExistsRecursion (fuel : nat) (ap : AbstractPath)
    (onBeforeFileDeletion onBeforeFolderDeletion : Observer) : M Dev unit :=
  type <- getItemTypeIfExists ap ;;
  match type with
  | Some type =>
      if ItemType_eqb type SYMLINK
      then
        notify onBeforeFileDeletion (getDisplayPath ap) ;;;
        removeSymlinkPlain ap
      else removeFolderRecursionImpl fuel onBeforeFileDeletion onBeforeFolderDeletion ap
  | None =>
      (* even if the folder did not exist anymore, significant I/O work was done => report *)
      notify onBeforeFolderDeletion (getDisplayPath ap)
  end.

(** ** The order of a recursive removal *)

(** The names a listing delivered to the slot of [type], in its order. *)
Definition namesOfType (type : ItemType) (items : list (Zstring * ItemType)) : list Zstring :=
  map fst (filter (fun item => ItemType_eqb (snd item) type) items).

Definition observerIf (set : bool) (observer : Observer) : Observer :=
  if set then observer else None.

(** The notification of [ap], when the observer is set. *)
Definition announce (set : bool) (ev : wstring -> Event) (ap : AbstractPath) : list Event :=
  if set then [ev (getDisplayPath ap)] else [].

(** Each name in turn: its notification, then its removal call [remove]. *)
Definition removals (notifyFile : bool) (remove : AbstractPath -> Event)
    (folderPath : AbstractPath) (names : list Zstring) : list Event :=
  flat_map (fun name =>
              announce notifyFile NotifyBeforeFileDeletion (appendRelPath folderPath name)
              ++ [remove (appendRelPath folderPath name)])%list
           names.

Definition folderRemoval (notifyFolder : bool) (folderPath : AbstractPath) : list Event :=
  (announce notifyFolder NotifyBeforeFolderDeletion folderPath
   ++ [CallRemoveFolderPlain folderPath])%list.

(** The calls of a complete removal of the folder [folderPath]: its one
    listing, the files it listed, then the symlinks, then a complete removal
    of each subfolder, then the folder itself. *)
#[warnings="-register-all"] Inductive FolderRemoval (notifyFile notifyFolder : bool) : AbstractPath -> list Event -> Prop :=
| FolderRemoval_intro (folderPath : AbstractPath) (items : list (Zstring * ItemType))
    (subfolders : list (list Event)) :
    Forall2 (fun folderName calls =>
               FolderRemoval notifyFile notifyFolder (appendRelPath folderPath folderName) calls)
            (namesOfType FOLDER items) subfolders ->
    FolderRemoval notifyFile notifyFolder folderPath
      (CallTraverseFolder folderPath items
       :: removals notifyFile CallRemoveFilePlain folderPath (namesOfType FILE items)
       ++ removals notifyFile CallRemoveSymlinkPlain folderPath (namesOfType SYMLINK items)
       ++ List.concat subfolders
       ++ folderRemoval notifyFolder folderPath)%list.

(** The computation [m] adds calls to the log, and what it adds is an
    initial part of a list that [P] holds of: all of it when [m] returns. *)
Definition logsWithin (P : list Event -> Prop) (m : M Dev unit) : Prop :=
  forall (s s' : State Dev) r,
    m s = (r, s') ->
    exists calls rest,
      log s' = (log s ++ calls)%list /\
      P (calls ++ rest)%list /\
      (r = Ok tt -> rest = []).

(** ** Remove if exists *)

(** The [catch] block the three functions share: [gone] is what the
    function returns when the item does not exist. *)
Definition recheckAfterFailure {A} (ap : AbstractPath) (gone : A) (e : FileError) : M Dev A :=
  exists_ <- try_catch
               (type <- getItemTypeIfExists ap ;;
                ret (match type with Some _ => true | None => false end))
               (fun e2 => throw (ErrorPair e e2)) ;;
  if negb exists_ then ret gone else throw e.

(** [bool AFS::removeFileIfExists(const AbstractPath& ap)] *)
Definition removeFileIfExists (ap : AbstractPath) : M Dev bool :=
  try_catch
    (removeFilePlain ap ;;; ret true)
    (recheckAfterFailure ap false).

(** [bool AFS::removeSymlinkIfExists(const AbstractPath& ap)] *)
Definition removeSymlinkIfExists (ap : AbstractPath) : M Dev bool :=
  try_catch
    (removeSymlinkPlain ap ;;; ret true)
    (recheckAfterFailure ap false).

(** [void AFS::removeEmptyFolderIfExists(const AbstractPath& ap)] *)
Definition removeEmptyFolderIfExists (ap : AbstractPath) : M Dev unit :=
  try_catch
    (removeFolderPlain ap)
    (recheckAfterFailure ap tt).

(** What the three functions have in common, for one of them, [f], whose
    plain removal is the driver call [plain], logged as [ev]: [f] returns
    [removed] when the plain removal succeeds; when it throws [e], the
    existence of the item is checked: [f] returns [gone] if the item does not
    exist, throws [e] if it exists, and throws [e] paired with the error of
    the check if the check throws. *)
Definition recheckedRemoval {A} (plain : AbstractPath -> Dev -> Outcome unit * Dev)
    (ev : AbstractPath -> Event) (f : AbstractPath -> M Dev A) (removed gone : A) : Prop :=
  forall ap (s : State Dev) d1,
    let s1 := mkState d1 (log s ++ [ev ap]) in
    (plain ap (dev s) = (Ok tt, d1) -> f ap s = (Ok removed, s1)) /\
    (forall e, plain ap (dev s) = (Throw e, d1) ->
       (forall s2, getItemTypeIfExists ap s1 = (Ok None, s2) ->
          f ap s = (Ok gone, s2)) /\
       (forall type s2, getItemTypeIfExists ap s1 = (Ok (Some type), s2) ->
          f ap s = (Throw e, s2)) /\
       (forall e2 s2, getItemTypeIfExists ap s1 = (Throw e2, s2) ->
          f ap s = (Throw (ErrorPair e e2), s2))).

End Folders.

(* ===================================================================== *)
(** * An in-memory backend *)
(* ===================================================================== *)

(** Drivers over one table of items, for running the layer on concrete
    folders. Drivers of even type buffer the attributes of a stream they open
    and can set modification times (as the native driver does); drivers of
    odd type do neither (as an FTP server without MFMT). The input streams of
    a driver of type 3 do not report what they read to their [IOCallback].
    An output stream creates its file when opened; [finalize] throws unless
    the file has the size the stream was opened with; the destructor of the
    stream removes the file again unless the stream was finalized. *)
Module MemFs.

Inductive Item :=
| File (fileSize modTime : Z)
| Folder
| Symlink.

Record Device := mkDevice
  { items : list (AbstractPath * Item);      (* in the order they were created *)
    unfinalized : list (AbstractPath * option Z) }.
      (* the output streams opened and not finalized, with their stream sizes *)

Definition typeOf (it : Item) : ItemType :=
  match it with
  | File _ _ => FILE
  | Folder => FOLDER
  | Symlink => SYMLINK
  end.

Definition isRoot (ap : AbstractPath) : bool :=
  match value (afsPath ap) with
  | EmptyString => true
  | _ => false
  end.

Definition named (ap : AbstractPath) (entry : AbstractPath * Item) : bool :=
  AbstractPath_eqb (fst entry) ap.

(** The root of every device is a folder. *)
Definition lookup (ap : AbstractPath) (d : Device) : option Item :=
  if isRoot ap then Some Folder
  else option_map snd (find (named ap) (items d)).

Definition without (ap : AbstractPath) (l : list (AbstractPath * Item)) :=
  filter (fun entry => negb (named ap entry)) l.

Definition remove (ap : AbstractPath) (d : Device) : Device :=
  mkDevice (without ap (items d)) (unfinalized d).

Definition put (ap : AbstractPath) (it : Item) (d : Device) : Device :=
  mkDevice (without ap (items d) ++ [(ap, it)]) (unfinalized d).

(** [entry] lies directly in the folder [ap]. *)
Definition childOf (ap : AbstractPath) (entry : AbstractPath * Item) : bool :=
  negb (isRoot (fst entry)) &&
  AbstractPath_eqb (appendRelPath ap (getItemName (fst entry))) (fst entry).

Definition children (ap : AbstractPath) (d : Device) : list (AbstractPath * Item) :=
  filter (childOf ap) (items d).

Definition notFound : FileError := DriverError "item not found".
Definition alreadyExists : FileError := DriverError "item already exists".
Definition wrongType : FileError := DriverError "item has another type".
Definition notEmpty : FileError := DriverError "folder is not empty".
Definition notSupported : FileError := DriverError "operation not supported".
Definition unexpectedSize : FileError := DriverError "unexpected size of data stream".

Definition mGetItemType (ap : AbstractPath) (d : Device) : Outcome ItemType * Device :=
  match lookup ap d with
  | Some it => (Ok (typeOf it), d)
  | None => (Throw notFound, d)
  end.

Definition mTraverseFolder (ap : AbstractPath) (d : Device)
    : (list (Zstring * ItemType) * option FileError) * Device :=
  match lookup ap d with
  | Some Folder =>
      ((map (fun entry => (getItemName (fst entry), typeOf (snd entry))) (children ap d), None), d)
  | Some _ => (([], Some wrongType), d)
  | None => (([], Some notFound), d)
  end.

Definition mCreateFolderPlain (ap : AbstractPath) (d : Device) : Outcome unit * Device :=
  match lookup ap d with
  | Some _ => (Throw alreadyExists, d)
  | None =>
      match getParentFolderPath ap with
      | None => (Throw alreadyExists, d)
      | Some parentPath =>
          match lookup parentPath d with
          | Some Folder => (Ok tt, put ap Folder d)
          | Some _ => (Throw wrongType, d)
          | None => (Throw notFound, d)
          end
      end
  end.

Definition mRemoveFilePlain (ap : AbstractPath) (d : Device) : Outcome unit * Device :=
  match lookup ap d with
  | Some (File _ _) => (Ok tt, remove ap d)
  | Some _ => (Throw wrongType, d)
  | None => (Throw notFound, d)
  end.

Definition mRemoveSymlinkPlain (ap : AbstractPath) (d : Device) : Outcome unit * Device :=
  match lookup ap d with
  | Some Symlink => (Ok tt, remove ap d)
  | Some _ => (Throw wrongType, d)
  | None => (Throw notFound, d)
  end.

Definition mRemoveFolderPlain (ap : AbstractPath) (d : Device) : Outcome unit * Device :=
  match lookup ap d with
  | Some Folder =>
      if isRoot ap then (Throw notSupported, d)
      else
        match children ap d with
        | [] => (Ok tt, remove ap d)
        | _ => (Throw notEmpty, d)
        end
  | Some _ => (Throw wrongType, d)
  | None => (Throw notFound, d)
  end.

Definition nativeLike (a : Afs) : bool := Nat.even (afsType a).

Definition mSetModTime (ap : AbstractPath) (modTime : Z) (d : Device) : Outcome unit * Device :=
  if nativeLike (afs ap) then
    match lookup ap d with
    | Some (File size _) => (Ok tt, put ap (File size modTime) d)
    | Some _ => (Ok tt, d)
    | None => (Throw notFound, d)
    end
  else (Throw notSupported, d).

Definition mMoveAndRenameItem (apSource apTarget : AbstractPath) (d : Device) : Outcome unit * Device :=
  if negb (Afs_eqb (afs apSource) (afs apTarget)) then (Throw notSupported, d)
  else
    match lookup apSource d with
    | Some it =>
        if isRoot apSource || isRoot apTarget then (Throw notSupported, d)
        else (Ok tt, put apTarget it (remove apSource d))
    | None => (Throw notFound, d)
    end.

Definition fileIdOf (ap : AbstractPath) : FileId := value (afsPath ap).

Definition mCopyFileForSameAfsType (apSource : AbstractPath) (attrSource : StreamAttributes.t)
    (apTarget : AbstractPath) (copyFilePermissions : bool) (d : Device)
    : Outcome FileCopyResult.t * Device :=
  match lookup apSource d with
  | Some (File size modTime) =>
      if isRoot apTarget then (Throw notSupported, d)
      else (Ok (FileCopyResult.mk size modTime (fileIdOf apSource) (fileIdOf apTarget) None),
            put apTarget (File size modTime) d)
  | Some _ => (Throw wrongType, d)
  | None => (Throw notFound, d)
  end.

Definition mGetInputStream (ap : AbstractPath) (d : Device) : Outcome (InputStream * list Z) * Device :=
  match lookup ap d with
  | Some (File _ _) => (Ok (mkInputStream ap 0, []), d)
  | Some _ => (Throw wrongType, d)
  | None => (Throw notFound, d)
  end.

Definition mGetAttributesBuffered (streamIn : InputStream) (d : Device)
    : Outcome (option StreamAttributes.t) * Device :=
  if nativeLike (afs (inPath streamIn)) then
    match lookup (inPath streamIn) d with
    | Some (File size modTime) =>
        (Ok (Some (StreamAttributes.mk modTime size (fileIdOf (inPath streamIn)))), d)
    | _ => (Throw notFound, d)
    end
  else (Ok None, d).

Definition mGetOutputStream (ap : AbstractPath) (streamSize : option Z) (d : Device)
    : Outcome (OutputStream * list Z) * Device :=
  match getParentFolderPath ap with
  | None => (Throw notSupported, d)
  | Some parentPath =>
      match lookup parentPath d with
      | Some Folder =>
          let d' := put ap (File 0 0) d in
          (Ok (mkOutputStream ap 0, []),
           mkDevice (items d') ((ap, streamSize) :: unfinalized d'))
      | _ => (Throw notFound, d)
      end
  end.

Definition reportsReads (a : Afs) : bool := negb (Nat.eqb (afsType a) 3).

(** The pump reads the whole source and writes it to the target; the
    streams report each block to their [IOCallback]. *)
Definition mBufferedStreamCopy (streamIn : InputStream) (streamOut : OutputStream) (d : Device)
    : Outcome (list Z) * Device :=
  match lookup (inPath streamIn) d with
  | Some (File size _) =>
      (Ok ((if reportsReads (afs (inPath streamIn)) then [size] else []) ++ [size])%list,
       put (outPath streamOut) (File size 0) d)
  | _ => (Throw notFound, d)
  end.

Definition opened (ap : AbstractPath) (entry : AbstractPath * option Z) : bool :=
  AbstractPath_eqb (fst entry) ap.

Definition forget (ap : AbstractPath) (l : list (AbstractPath * option Z)) :=
  filter (fun entry => negb (opened ap entry)) l.

Definition sizeWritten (ap : AbstractPath) (d : Device) : Z :=
  match lookup ap d with
  | Some (File size _) => size
  | _ => 0
  end.

Definition mFinalize (streamOut : OutputStream) (d : Device) : Outcome (FileId * list Z) * Device :=
  match find (opened (outPath streamOut)) (unfinalized d) with
  | Some (_, Some streamSize) =>
      if sizeWritten (outPath streamOut) d =? streamSize
      then (Ok (fileIdOf (outPath streamOut), []),
            mkDevice (items d) (forget (outPath streamOut) (unfinalized d)))
      else (Throw unexpectedSize, d)
  | Some (_, None) =>
      (Ok (fileIdOf (outPath streamOut), []),
       mkDevice (items d) (forget (outPath streamOut) (unfinalized d)))
  | None => (Throw notSupported, d)
  end.

Definition mCloseOutputStream (streamOut : OutputStream) (d : Device) : Device :=
  if existsb (opened (outPath streamOut)) (unfinalized d)
  then mkDevice (without (outPath streamOut) (items d)) (forget (outPath streamOut) (unfinalized d))
  else d.

Definition mCloseInputStream (streamIn : InputStream) (d : Device) : Device := d.

Definition displayPath (ap : AbstractPath) : wstring :=
  afsDevice (afs ap) ++ String FILE_NAME_SEPARATOR (value (afsPath ap)).

#[local] Instance driver : AfsDriver Device := {
  drvGetItemType := mGetItemType;
  drvTraverseFolder := mTraverseFolder;
  drvCreateFolderPlain := mCreateFolderPlain;
  drvRemoveFilePlain := mRemoveFilePlain;
  drvRemoveSymlinkPlain := mRemoveSymlinkPlain;
  drvRemoveFolderPlain := mRemoveFolderPlain;
  drvSetModTime := mSetModTime;
  drvMoveAndRenameItem := mMoveAndRenameItem;
  drvCopyFileForSameAfsType := mCopyFileForSameAfsType;
  drvGetInputStream := mGetInputStream;
  drvGetAttributesBuffered := mGetAttributesBuffered;
  drvGetOutputStream := mGetOutputStream;
  drvBufferedStreamCopy := mBufferedStreamCopy;
  drvFinalize := mFinalize;
  drvCloseOutputStream := mCloseOutputStream;
  drvCloseInputStream := mCloseInputStream;
  getDisplayPath := displayPath;
  equalFilePath := String.eqb;
}.

(** Every in-memory driver answers [getPathStatus] by folder traversal. *)
#[local] Instance backend : AfsBackend Device := {
  afsDriver := driver;
  afsGetPathStatus := getPathStatusViaFolderTraversal (driver := driver);
}.

(** The order of paths used with this backend: devices by name, file
    paths by code unit. *)
Definition compareZstring (a b : Zstring) : Z :=
  match String.compare a b with
  | Lt => -1
  | Eq => 0
  | Gt => 1
  end.

#[local] Instance pathOrder : PathOrder := {
  compareDeviceRootSameAfsType := fun lhs rhs => compareZstring (afsDevice lhs) (afsDevice rhs);
  compareFilePath := compareZstring;
}.

Definition pathLength (ap : AbstractPath) : nat := String.length (value (afsPath ap)).

(** No path on the device is longer than [bound]. *)
Definition pathsWithin (bound : nat) (d : Device) : Prop :=
  Forall (fun entry => (pathLength (fst entry) <= bound)%nat) (items d).

(** The length of the longest path on the device. *)
Definition longestPath (d : Device) : nat :=
  fold_right Nat.max 0%nat (map (fun entry => pathLength (fst entry)) (items d)).

(** Fuel that lets [removeFolderRecursionImpl] reach every folder below [ap]. *)
Definition fuelFor (ap : AbstractPath) (d : Device) : nat :=
  S (longestPath d - pathLength ap).

Definition start (d : Device) : State Device := mkState d [].

End MemFs.


(** ** Folders to run the layer on *)
Module Sample.

Definition disk : Afs := mkAfs 0 "disk".   (* buffers attributes, sets modification times *)
Definition ftp : Afs := mkAfs 1 "ftp".     (* does neither *)
Definition usb : Afs := mkAfs 2 "usb".     (* as [disk], of another driver type *)
Definition phone : Afs := mkAfs 3 "phone". (* as [ftp], and does not report what it reads *)

Definition at_ (a : Afs) (path : Zstring) : AbstractPath := mkAbstractPath a (mkAfsPath path).

(** A folder [base/dir] with one file, one subfolder holding a file, and one
    symlink; a file on the FTP server, one on the USB stick, one on the
    phone. *)
Definition device : MemFs.Device :=
  MemFs.mkDevice
    [ (at_ disk "base", MemFs.Folder);
      (at_ disk "base/dir", MemFs.Folder);
      (at_ disk "base/dir/f.txt", MemFs.File 10 5);
      (at_ disk "base/dir/sub", MemFs.Folder);
      (at_ disk "base/dir/lnk", MemFs.Symlink);
      (at_ disk "base/dir/sub/g", MemFs.File 1 1);
      (at_ ftp "src.txt", MemFs.File 1005 77);
      (at_ usb "photo.jpg", MemFs.File 1005 78);
      (at_ phone "rec.wav", MemFs.File 1005 79) ]
    [].

Definition initial : State MemFs.Device := MemFs.start device.

(** The attributes a comparison read before the files grew by five bytes. *)
Definition staleAttributes : StreamAttributes.t := StreamAttributes.mk 70 1000 "old".

(** The attributes of the files as they are now, up to the modification
    time. *)
Definition currentAttributes : StreamAttributes.t := StreamAttributes.mk 77 1005 "now".

End Sample.

(** ** A device that is unplugged once a stream is open *)
Module Unplugged.

(** The in-memory drivers, but the attributes of an opened input stream
    cannot be read any more. *)
Definition driver : AfsDriver MemFs.Device := {|
  drvGetItemType := MemFs.mGetItemType;
  drvTraverseFolder := MemFs.mTraverseFolder;
  drvCreateFolderPlain := MemFs.mCreateFolderPlain;
  drvRemoveFilePlain := MemFs.mRemoveFilePlain;
  drvRemoveSymlinkPlain := MemFs.mRemoveSymlinkPlain;
  drvRemoveFolderPlain := MemFs.mRemoveFolderPlain;
  drvSetModTime := MemFs.mSetModTime;
  drvMoveAndRenameItem := MemFs.mMoveAndRenameItem;
  drvCopyFileForSameAfsType := MemFs.mCopyFileForSameAfsType;
  drvGetInputStream := MemFs.mGetInputStream;
  drvGetAttributesBuffered := fun _ d => (Throw MemFs.notFound, d);
  drvGetOutputStream := MemFs.mGetOutputStream;
  drvBufferedStreamCopy := MemFs.mBufferedStreamCopy;
  drvFinalize := MemFs.mFinalize;
  drvCloseOutputStream := MemFs.mCloseOutputStream;
  drvCloseInputStream := MemFs.mCloseInputStream;
  getDisplayPath := MemFs.displayPath;
  equalFilePath := String.eqb;
|}.

End Unplugged.

(** ** Paths below a path *)

(** [x] is [ap] or lies below it: it is reached from [ap] by appending
    names, as [appendRelPath] does. *)
Definition isAtOrBelow (ap x : AbstractPath) : Prop :=
  exists names, x = fold_left appendRelPath names ap.

(** A logged event of a removal that stays at or below [ap]: a listing or a
    removal call for a path at or below [ap], or the call of an observer. *)
Definition staysAtOrBelow (ap : AbstractPath) (ev : Event) : Prop :=
  match ev with
  | CallTraverseFolder x _
  | CallRemoveFilePlain x
  | CallRemoveSymlinkPlain x
  | CallRemoveFolderPlain x => isAtOrBelow ap x
  | NotifyBeforeFileDeletion _
  | NotifyBeforeFolderDeletion _ => True
  | _ => False
  end.

(** ** The folders a recursive creation goes through *)



(** ** The work items of a recursive traversal *)

(** The loop of [AFS::traverseFolderRecursive] that builds
    [TraverserWorkloadImpl]: the path list of each work item becomes the
    [AfsPath] below the base path, and the callback stays with it. The
    result is what the driver of the base path is called with. *)
Definition traverserWorkloadImpl {Callback : Type} (basePath : AbstractPath)
    (workload : list (list Zstring * Callback)) : list (AfsPath * Callback) :=
  map (fun item => (joinRelPathComponents (afsPath basePath) (fst item), snd item)) workload.

(** ** What the driver did for the calls of a removal *)

Section Performed.
Context {Dev : Type} {driver : AfsDriver Dev}.

(** The driver, on the device [d], was called as the logged event says, the
    call ended with the outcome [r] and left the device [d']. For a listing
    the logged items are the ones the driver delivered, and the outcome is
    the error the listing ended with, if any. The call of an observer that
    records leaves the device alone. *)
Inductive Performs : Event -> Dev -> Outcome unit -> Dev -> Prop :=
| Performs_listing (ap : AbstractPath) (items : list (Zstring * ItemType))
    (err : option FileError) (d d' : Dev) :
    drvTraverseFolder ap d = ((items, err), d') ->
    Performs (CallTraverseFolder ap items) d
             (match err with Some e => Throw e | None => Ok tt end) d'
| Performs_removeFile (ap : AbstractPath) (d : Dev) (r : Outcome unit) (d' : Dev) :
    drvRemoveFilePlain ap d = (r, d') ->
    Performs (CallRemoveFilePlain ap) d r d'
| Performs_removeSymlink (ap : AbstractPath) (d : Dev) (r : Outcome unit) (d' : Dev) :
    drvRemoveSymlinkPlain ap d = (r, d') ->
    Performs (CallRemoveSymlinkPlain ap) d r d'
| Performs_removeFolder (ap : AbstractPath) (d : Dev) (r : Outcome unit) (d' : Dev) :
    drvRemoveFolderPlain ap d = (r, d') ->
    Performs (CallRemoveFolderPlain ap) d r d'
| Performs_notifyFile (displayPath : wstring) (d : Dev) :
    Performs (NotifyBeforeFileDeletion displayPath) d (Ok tt) d
| Performs_notifyFolder (displayPath : wstring) (d : Dev) :
    Performs (NotifyBeforeFolderDeletion displayPath) d (Ok tt) d.

(** The logged calls were made on the driver one after the other, from the
    device [d] to the device [d']: each call but the last returned, and the
    last one ended with [r]. *)
Inductive PerformsAll : list Event -> Dev -> Outcome unit -> Dev -> Prop :=
| PerformsAll_none (d : Dev) :
    PerformsAll [] d (Ok tt) d
| PerformsAll_next (ev : Event) (rest : list Event) (d d1 d' : Dev) (r : Outcome unit) :
    Performs ev d (Ok tt) d1 ->
    PerformsAll rest d1 r d' ->
    PerformsAll (ev :: rest) d r d'
| PerformsAll_stop (ev : Event) (d d' : Dev) (r : Outcome unit) :
    Performs ev d r d' ->
    r <> Ok tt ->
    PerformsAll [ev] d r d'.

(** What the computation [m] adds to the log are calls it has made on the
    driver, in this order, and the device it leaves is the one the driver
    left. Unless [m] does not end, its outcome is the one of the last
    call. *)
Definition performsItsCalls (m : M Dev unit) : Prop :=
  forall (s s' : State Dev) r,
    m s = (r, s') ->
    exists calls r0,
      log s' = (log s ++ calls)%list /\
      PerformsAll calls (dev s) r0 (dev s') /\
      (r <> Diverge -> r = r0).

End Performed.

(** The path a logged removal call is for. *)
Definition removedPath (ev : Event) : option AbstractPath :=
  match ev with
  | CallRemoveFilePlain ap
  | CallRemoveSymlinkPlain ap
  | CallRemoveFolderPlain ap => Some ap
  | _ => None
  end.

(* ===================================================================== *)
(** * Properties of the path order *)
(* ===================================================================== *)

Section PathOrderFacts.
Context {order : PathOrder}.

Lemma typeid_before_irrefl (a : Afs) : typeid_before a a = false.
Proof. apply Nat.ltb_irrefl. Qed.

Lemma typeid_neither_before (a b : Afs) :
  typeid_before a b = false -> typeid_before b a = false -> afsType a = afsType b.
Proof.
  unfold typeid_before. intros Hab Hba.
  apply Nat.ltb_ge in Hab. apply Nat.ltb_ge in Hba.
  apply Nat.le_antisymm; assumption.
Qed.

Lemma typeid_before_asym (a b : Afs) :
  typeid_before a b = true -> typeid_before b a = false.
Proof.
  unfold typeid_before. intros Hab.
  apply Nat.ltb_lt in Hab. apply Nat.ltb_ge. apply Nat.lt_le_incl. exact Hab.
Qed.

(** C8. With a device comparator and a file path comparator that are
    themselves reflexive and antisymmetric, [compareAbstractPath] answers 0
    for a path and itself, and for two paths in swapped order the negated
    value. *)
Theorem compareAbstractPath_reflexive_antisymmetric :
  (forall a, compareDeviceRootSameAfsType a a = 0) ->
  (forall a b, afsType a = afsType b ->
     compareDeviceRootSameAfsType a b = - compareDeviceRootSameAfsType b a) ->
  (forall p, compareFilePath p p = 0) ->
  (forall p q, compareFilePath p q = - compareFilePath q p) ->
  (forall A, compareAbstractPath A A = 0) /\
  (forall A B, compareAbstractPath A B = - compareAbstractPath B A).
Proof.
  intros root_refl root_antisym path_refl path_antisym. split.
  - intros A. unfold compareAbstractPath.
    rewrite typeid_before_irrefl, root_refl. simpl. apply path_refl.
  - intros A B. unfold compareAbstractPath.
    destruct (typeid_before (afs A) (afs B)) eqn:HAB.
    + rewrite (typeid_before_asym _ _ HAB). reflexivity.
    + destruct (typeid_before (afs B) (afs A)) eqn:HBA; [reflexivity|].
      pose proof (typeid_neither_before _ _ HAB HBA) as Hty.
      rewrite (root_antisym _ _ Hty).
      destruct (Z.eqb_spec (compareDeviceRootSameAfsType (afs B) (afs A)) 0) as [Hz | Hnz].
      * rewrite Hz. simpl. apply path_antisym.
      * destruct (Z.eqb_spec (- compareDeviceRootSameAfsType (afs B) (afs A)) 0) as [Hz' | _].
        -- exfalso. apply Hnz. lia.
        -- reflexivity.
Qed.

End PathOrderFacts.

Lemma compareZstring_refl (p : Zstring) : MemFs.compareZstring p p = 0.
Proof.
  unfold MemFs.compareZstring.
  pose proof (String.compare_antisym p p) as Hopp.
  destruct (String.compare p p); simpl in Hopp; try discriminate; reflexivity.
Qed.

Lemma compareZstring_antisym (p q : Zstring) :
  MemFs.compareZstring p q = - MemFs.compareZstring q p.
Proof.
  unfold MemFs.compareZstring.
  rewrite (String.compare_antisym q p).
  destruct (String.compare p q); reflexivity.
Qed.

Lemma compareAbstractPath_reflexive_antisymmetric_witness :
  let A := mkAbstractPath (mkAfs 0 "disk") (mkAfsPath "base/a.txt") in
  let B := mkAbstractPath (mkAfs 1 "ftp") (mkAfsPath "base/a.txt") in
  let C := mkAbstractPath (mkAfs 0 "disk") (mkAfsPath "base/b.txt") in
  let compare := compareAbstractPath (order := MemFs.pathOrder) in
  compare A A = 0 /\
  compare A B = - compare B A /\
  compare A C = - compare C A /\
  compare A C = -1.
Proof.
  intros A B C compare.
  destruct (@compareAbstractPath_reflexive_antisymmetric MemFs.pathOrder
              (fun a => compareZstring_refl (afsDevice a))
              (fun a b _ => compareZstring_antisym (afsDevice a) (afsDevice b))
              compareZstring_refl compareZstring_antisym) as [Hrefl Hanti].
  split; [apply Hrefl |].
  split; [apply Hanti |].
  split; [apply Hanti | reflexivity].
Defined.

(* ===================================================================== *)
(** * Properties of the stream copy *)
(* ===================================================================== *)

Lemma int64_small (z : Z) : - 2 ^ 63 <= z < 2 ^ 63 -> int64 z = z.
Proof.
  intros Hz. unfold int64.
  rewrite Z.mod_small by lia. lia.
Qed.

Lemma int64_range (z : Z) : - 2 ^ 63 <= int64 z < 2 ^ 63.
Proof.
  unfold int64.
  pose proof (Z.mod_pos_bound (z + 2 ^ 63) (2 ^ 64) ltac:(lia)). lia.
Qed.

(** Below 2^62 bytes, twice the signed size is computed without overflow. *)
Lemma twice_makeSigned (n : Z) : 0 <= n < 2 ^ 62 -> int64 (2 * makeSigned n) = 2 * n.
Proof.
  intros Hn. unfold makeSigned.
  rewrite (int64_small n) by lia.
  apply int64_small. lia.
Qed.

Section StreamCopyFacts.
Context {Dev : Type} {driver : AfsDriver Dev}.

(** What [copyFileAsStream] does once its streams are done: the byte count
    check, then the modification time, then the destructors. *)
Lemma copyFileAsStream_after_streams
    apSource attrSource apTarget (s : State Dev) streamIn streamOut attrSourceNew targetFileId total d' :
  streamsCopied apSource attrSource apTarget (dev s)
                streamIn streamOut attrSourceNew targetFileId total d' ->
  let size := StreamAttributes.fileSize attrSourceNew in
  let done := (log s ++ streamCalls apSource apTarget streamIn streamOut size)%list in
  let closeBoth st := closeInputStream streamIn (closeOutputStream streamOut st) in
  copyFileAsStream apSource attrSource apTarget s =
    if negb (total =? int64 (2 * makeSigned size))
    then (Throw (UnexpectedStreamSize (afsPath apSource) ((2 * size) mod 2 ^ 64) total),
          closeBoth (mkState d' done))
    else
      let modTime := StreamAttributes.modTime attrSourceNew in
      let done' := (done ++ [CallSetModTime apTarget modTime])%list in
      match drvSetModTime apTarget modTime d' with
      | (Ok _, d'') => (Ok (streamCopyResult attrSourceNew targetFileId None),
                        closeBoth (mkState d'' done'))
      | (Throw e, d'') => (Ok (streamCopyResult attrSourceNew targetFileId (Some e)),
                           closeBoth (mkState d'' done'))
      | (Diverge, d'') => (Diverge, mkState d'' done')
      end.
Proof.
  intros (io1 & d1 & attr & d2 & io2 & d3 & io3 & d4 & io4 &
          Hin & Hattr & Hnew & Hout & Hcopy & Hfin & Htotal).
  intros size done closeBoth. subst size done closeBoth.
  unfold copyFileAsStream, streamCalls.
  unfold bind at 1. unfold getInputStream, call at 1. rewrite Hin. cbn [dev log].
  unfold with_destructor at 1.
  unfold bind at 1. unfold getAttributesBuffered, call at 1. cbn [dev log]. rewrite Hattr. cbn [dev log].
  rewrite <- Hnew.
  unfold bind at 1. unfold getOutputStream, call at 1. cbn [dev log]. rewrite Hout. cbn [dev log].
  unfold with_destructor at 1.
  unfold bind at 1. unfold bufferedStreamCopy, call at 1. cbn [dev log]. rewrite Hcopy. cbn [dev log].
  unfold bind at 1. unfold finalize, call at 1. cbn [dev log]. rewrite Hfin. cbn [dev log].
  rewrite <- Htotal.
  repeat rewrite <- app_assoc. cbn [app].
  destruct (negb (total =? int64 (2 * makeSigned (StreamAttributes.fileSize attrSourceNew)))).
  - reflexivity.
  - unfold bind, try_catch, setModTime, call, ret. cbn [dev log].
    destruct (drvSetModTime apTarget (StreamAttributes.modTime attrSourceNew) d') as [[[] | e | ] d''];
      repeat rewrite <- app_assoc; reflexivity.
Qed.

End StreamCopyFacts.

Section StreamCopyClaims.
Context {Dev : Type} {driver : AfsDriver Dev}.

(** C2. When the streams of a copy of a source of [size] bytes (below 2^62)
    are done without an error, a byte counter other than twice the size makes
    [copyFileAsStream] throw the size mismatch error, and a counter of exactly
    twice the size makes it throw nothing. *)
Theorem copyFileAsStream_byte_count_check
    apSource attrSource apTarget (s : State Dev) streamIn streamOut attrSourceNew targetFileId total d' :
  streamsCopied apSource attrSource apTarget (dev s)
                streamIn streamOut attrSourceNew targetFileId total d' ->
  let size := StreamAttributes.fileSize attrSourceNew in
  0 <= size < 2 ^ 62 ->
  (total <> 2 * size ->
     fst (copyFileAsStream apSource attrSource apTarget s)
       = Throw (UnexpectedStreamSize (afsPath apSource) (2 * size) total)) /\
  (total = 2 * size ->
     forall e, fst (copyFileAsStream apSource attrSource apTarget s) <> Throw e).
Proof.
  intros Hstreams size Hsize.
  rewrite (copyFileAsStream_after_streams _ _ _ _ _ _ _ _ _ _ Hstreams).
  fold size. rewrite (twice_makeSigned size Hsize).
  split.
  - intros Hne.
    destruct (Z.eqb_spec total (2 * size)) as [Heq | _]; [contradiction|].
    cbn [negb fst]. rewrite Z.mod_small by lia. reflexivity.
  - intros Heq e.
    destruct (Z.eqb_spec total (2 * size)) as [_ | Hne]; [|contradiction].
    cbn [negb].
    destruct (drvSetModTime apTarget (StreamAttributes.modTime attrSourceNew) d') as [[[] | e' | ] d''];
      cbn [fst]; discriminate.
Qed.



(** C7. When the streams are done and the byte count check passes, an error
    of [setModTime] does not make [copyFileAsStream] throw: the copy returns
    its result with that error in [errorModTime]; when [setModTime] succeeds,
    [errorModTime] is empty. *)
Theorem copyFileAsStream_modTime_error_is_advisory
    apSource attrSource apTarget (s : State Dev) streamIn streamOut attrSourceNew targetFileId total d' :
  streamsCopied apSource attrSource apTarget (dev s)
                streamIn streamOut attrSourceNew targetFileId total d' ->
  total = int64 (2 * makeSigned (StreamAttributes.fileSize attrSourceNew)) ->
  let outcome := fst (copyFileAsStream apSource attrSource apTarget s) in
  let modTime := StreamAttributes.modTime attrSourceNew in
  (forall e d'', drvSetModTime apTarget modTime d' = (Throw e, d'') ->
     exists r, outcome = Ok r /\ FileCopyResult.errorModTime r = Some e) /\
  (forall d'', drvSetModTime apTarget modTime d' = (Ok tt, d'') ->
     exists r, outcome = Ok r /\ FileCopyResult.errorModTime r = None).
Proof.
  intros Hstreams Hcheck outcome modTime. subst outcome modTime.
  rewrite (copyFileAsStream_after_streams _ _ _ _ _ _ _ _ _ _ Hstreams).
  rewrite <- Hcheck, Z.eqb_refl. cbn [negb].
  split; intros; match goal with H : drvSetModTime _ _ _ = _ |- _ => rewrite H end;
    eexists; split; reflexivity.
Qed.

End StreamCopyClaims.

Section StreamCopyOnSample.
#[local] Existing Instance MemFs.driver.

(** The phone does not report what its stream reads: the counter ends at
    1005 for a file of 1005 bytes, and the copy fails; the FTP server reports
    its reads, the counter ends at 2010. *)
Lemma copyFileAsStream_byte_count_check_witness :
  let target := Sample.at_ Sample.disk "base/copy.txt" in
  fst (copyFileAsStream (Sample.at_ Sample.phone "rec.wav") Sample.currentAttributes target
         Sample.initial)
    = Throw (UnexpectedStreamSize (mkAfsPath "rec.wav") 2010 1005) /\
  (forall e, fst (copyFileAsStream (Sample.at_ Sample.ftp "src.txt") Sample.currentAttributes
                    target Sample.initial)
               <> Throw e).
Proof.
  intros target. split.
  - refine (proj1 (copyFileAsStream_byte_count_check
                     (Sample.at_ Sample.phone "rec.wav") Sample.currentAttributes target
                     Sample.initial
                     (mkInputStream (Sample.at_ Sample.phone "rec.wav") 0)
                     (mkOutputStream target 0)
                     Sample.currentAttributes "base/copy.txt" 1005 _ _ _) _).
    + do 9 eexists. repeat split; reflexivity.
    + simpl. lia.
    + simpl. lia.
  - refine (proj2 (copyFileAsStream_byte_count_check
                     (Sample.at_ Sample.ftp "src.txt") Sample.currentAttributes target
                     Sample.initial
                     (mkInputStream (Sample.at_ Sample.ftp "src.txt") 0)
                     (mkOutputStream target 0)
                     Sample.currentAttributes "base/copy.txt" 2010 _ _ _) _).
    + do 9 eexists. repeat split; reflexivity.
    + simpl. lia.
    + reflexivity.
Defined.


(** The FTP driver cannot set modification times: a copy to the server
    succeeds and carries the error; a copy to the disk carries none. *)
Lemma copyFileAsStream_modTime_error_is_advisory_witness :
  let source := Sample.at_ Sample.usb "photo.jpg" in
  (exists r, fst (copyFileAsStream source Sample.staleAttributes
                    (Sample.at_ Sample.ftp "photo.jpg") Sample.initial) = Ok r /\
             FileCopyResult.errorModTime r = Some MemFs.notSupported) /\
  (exists r, fst (copyFileAsStream source Sample.staleAttributes
                    (Sample.at_ Sample.disk "base/photo.jpg") Sample.initial) = Ok r /\
             FileCopyResult.errorModTime r = None).
Proof.
  intros source. split.
  - refine (proj1 (copyFileAsStream_modTime_error_is_advisory source Sample.staleAttributes
                     (Sample.at_ Sample.ftp "photo.jpg") Sample.initial
                     (mkInputStream source 0)
                     (mkOutputStream (Sample.at_ Sample.ftp "photo.jpg") 0)
                     (StreamAttributes.mk 78 1005 "photo.jpg") "photo.jpg" 2010 _ _ _)
                  MemFs.notSupported _ _).
    + do 9 eexists. repeat split; reflexivity.
    + reflexivity.
    + reflexivity.
  - refine (proj2 (copyFileAsStream_modTime_error_is_advisory source Sample.staleAttributes
                     (Sample.at_ Sample.disk "base/photo.jpg") Sample.initial
                     (mkInputStream source 0)
                     (mkOutputStream (Sample.at_ Sample.disk "base/photo.jpg") 0)
                     (StreamAttributes.mk 78 1005 "photo.jpg") "base/photo.jpg" 2010 _ _ _)
                  _ _).
    + do 9 eexists. repeat split; reflexivity.
    + reflexivity.
    + reflexivity.
Defined.

End StreamCopyOnSample.

(* ===================================================================== *)
(** * Properties of paths *)
(* ===================================================================== *)

Lemma splitLast_spec (c : ascii) (s b t : Zstring) :
  Zen.splitLast c s = Some (b, t) -> s = (b ++ String c t)%string.
Proof.
  revert b t. induction s as [| a r IH]; intros b t Hsplit; simpl in Hsplit.
  - discriminate.
  - destruct (Zen.splitLast c r) as [[b' t'] |] eqn:Hr.
    + injection Hsplit as Hb Ht. subst b t.
      simpl. f_equal. apply IH. reflexivity.
    + destruct (Ascii.eqb_spec a c) as [Hac | Hac]; [|discriminate].
      injection Hsplit as Hb Ht. subst b t a. reflexivity.
Qed.

Lemma length_append (a b : string) :
  String.length (a ++ b)%string = (String.length a + String.length b)%nat.
Proof. induction a as [| x a IH]; simpl; [reflexivity | now rewrite IH]. Qed.

Lemma beforeLast_orNone_shorter (s : Zstring) (c : ascii) :
  s <> EmptyString ->
  (String.length (Zen.beforeLast_orNone s c) < String.length s)%nat.
Proof.
  intros Hs. unfold Zen.beforeLast_orNone.
  destruct (Zen.splitLast c s) as [[b t] |] eqn:Hsplit.
  - apply splitLast_spec in Hsplit.
    apply (f_equal String.length) in Hsplit. rewrite length_append in Hsplit.
    cbn [String.length] in Hsplit. lia.
  - destruct s; [contradiction | cbn [String.length]; lia].
Qed.

Lemma getParentAfsPath_shorter (p q : AfsPath) :
  getParentAfsPath p = Some q ->
  (String.length (value q) < String.length (value p))%nat.
Proof.
  unfold getParentAfsPath. intros Hq.
  assert (Hp : value p <> EmptyString) by (destruct (value p); [discriminate | discriminate]).
  assert (Hq' : q = mkAfsPath (Zen.beforeLast_orNone (value p) FILE_NAME_SEPARATOR)).
  { destruct (value p); [contradiction|]. injection Hq as Hq. symmetry. exact Hq. }
  subst q. cbn [value]. apply beforeLast_orNone_shorter. exact Hp.
Qed.

(** A relative path that does not start with a separator is its parent with
    its item name appended, and its parent does not start with one either. *)
Lemma appendAfsPath_parent_itemName (p q : AfsPath) :
  Zen.startsWithChar (value p) FILE_NAME_SEPARATOR = false ->
  getParentAfsPath p = Some q ->
  appendAfsPath q (getItemNameAfs p) = p /\
  Zen.startsWithChar (value q) FILE_NAME_SEPARATOR = false.
Proof.
  destruct p as [s]. unfold getParentAfsPath, getItemNameAfs, appendAfsPath,
    Zen.beforeLast_orNone, Zen.afterLast_orAll. cbn [value].
  intros Hstart Hq.
  assert (Hq' : q = mkAfsPath match Zen.splitLast FILE_NAME_SEPARATOR s with
                              | Some (b, _) => b
                              | None => EmptyString
                              end).
  { destruct s; [discriminate|]. injection Hq as Hq. symmetry. exact Hq. }
  clear Hq. subst q. cbn [value].
  destruct (Zen.splitLast FILE_NAME_SEPARATOR s) as [[b t] |] eqn:Hsplit.
  - apply splitLast_spec in Hsplit.
    destruct b as [| x b'].
    + exfalso. rewrite Hsplit in Hstart. cbn in Hstart. discriminate.
    + split.
      * rewrite Hsplit. reflexivity.
      * rewrite Hsplit in Hstart. exact Hstart.
  - split; reflexivity.
Qed.

(* ===================================================================== *)
(** * Properties of the path status resolver *)
(* ===================================================================== *)

Section ResolverFacts.
Context {Dev : Type} {driver : AfsDriver Dev}.

Lemma deliver_throwTypeIfNamed (itemName : Zstring) (items : list (Zstring * ItemType)) :
  deliver (throwTypeIfNamed itemName FILE) (throwTypeIfNamed itemName FOLDER)
          (throwTypeIfNamed itemName SYMLINK) items tt
  = match firstNamed itemName items with
    | Some type => inr type
    | None => inl tt
    end.
Proof.
  induction items as [| [foundName type] rest IH]; [reflexivity|].
  cbn [deliver firstNamed]. destruct type; cbn [throwTypeIfNamed];
    destruct (equalFilePath foundName itemName); auto.
Qed.

(** The body asks [recurse] for the parent path only. *)
Lemma getPathStatusViaFolderTraversal_body_ext
    (f g : Afs -> AfsPath -> M Dev PathStatusImpl.t) this p (s : State Dev) :
  (forall q s', getParentAfsPath p = Some q -> f this q s' = g this q s') ->
  getPathStatusViaFolderTraversal_body f this p s
  = getPathStatusViaFolderTraversal_body g this p s.
Proof.
  intros Hfg. unfold getPathStatusViaFolderTraversal_body, try_catch.
  destruct ((type <- getItemType (mkAbstractPath this p) ;; ret (PathStatusImpl.mk type p [])) s)
    as [[ps | e | ] s1]; try reflexivity.
  destruct (getParentAfsPath p) as [q |]; [|reflexivity].
  unfold bind at 1 3. rewrite (Hfg q s1 eq_refl). reflexivity.
Qed.

Lemma getPathStatusViaFolderTraversal_rec_fuel (n : nat) :
  forall m this p (s : State Dev),
    (String.length (value p) < n)%nat -> (String.length (value p) < m)%nat ->
    getPathStatusViaFolderTraversal_rec n this p s
    = getPathStatusViaFolderTraversal_rec m this p s.
Proof.
  induction n as [| n IH]; intros m this p s Hn Hm; [lia|].
  destruct m as [| m]; [lia|].
  cbn [getPathStatusViaFolderTraversal_rec].
  apply getPathStatusViaFolderTraversal_body_ext.
  intros q s' Hq. apply getParentAfsPath_shorter in Hq. apply IH; lia.
Qed.

(** The function satisfies the equation the source defines it by: the fuel
    it starts with is never used up. *)
Lemma getPathStatusViaFolderTraversal_eq this p (s : State Dev) :
  getPathStatusViaFolderTraversal this p s
  = getPathStatusViaFolderTraversal_body getPathStatusViaFolderTraversal this p s.
Proof.
  unfold getPathStatusViaFolderTraversal at 1.
  cbn [getPathStatusViaFolderTraversal_rec].
  apply getPathStatusViaFolderTraversal_body_ext.
  intros q s' Hq. unfold getPathStatusViaFolderTraversal.
  apply getParentAfsPath_shorter in Hq.
  apply getPathStatusViaFolderTraversal_rec_fuel; lia.
Qed.

(** The item type can be queried. *)
Lemma getPathStatusViaFolderTraversal_direct this p (s : State Dev) type d1 :
  drvGetItemType (mkAbstractPath this p) (dev s) = (Ok type, d1) ->
  getPathStatusViaFolderTraversal this p s
  = (Ok (PathStatusImpl.mk type p []),
     mkState d1 (log s ++ [CallGetItemType (mkAbstractPath this p)])).
Proof.
  intros Hquery. rewrite getPathStatusViaFolderTraversal_eq.
  unfold getPathStatusViaFolderTraversal_body, try_catch, bind, getItemType, call.
  rewrite Hquery. reflexivity.
Qed.

(** The query fails and the parent is missing too, or is a plain file. *)
Lemma getPathStatusViaFolderTraversal_below_missing this p q (s : State Dev) e d1 ps s2 :
  getParentAfsPath p = Some q ->
  drvGetItemType (mkAbstractPath this p) (dev s) = (Throw e, d1) ->
  getPathStatusViaFolderTraversal this q
    (mkState d1 (log s ++ [CallGetItemType (mkAbstractPath this p)])) = (Ok ps, s2) ->
  PathStatusImpl.relPath ps <> [] \/ PathStatusImpl.existingType ps = FILE ->
  getPathStatusViaFolderTraversal this p s
  = (Ok (pushBackRelPath ps (getItemNameAfs p)), s2).
Proof.
  intros Hq Hquery Hparent Hmissing. rewrite getPathStatusViaFolderTraversal_eq.
  unfold getPathStatusViaFolderTraversal_body, try_catch.
  unfold bind at 1. unfold getItemType, call. rewrite Hquery, Hq.
  unfold bind at 1. rewrite Hparent.
  destruct Hmissing as [Hrel | Hfile].
  - destruct (PathStatusImpl.relPath ps); [contradiction | reflexivity].
  - rewrite Hfile. cbn [ItemType_eqb negb]. rewrite andb_false_r. reflexivity.
Qed.

(** The query fails, the parent exists and is not a plain file: its listing
    decides. *)
Lemma getPathStatusViaFolderTraversal_listing this p q (s : State Dev) e d1 ps s2 items err d3 :
  getParentAfsPath p = Some q ->
  drvGetItemType (mkAbstractPath this p) (dev s) = (Throw e, d1) ->
  getPathStatusViaFolderTraversal this q
    (mkState d1 (log s ++ [CallGetItemType (mkAbstractPath this p)])) = (Ok ps, s2) ->
  PathStatusImpl.relPath ps = [] ->
  PathStatusImpl.existingType ps <> FILE ->
  drvTraverseFolder (mkAbstractPath this q) (dev s2) = ((items, err), d3) ->
  getPathStatusViaFolderTraversal this p s
  = (match firstNamed (getItemNameAfs p) items with
     | Some type => Ok (PathStatusImpl.mk type p [])
     | None =>
         match err with
         | Some e' => Throw e'
         | None => Ok (PathStatusImpl.mk (PathStatusImpl.existingType ps)
                                         (PathStatusImpl.existingAfsPath ps)
                                         [getItemNameAfs p])
         end
     end,
     mkState d3 (log s2 ++ [CallTraverseFolder (mkAbstractPath this q) items])).
Proof.
  intros Hq Hquery Hparent Hrel Hnofile Hlist. rewrite getPathStatusViaFolderTraversal_eq.
  unfold getPathStatusViaFolderTraversal_body, try_catch.
  unfold bind at 1. unfold getItemType, call. rewrite Hquery, Hq.
  unfold bind at 1. rewrite Hparent. rewrite Hrel.
  assert (Hne : ItemType_eqb (PathStatusImpl.existingType ps) FILE = false)
    by (destruct (PathStatusImpl.existingType ps); [contradiction | reflexivity | reflexivity]).
  rewrite Hne. cbn [isEmpty negb andb].
  unfold bind, traverseFolderFlat. rewrite Hlist.
  rewrite deliver_throwTypeIfNamed.
  destruct (firstNamed (getItemNameAfs p) items) as [type |]; [reflexivity|].
  destruct err; [reflexivity|].
  unfold ret, pushBackRelPath. rewrite Hrel. reflexivity.
Qed.

(** The resolver only adds calls to the log, and every folder it lists has a
    shorter path than the path it resolves. *)
Lemma getPathStatusViaFolderTraversal_rec_log (n : nat) :
  forall this p (s s' : State Dev) r,
    getPathStatusViaFolderTraversal_rec n this p s = (r, s') ->
    exists calls,
      log s' = (log s ++ calls)%list /\
      Forall (fun ev => match ev with
                        | CallTraverseFolder listed _ =>
                            (String.length (value (afsPath listed)) < String.length (value p))%nat
                        | _ => True
                        end) calls.
Proof.
  induction n as [| n IH]; intros this p s s' r Hrun.
  - injection Hrun as _ Hs. subst s'. exists []. rewrite app_nil_r. split; constructor.
  - cbn [getPathStatusViaFolderTraversal_rec] in Hrun.
    unfold getPathStatusViaFolderTraversal_body, try_catch in Hrun.
    unfold bind at 1 in Hrun. unfold getItemType, call in Hrun.
    destruct (drvGetItemType (mkAbstractPath this p) (dev s)) as [[type | e | ] d1];
      cbn [dev log ret] in Hrun.
    + injection Hrun as _ Hs. subst s'. eexists. split; [reflexivity|].
      repeat constructor.
    + destruct (getParentAfsPath p) as [q |] eqn:Hq.
      * pose proof (getParentAfsPath_shorter _ _ Hq) as Hshort.
        unfold bind at 1 in Hrun.
        destruct (getPathStatusViaFolderTraversal_rec n this q
                    (mkState d1 (log s ++ [CallGetItemType (mkAbstractPath this p)])))
          as [[ps | e' | ] s2] eqn:Hparent;
          destruct (IH _ _ _ _ _ Hparent) as (calls & Hlog & Hcalls); cbn [log] in Hlog;
          assert (Hcalls' : Forall (fun ev => match ev with
                        | CallTraverseFolder listed _ =>
                            (String.length (value (afsPath listed)) < String.length (value p))%nat
                        | _ => True
                        end) (CallGetItemType (mkAbstractPath this p) :: calls))
            by (constructor; [exact I |];
                eapply Forall_impl; [| exact Hcalls]; intros [] Hev; try exact I; lia).
        -- destruct (isEmpty (PathStatusImpl.relPath ps) &&
                     negb (ItemType_eqb (PathStatusImpl.existingType ps) FILE)).
           ++ unfold bind, traverseFolderFlat in Hrun.
              destruct (drvTraverseFolder (mkAbstractPath this q) (dev s2)) as [[items err] d3].
              exists ((CallGetItemType (mkAbstractPath this p) :: calls)
                      ++ [CallTraverseFolder (mkAbstractPath this q) items])%list.
              split.
              ** assert (Hs : log s' = (log s2 ++ [CallTraverseFolder (mkAbstractPath this q) items])%list).
                 { destruct (deliver _ _ _ items tt) as [[] | type];
                     [destruct err|]; injection Hrun as _ Hs; subst s'; reflexivity. }
                 rewrite Hs, Hlog. rewrite <- !app_assoc. reflexivity.
              ** apply Forall_app. split; [exact Hcalls'|].
                 constructor; [cbn [afsPath]; exact Hshort | constructor].
           ++ injection Hrun as _ Hs. subst s'.
              exists (CallGetItemType (mkAbstractPath this p) :: calls).
              split; [rewrite Hlog, <- app_assoc; reflexivity | exact Hcalls'].
        -- injection Hrun as _ Hs. subst s'.
           exists (CallGetItemType (mkAbstractPath this p) :: calls).
           split; [rewrite Hlog, <- app_assoc; reflexivity | exact Hcalls'].
        -- injection Hrun as _ Hs. subst s'.
           exists (CallGetItemType (mkAbstractPath this p) :: calls).
           split; [rewrite Hlog, <- app_assoc; reflexivity | exact Hcalls'].
      * injection Hrun as _ Hs. subst s'. eexists. split; [reflexivity|].
        repeat constructor.
    + injection Hrun as _ Hs. subst s'. eexists. split; [reflexivity|].
      repeat constructor.
Qed.

End ResolverFacts.

Section ResolverClaims.
Context {Dev : Type} {driver : AfsDriver Dev}.

Lemma AbstractPath_eqb_length (a b : AbstractPath) :
  AbstractPath_eqb a b = true ->
  String.length (value (afsPath a)) = String.length (value (afsPath b)).
Proof.
  unfold AbstractPath_eqb, AfsPath_eqb. intros Heq.
  apply andb_true_iff in Heq. destruct Heq as [_ Heq].
  apply String.eqb_eq in Heq. now rewrite Heq.
Qed.

Lemma AbstractPath_eqb_refl (a : AbstractPath) : AbstractPath_eqb a a = true.
Proof.
  unfold AbstractPath_eqb, Afs_eqb, AfsPath_eqb.
  now rewrite Nat.eqb_refl, !String.eqb_refl.
Qed.

Lemma listingsOf_shorter (ap : AbstractPath) (calls : list Event) :
  Forall (fun ev => match ev with
                    | CallTraverseFolder listed _ =>
                        (String.length (value (afsPath listed))
                         < String.length (value (afsPath ap)))%nat
                    | _ => True
                    end) calls ->
  listingsOf ap calls = 0%nat.
Proof.
  unfold listingsOf. induction 1 as [| ev calls Hev _ IH]; [reflexivity|].
  cbn [filter]. destruct ev; cbn [isListingOf]; try exact IH.
  destruct (AbstractPath_eqb ap0 ap) eqn:Heq; [|exact IH].
  apply AbstractPath_eqb_length in Heq. lia.
Qed.

Lemma listingsOf_app (ap : AbstractPath) (l1 l2 : list Event) :
  listingsOf ap (l1 ++ l2) = (listingsOf ap l1 + listingsOf ap l2)%nat.
Proof. unfold listingsOf. now rewrite filter_app, length_app. Qed.

(** C3. On any driver [this]: (1) a path whose item type can be queried is
    returned as the existing path, with no missing component; (2) below an
    existing item [base] that is not a plain file and whose listing does not
    name [q], the path [p] two levels down resolves to [base] with the names
    of [q] and [p] missing, in this order, and the same holds below a plain
    file, which is not listed; (3) when the query of [p] fails and its parent
    [q] resolves as existing and not a plain file, the parent is listed
    exactly once, and the first listed item that [equalFilePath] matches with
    the name of [p] decides: its type is returned for [p], and only without
    a match is the name of [p] reported missing (or the listing's error
    thrown). *)
Theorem getPathStatusViaFolderTraversal_resolves (this : Afs) :
  (forall p (s : State Dev) type d1,
     drvGetItemType (mkAbstractPath this p) (dev s) = (Ok type, d1) ->
     getPathStatusViaFolderTraversal this p s
     = (Ok (PathStatusImpl.mk type p []),
        mkState d1 (log s ++ [CallGetItemType (mkAbstractPath this p)]))) /\
  (forall p q base (s : State Dev) e1 d1 e2 d2 type d3,
     getParentAfsPath p = Some q ->
     getParentAfsPath q = Some base ->
     drvGetItemType (mkAbstractPath this p) (dev s) = (Throw e1, d1) ->
     drvGetItemType (mkAbstractPath this q) d1 = (Throw e2, d2) ->
     drvGetItemType (mkAbstractPath this base) d2 = (Ok type, d3) ->
     (type = FILE \/
      exists items d4,
        drvTraverseFolder (mkAbstractPath this base) d3 = ((items, None), d4) /\
        firstNamed (getItemNameAfs q) items = None) ->
     fst (getPathStatusViaFolderTraversal this p s)
     = Ok (PathStatusImpl.mk type base [getItemNameAfs q; getItemNameAfs p])) /\
  (forall p q (s : State Dev) e d1 ps s2 items err d3,
     getParentAfsPath p = Some q ->
     drvGetItemType (mkAbstractPath this p) (dev s) = (Throw e, d1) ->
     getPathStatusViaFolderTraversal this q
       (mkState d1 (log s ++ [CallGetItemType (mkAbstractPath this p)])) = (Ok ps, s2) ->
     PathStatusImpl.relPath ps = [] ->
     PathStatusImpl.existingType ps <> FILE ->
     drvTraverseFolder (mkAbstractPath this q) (dev s2) = ((items, err), d3) ->
     exists calls,
       getPathStatusViaFolderTraversal this p s
       = (match firstNamed (getItemNameAfs p) items with
          | Some type => Ok (PathStatusImpl.mk type p [])
          | None =>
              match err with
              | Some e' => Throw e'
              | None => Ok (PathStatusImpl.mk (PathStatusImpl.existingType ps)
                                              (PathStatusImpl.existingAfsPath ps)
                                              [getItemNameAfs p])
              end
          end,
          mkState d3 (log s ++ calls)) /\
       listingsOf (mkAbstractPath this q) calls = 1%nat).
Proof.
  split; [|split].
  - intros p s type d1. apply getPathStatusViaFolderTraversal_direct.
  - intros p q base s e1 d1 e2 d2 type d3 Hq Hbase Hp Hqq Hb Hlist.
    set (s1 := mkState d1 (log s ++ [CallGetItemType (mkAbstractPath this p)])).
    set (s2 := mkState d2 (log s1 ++ [CallGetItemType (mkAbstractPath this q)])).
    pose proof (getPathStatusViaFolderTraversal_direct this base s2 type d3 Hb) as Hbase_run.
    assert (Hq_run : exists s4,
               getPathStatusViaFolderTraversal this q s1
               = (Ok (PathStatusImpl.mk type base [getItemNameAfs q]), s4)).
    { destruct Hlist as [Hfile | (items & d4 & Htraverse & Hnone)].
      - eexists.
        rewrite (getPathStatusViaFolderTraversal_below_missing this q base s1 e2 d2 _ _
                   Hbase Hqq Hbase_run); [reflexivity|].
        right. exact Hfile.
      - destruct (ItemType_eqb type FILE) eqn:Htype.
        + eexists.
          rewrite (getPathStatusViaFolderTraversal_below_missing this q base s1 e2 d2 _ _
                     Hbase Hqq Hbase_run); [reflexivity|].
          right. destruct type; (reflexivity || discriminate).
        + eexists.
          rewrite (getPathStatusViaFolderTraversal_listing this q base s1 e2 d2 _ _ items None d4
                     Hbase Hqq Hbase_run eq_refl); cbn [PathStatusImpl.existingType dev].
          * rewrite Hnone. reflexivity.
          * intros Hfile. rewrite Hfile in Htype. discriminate.
          * exact Htraverse. }
    destruct Hq_run as (s4 & Hq_run).
    rewrite (getPathStatusViaFolderTraversal_below_missing this p q s e1 d1 _ _ Hq Hp Hq_run).
    + reflexivity.
    + left. discriminate.
  - intros p q s e d1 ps s2 items err d3 Hq Hp Hq_run Hrel Hnofile Htraverse.
    pose proof Hq_run as Hlog.
    apply getPathStatusViaFolderTraversal_rec_log in Hlog.
    destruct Hlog as (calls & Hlog & Hcalls). cbn [log] in Hlog.
    exists ([CallGetItemType (mkAbstractPath this p)] ++ calls
            ++ [CallTraverseFolder (mkAbstractPath this q) items])%list.
    split.
    + rewrite (getPathStatusViaFolderTraversal_listing this p q s e d1 ps s2 items err d3
                 Hq Hp Hq_run Hrel Hnofile Htraverse).
      rewrite Hlog. rewrite <- !app_assoc. reflexivity.
    + rewrite !listingsOf_app.
      rewrite (listingsOf_shorter (mkAbstractPath this q) calls Hcalls).
      unfold listingsOf. cbn [filter isListingOf].
      rewrite AbstractPath_eqb_refl. reflexivity.
Qed.

End ResolverClaims.

Section ResolverOnSample.
#[local] Existing Instance MemFs.driver.

(** On the sample disk: [base/dir] exists; [base/x/y] lies two levels below
    the missing [base/x]; [base/nope] is looked for in one listing of [base]. *)
Lemma getPathStatusViaFolderTraversal_resolves_witness :
  let resolve path := getPathStatusViaFolderTraversal Sample.disk (mkAfsPath path) Sample.initial in
  fst (resolve "base/dir") = Ok (PathStatusImpl.mk FOLDER (mkAfsPath "base/dir") []) /\
  fst (resolve "base/x/y") = Ok (PathStatusImpl.mk FOLDER (mkAfsPath "base") ["x"; "y"]) /\
  exists calls,
    resolve "base/nope"
    = (Ok (PathStatusImpl.mk FOLDER (mkAfsPath "base") ["nope"]),
       mkState Sample.device calls) /\
    listingsOf (Sample.at_ Sample.disk "base") calls = 1%nat.
Proof.
  intros resolve.
  destruct (getPathStatusViaFolderTraversal_resolves (Dev := MemFs.Device) Sample.disk)
    as (Hdirect & Hbelow & Hlisting).
  split; [|split].
  - unfold resolve.
    rewrite (Hdirect (mkAfsPath "base/dir") Sample.initial FOLDER Sample.device eq_refl).
    reflexivity.
  - apply (Hbelow (mkAfsPath "base/x/y") (mkAfsPath "base/x") (mkAfsPath "base") Sample.initial
             MemFs.notFound Sample.device MemFs.notFound Sample.device FOLDER Sample.device
             eq_refl eq_refl eq_refl eq_refl eq_refl).
    right. exists [("dir", FOLDER)], Sample.device. split; reflexivity.
  - destruct (Hlisting (mkAfsPath "base/nope") (mkAfsPath "base") Sample.initial
                MemFs.notFound Sample.device
                (PathStatusImpl.mk FOLDER (mkAfsPath "base") [])
                (mkState Sample.device
                   [CallGetItemType (Sample.at_ Sample.disk "base/nope");
                    CallGetItemType (Sample.at_ Sample.disk "base")])
                [("dir", FOLDER)] None Sample.device
                eq_refl eq_refl eq_refl eq_refl ltac:(discriminate) eq_refl)
      as (calls & Hrun & Hcount).
    exists calls. split; [exact Hrun | exact Hcount].
Defined.

End ResolverOnSample.

(* ===================================================================== *)
(** * Properties of removal *)
(* ===================================================================== *)

Section RemovalClaims.
Context {Dev : Type} {backend : AfsBackend Dev}.

Lemma recheckAfterFailure_gone {A} ap (gone : A) e (s s2 : State Dev) :
  getItemTypeIfExists ap s = (Ok None, s2) ->
  recheckAfterFailure ap gone e s = (Ok gone, s2).
Proof.
  intros Hcheck. unfold recheckAfterFailure, bind at 1, try_catch, bind at 1.
  rewrite Hcheck. reflexivity.
Qed.

Lemma recheckAfterFailure_exists {A} ap (gone : A) e type (s s2 : State Dev) :
  getItemTypeIfExists ap s = (Ok (Some type), s2) ->
  recheckAfterFailure ap gone e s = (Throw e, s2).
Proof.
  intros Hcheck. unfold recheckAfterFailure, bind at 1, try_catch, bind at 1.
  rewrite Hcheck. reflexivity.
Qed.

Lemma recheckAfterFailure_fails {A} ap (gone : A) e e2 (s s2 : State Dev) :
  getItemTypeIfExists ap s = (Throw e2, s2) ->
  recheckAfterFailure ap gone e s = (Throw (ErrorPair e e2), s2).
Proof.
  intros Hcheck. unfold recheckAfterFailure, bind at 1, try_catch, bind at 1.
  rewrite Hcheck. reflexivity.
Qed.

Lemma try_call_ok {A} ev (op : Dev -> Outcome unit * Dev) (v : A) handler (s : State Dev) d1 :
  op (dev s) = (Ok tt, d1) ->
  try_catch (call ev op ;;; ret v) handler s = (Ok v, mkState d1 (log s ++ [ev])).
Proof. intros Hop. unfold try_catch, bind, call, ret. rewrite Hop. reflexivity. Qed.

Lemma try_call_throw {A} ev (op : Dev -> Outcome unit * Dev) (v : A) handler (s : State Dev) e d1 :
  op (dev s) = (Throw e, d1) ->
  try_catch (call ev op ;;; ret v) handler s = handler e (mkState d1 (log s ++ [ev])).
Proof. intros Hop. unfold try_catch, bind, call, ret. rewrite Hop. reflexivity. Qed.

Lemma try_call_unit_ok ev (op : Dev -> Outcome unit * Dev) handler (s : State Dev) d1 :
  op (dev s) = (Ok tt, d1) ->
  try_catch (call ev op) handler s = (Ok tt, mkState d1 (log s ++ [ev])).
Proof. intros Hop. unfold try_catch, call. rewrite Hop. reflexivity. Qed.

Lemma try_call_unit_throw ev (op : Dev -> Outcome unit * Dev) handler (s : State Dev) e d1 :
  op (dev s) = (Throw e, d1) ->
  try_catch (call ev op) handler s = handler e (mkState d1 (log s ++ [ev])).
Proof. intros Hop. unfold try_catch, call. rewrite Hop. reflexivity. Qed.

(** C10. [removeFileIfExists], [removeSymlinkIfExists] and
    [removeEmptyFolderIfExists]: when the plain removal succeeds the function
    returns ([true], where it returns a value); when it throws, the existence
    of the item is checked again: the function returns without an error
    ([false]) if the item does not exist, rethrows the error of the removal
    if the item exists, and throws an error made of both if the check itself
    throws. *)
Theorem removeIfExists_rechecks_existence :
  recheckedRemoval drvRemoveFilePlain CallRemoveFilePlain removeFileIfExists true false /\
  recheckedRemoval drvRemoveSymlinkPlain CallRemoveSymlinkPlain removeSymlinkIfExists true false /\
  recheckedRemoval drvRemoveFolderPlain CallRemoveFolderPlain removeEmptyFolderIfExists tt tt.
Proof.
  unfold recheckedRemoval.
  split; [|split]; intros ap s d1; cbv zeta; (split; [intros Hplain | intros e Hplain]).
  - apply try_call_ok. exact Hplain.
  - unfold removeFileIfExists, removeFilePlain.
    rewrite (try_call_throw _ _ _ _ _ _ _ Hplain).
    split; [|split]; intros; [eapply recheckAfterFailure_gone | eapply recheckAfterFailure_exists
                              | eapply recheckAfterFailure_fails]; eassumption.
  - apply try_call_ok. exact Hplain.
  - unfold removeSymlinkIfExists, removeSymlinkPlain.
    rewrite (try_call_throw _ _ _ _ _ _ _ Hplain).
    split; [|split]; intros; [eapply recheckAfterFailure_gone | eapply recheckAfterFailure_exists
                              | eapply recheckAfterFailure_fails]; eassumption.
  - apply try_call_unit_ok. exact Hplain.
  - unfold removeEmptyFolderIfExists, removeFolderPlain.
    rewrite (try_call_unit_throw _ _ _ _ _ _ Hplain).
    split; [|split]; intros; [eapply recheckAfterFailure_gone | eapply recheckAfterFailure_exists
                              | eapply recheckAfterFailure_fails]; eassumption.
Qed.

(** C9. When the path does not exist ([getItemTypeIfExists] answers that
    there is no item), [removeFolderIfExistsRecursion] does nothing after
    that check but call the folder observer, once, if there is one: with the
    recording observer the log grows by that one notification and by no
    removal call, and the function returns without an error; without an
    observer nothing is logged. *)
Theorem removeFolderIfExistsRecursion_missing_path
    (fuel : nat) (ap : AbstractPath) (onBeforeFileDeletion onBeforeFolderDeletion : Observer)
    (s s1 : State Dev) :
  getItemTypeIfExists ap s = (Ok None, s1) ->
  removeFolderIfExistsRecursion fuel ap onBeforeFileDeletion onBeforeFolderDeletion s
  = notify onBeforeFolderDeletion (getDisplayPath ap) s1 /\
  removeFolderIfExistsRecursion fuel ap onBeforeFileDeletion recordFolderDeletion s
  = (Ok tt, mkState (dev s1) (log s1 ++ [NotifyBeforeFolderDeletion (getDisplayPath ap)])) /\
  removeFolderIfExistsRecursion fuel ap onBeforeFileDeletion None s = (Ok tt, s1).
Proof.
  intros Hcheck.
  unfold removeFolderIfExistsRecursion, bind. rewrite Hcheck.
  split; [reflexivity|]. split; reflexivity.
Qed.

End RemovalClaims.

Section RemovalOnSample.
#[local] Existing Instance MemFs.backend.

(** On the sample disk: [base/dir/f.txt] is removed; [base/none] is not
    there, whatever is to be removed; [base/dir] is there and not a file. *)
Lemma removeIfExists_rechecks_existence_witness :
  fst (removeFileIfExists (Sample.at_ Sample.disk "base/dir/f.txt") Sample.initial) = Ok true /\
  fst (removeFileIfExists (Sample.at_ Sample.disk "base/none") Sample.initial) = Ok false /\
  fst (removeSymlinkIfExists (Sample.at_ Sample.disk "base/none") Sample.initial) = Ok false /\
  fst (removeEmptyFolderIfExists (Sample.at_ Sample.disk "base/none") Sample.initial) = Ok tt /\
  fst (removeFileIfExists (Sample.at_ Sample.disk "base/dir") Sample.initial)
    = Throw MemFs.wrongType.
Proof.
  destruct (removeIfExists_rechecks_existence (Dev := MemFs.Device))
    as (Hfile & Hsymlink & Hfolder).
  split; [|split; [|split; [|split]]].
  - rewrite (proj1 (Hfile (Sample.at_ Sample.disk "base/dir/f.txt") Sample.initial _) eq_refl).
    reflexivity.
  - erewrite (proj1 (proj2 (Hfile (Sample.at_ Sample.disk "base/none") Sample.initial _)
                      MemFs.notFound eq_refl)); reflexivity.
  - erewrite (proj1 (proj2 (Hsymlink (Sample.at_ Sample.disk "base/none") Sample.initial _)
                      MemFs.notFound eq_refl)); reflexivity.
  - erewrite (proj1 (proj2 (Hfolder (Sample.at_ Sample.disk "base/none") Sample.initial _)
                      MemFs.notFound eq_refl)); reflexivity.
  - erewrite (proj1 (proj2 (proj2 (Hfile (Sample.at_ Sample.disk "base/dir") Sample.initial _)
                      MemFs.wrongType eq_refl))); reflexivity.
Defined.

(** On the sample disk [base/none] does not exist: nothing is removed and
    the folder observer is told once. *)
Lemma removeFolderIfExistsRecursion_missing_path_witness :
  removeFolderIfExistsRecursion 0 (Sample.at_ Sample.disk "base/none")
    recordFileDeletion recordFolderDeletion Sample.initial
  = (Ok tt,
     mkState Sample.device
       [ CallGetItemType (Sample.at_ Sample.disk "base/none");
         CallGetItemType (Sample.at_ Sample.disk "base");
         CallTraverseFolder (Sample.at_ Sample.disk "base") [("dir", FOLDER)];
         NotifyBeforeFolderDeletion "disk/base/none" ]).
Proof.
  refine (eq_trans
            (proj1 (proj2 (removeFolderIfExistsRecursion_missing_path 0
                             (Sample.at_ Sample.disk "base/none")
                             recordFileDeletion recordFolderDeletion Sample.initial _ _))) _).
  - reflexivity.
  - reflexivity.
Defined.

End RemovalOnSample.

(* ===================================================================== *)
(** * The order of a recursive removal *)
(* ===================================================================== *)

Section RemovalOrder.
Context {Dev : Type} {backend : AfsBackend Dev}.

Lemma logsWithin_impl (P Q : list Event -> Prop) (m : M Dev unit) :
  (forall l, P l -> Q l) -> logsWithin P m -> logsWithin Q m.
Proof.
  intros HPQ Hm s s' r Hrun.
  destruct (Hm s s' r Hrun) as (calls & rest & Hlog & HP & Hok).
  exists calls, rest. auto.
Qed.

Lemma logsWithin_ret : logsWithin (Dev := Dev) (eq []) (ret tt).
Proof.
  intros s s' r Hrun. injection Hrun as Hr Hs. subst r s'.
  exists [], []. rewrite app_nil_r. auto.
Qed.

Lemma logsWithin_emit (ev : Event) : logsWithin (Dev := Dev) (eq [ev]) (emit ev).
Proof.
  intros s s' r Hrun. injection Hrun as Hr Hs. subst r s'.
  exists [ev], []. auto.
Qed.

Lemma logsWithin_call (ev : Event) (op : Dev -> Outcome unit * Dev) :
  logsWithin (eq [ev]) (call ev op).
Proof.
  intros s s' r Hrun. unfold call in Hrun.
  destruct (op (dev s)) as [r' d]. injection Hrun as Hr Hs. subst r s'.
  exists [ev], []. auto.
Qed.

Lemma logsWithin_seq (P1 P2 : list Event -> Prop) (m1 m2 : M Dev unit) :
  logsWithin P1 m1 -> logsWithin P2 m2 -> (exists l, P2 l) ->
  logsWithin (fun l => exists l1 l2, l = (l1 ++ l2)%list /\ P1 l1 /\ P2 l2) (m1 ;;; m2).
Proof.
  intros H1 H2 [l2 Hl2] s s' r Hrun. unfold bind in Hrun.
  destruct (m1 s) as [[[] | e | ] s1] eqn:Hm1;
    destruct (H1 _ _ _ Hm1) as (calls1 & rest1 & Hlog1 & HP1 & Hok1).
  - rewrite (Hok1 eq_refl), app_nil_r in HP1.
    destruct (H2 _ _ _ Hrun) as (calls2 & rest2 & Hlog2 & HP2 & Hok2).
    exists (calls1 ++ calls2)%list, rest2. split; [|split].
    + rewrite Hlog2, Hlog1, app_assoc. reflexivity.
    + exists calls1, (calls2 ++ rest2)%list. rewrite app_assoc. auto.
    + exact Hok2.
  - injection Hrun as Hr Hs. subst r s'.
    exists calls1, (rest1 ++ l2)%list. split; [exact Hlog1 | split].
    + exists (calls1 ++ rest1)%list, l2. rewrite app_assoc. auto.
    + discriminate.
  - injection Hrun as Hr Hs. subst r s'.
    exists calls1, (rest1 ++ l2)%list. split; [exact Hlog1 | split].
    + exists (calls1 ++ rest1)%list, l2. rewrite app_assoc. auto.
    + discriminate.
Qed.

Lemma logsWithin_seq_eq (l1 l2 : list Event) (m1 m2 : M Dev unit) :
  logsWithin (eq l1) m1 -> logsWithin (eq l2) m2 ->
  logsWithin (eq (l1 ++ l2)%list) (m1 ;;; m2).
Proof.
  intros H1 H2. eapply logsWithin_impl; [| apply (logsWithin_seq _ _ _ _ H1 H2); eauto].
  intros l (a & b & Hl & Ha & Hb). subst. reflexivity.
Qed.

Lemma logsWithin_notify (set : bool) (ev : wstring -> Event) (displayPath : wstring) :
  logsWithin (Dev := Dev) (eq (if set then [ev displayPath] else []))
             (notify (observerIf set (Some (fun p => emit (ev p)))) displayPath).
Proof.
  destruct set; cbn [observerIf notify]; [apply logsWithin_emit | apply logsWithin_ret].
Qed.

Lemma logsWithin_forEach_eq {A} (expected : A -> list Event) (body : A -> M Dev unit) (l : list A) :
  (forall x, logsWithin (eq (expected x)) (body x)) ->
  logsWithin (eq (flat_map expected l)) (forEach l body).
Proof.
  intros Hbody. induction l as [| x l IH]; cbn [forEach flat_map].
  - apply logsWithin_ret.
  - apply logsWithin_seq_eq; [apply Hbody | exact IH].
Qed.

Lemma Forall2_some {A B} (Q : A -> B -> Prop) (l : list A) :
  (forall x, exists y, Q x y) -> exists ys, Forall2 Q l ys.
Proof.
  intros Hsome. induction l as [| x l [ys Hys]].
  - exists []. constructor.
  - destruct (Hsome x) as [y Hy]. exists (y :: ys). constructor; assumption.
Qed.

Lemma logsWithin_forEach_each {A} (Q : A -> list Event -> Prop) (body : A -> M Dev unit)
    (l : list A) :
  (forall x, logsWithin (Q x) (body x)) ->
  (forall x, exists calls, Q x calls) ->
  logsWithin (fun calls => exists each, Forall2 Q l each /\ calls = List.concat each)
             (forEach l body).
Proof.
  intros Hbody Hsome. induction l as [| x l IH]; cbn [forEach].
  - eapply logsWithin_impl; [| apply logsWithin_ret].
    intros calls Hcalls. subst calls. exists []. split; [constructor | reflexivity].
  - eapply logsWithin_impl; [| apply (logsWithin_seq _ _ _ _ (Hbody x) IH)].
    + intros calls (l1 & l2 & Hcalls & Hl1 & each & Heach & Hl2). subst calls l2.
      exists (l1 :: each). split; [constructor; assumption | reflexivity].
    + destruct (Forall2_some Q l Hsome) as [each Heach].
      exists (List.concat each), each. auto.
Qed.

Lemma deliver_pushNames (items : list (Zstring * ItemType)) :
  forall fileNames folderNames symlinkNames,
    deliver pushFileName pushFolderName pushSymlinkName items
            (fileNames, folderNames, symlinkNames)
    = inl ((fileNames ++ namesOfType FILE items)%list,
           (folderNames ++ namesOfType FOLDER items)%list,
           (symlinkNames ++ namesOfType SYMLINK items)%list).
Proof.
  unfold namesOfType.
  induction items as [| [itemName type] items IH]; intros fileNames folderNames symlinkNames.
  - cbn. rewrite !app_nil_r. reflexivity.
  - destruct type; cbn [deliver pushFileName pushFolderName pushSymlinkName];
      rewrite IH; cbn [filter snd ItemType_eqb map fst];
      rewrite <- ?app_assoc; reflexivity.
Qed.

(** The removal of a folder that lists nothing. *)
Lemma FolderRemoval_empty (notifyFile notifyFolder : bool) (folderPath : AbstractPath) :
  FolderRemoval notifyFile notifyFolder folderPath
    (CallTraverseFolder folderPath [] :: folderRemoval notifyFolder folderPath).
Proof.
  exact (FolderRemoval_intro notifyFile notifyFolder folderPath [] [] (Forall2_nil _)).
Qed.

Lemma logsWithin_removals (notifyFile : bool) (remove : AbstractPath -> Event)
    (op : AbstractPath -> Dev -> Outcome unit * Dev) (folderPath : AbstractPath)
    (names : list Zstring) :
  logsWithin (eq (removals notifyFile remove folderPath names))
    (forEach names (fun name =>
       notify (observerIf notifyFile recordFileDeletion)
              (getDisplayPath (appendRelPath folderPath name)) ;;;
       call (remove (appendRelPath folderPath name)) (op (appendRelPath folderPath name)))).
Proof.
  unfold removals. apply logsWithin_forEach_eq. intros name.
  apply logsWithin_seq_eq; [apply logsWithin_notify | apply logsWithin_call].
Qed.

(** Whatever [removeFolderRecursionImpl] has called when it ends, by return,
    by exception or for lack of fuel, is an initial part of a complete
    removal of the folder, and all of it when it returns. *)
Lemma removeFolderRecursionImpl_logs (notifyFile notifyFolder : bool) (fuel : nat) :
  forall folderPath,
    logsWithin (FolderRemoval notifyFile notifyFolder folderPath)
      (removeFolderRecursionImpl fuel
         (observerIf notifyFile recordFileDeletion)
         (observerIf notifyFolder recordFolderDeletion) folderPath).
Proof.
  induction fuel as [| fuel IH]; intros folderPath.
  - intros s s' r Hrun. injection Hrun as Hr Hs. subst r s'.
    exists [], (CallTraverseFolder folderPath [] :: folderRemoval notifyFolder folderPath).
    rewrite app_nil_r. split; [reflexivity | split].
    + apply FolderRemoval_empty.
    + discriminate.
  - assert (Hrest : forall items,
      logsWithin
        (fun calls => FolderRemoval notifyFile notifyFolder folderPath
                        (CallTraverseFolder folderPath items :: calls))
        (forEach (namesOfType FILE items) (fun fileName =>
           notify (observerIf notifyFile recordFileDeletion)
                  (getDisplayPath (appendRelPath folderPath fileName)) ;;;
           removeFilePlain (appendRelPath folderPath fileName)) ;;;
         forEach (namesOfType SYMLINK items) (fun symlinkName =>
           notify (observerIf notifyFile recordFileDeletion)
                  (getDisplayPath (appendRelPath folderPath symlinkName)) ;;;
           removeSymlinkPlain (appendRelPath folderPath symlinkName)) ;;;
         forEach (namesOfType FOLDER items) (fun folderName =>
           removeFolderRecursionImpl fuel
             (observerIf notifyFile recordFileDeletion)
             (observerIf notifyFolder recordFolderDeletion)
             (appendRelPath folderPath folderName)) ;;;
         notify (observerIf notifyFolder recordFolderDeletion) (getDisplayPath folderPath) ;;;
         removeFolderPlain folderPath)).
    { intros items.
      assert (Hfolders :
        logsWithin (fun calls => exists each,
                      Forall2 (fun folderName sub =>
                                 FolderRemoval notifyFile notifyFolder
                                   (appendRelPath folderPath folderName) sub)
                              (namesOfType FOLDER items) each /\
                      calls = List.concat each)
          (forEach (namesOfType FOLDER items) (fun folderName =>
             removeFolderRecursionImpl fuel
               (observerIf notifyFile recordFileDeletion)
               (observerIf notifyFolder recordFolderDeletion)
               (appendRelPath folderPath folderName)))).
      { apply logsWithin_forEach_each.
        - intros folderName. apply IH.
        - intros folderName. eexists. apply FolderRemoval_empty. }
      assert (Hlast : logsWithin (eq (folderRemoval notifyFolder folderPath))
                (notify (observerIf notifyFolder recordFolderDeletion) (getDisplayPath folderPath) ;;;
                 removeFolderPlain folderPath)).
      { apply logsWithin_seq_eq; [apply logsWithin_notify | apply logsWithin_call]. }
      pose proof (logsWithin_seq _ _ _ _ Hfolders Hlast (ex_intro _ _ eq_refl)) as Htail.
      pose proof (logsWithin_seq _ _ _ _
                    (logsWithin_removals notifyFile CallRemoveSymlinkPlain drvRemoveSymlinkPlain
                       folderPath (namesOfType SYMLINK items))
                    Htail) as Hsym.
      assert (Hsome : exists l (l1 l2 : list Event),
                 l = (l1 ++ l2)%list /\
                 (exists each,
                    Forall2 (fun folderName sub =>
                               FolderRemoval notifyFile notifyFolder
                                 (appendRelPath folderPath folderName) sub)
                            (namesOfType FOLDER items) each /\
                    l1 = List.concat each) /\
                 folderRemoval notifyFolder folderPath = l2).
      { destruct (Forall2_some
                    (fun folderName sub =>
                       FolderRemoval notifyFile notifyFolder
                         (appendRelPath folderPath folderName) sub)
                    (namesOfType FOLDER items)) as [each Heach].
        - intros folderName. eexists. apply FolderRemoval_empty.
        - exists (List.concat each ++ folderRemoval notifyFolder folderPath)%list,
                 (List.concat each), (folderRemoval notifyFolder folderPath).
          split; [reflexivity | split; [| reflexivity]].
          exists each. auto. }
      specialize (Hsym Hsome).
      pose proof (logsWithin_seq _ _ _ _
                    (logsWithin_removals notifyFile CallRemoveFilePlain drvRemoveFilePlain
                       folderPath (namesOfType FILE items))
                    Hsym) as Hall.
      eapply logsWithin_impl; [| apply Hall].
      - intros l (lf & l1 & Hl & Hlf & ls & l2 & Hl1 & Hls & lsub & llast & Hl2 &
                  (each & Heach & Hlsub) & Hllast).
        subst l lf l1 ls l2 lsub llast.
        exact (FolderRemoval_intro notifyFile notifyFolder folderPath items each Heach).
      - destruct Hsome as (l & Hl).
        eexists. exists (removals notifyFile CallRemoveSymlinkPlain folderPath
                           (namesOfType SYMLINK items)), l.
        split; [reflexivity | split; [reflexivity | exact Hl]]. }
    intros s s' r Hrun.
    cbn [removeFolderRecursionImpl] in Hrun.
    unfold bind at 1 in Hrun. unfold traverseFolderFlat in Hrun.
    destruct (drvTraverseFolder folderPath (dev s)) as [[items err] d].
    rewrite deliver_pushNames in Hrun. cbn [app] in Hrun.
    destruct err as [e |].
    + injection Hrun as Hr Hs. subst r s'.
      destruct (Hrest items (mkState d []) _ _ (surjective_pairing _))
        as (calls & rest & _ & Hfull & _).
      exists [CallTraverseFolder folderPath items], (calls ++ rest)%list.
      split; [reflexivity | split; [exact Hfull | discriminate]].
    + destruct (Hrest items _ _ _ Hrun) as (calls & rest & Hlog & Hfull & Hok).
      exists (CallTraverseFolder folderPath items :: calls), rest.
      split; [| split; [exact Hfull | exact Hok]].
      rewrite Hlog. cbn [log]. rewrite <- app_assoc. reflexivity.
Qed.

End RemovalOrder.


(* ===================================================================== *)
(** * Properties of the transactional copy *)
(* ===================================================================== *)

Section TransactionalCopyFacts.
Context {Dev : Type} {driver : AfsDriver Dev}.

(** The scope guard is set up after [copyFilePlain] has returned: when the
    copy throws, [copyFileTransactional] calls nothing more, neither for the
    temporary file nor for the target. *)
Lemma copyFileTransactional_copy_throws
    apSource attrSource apTarget copyFilePermissions onDeleteTargetFile crc16
    (s s1 : State Dev) parentPath e :
  getParentFolderPath apTarget = Some parentPath ->
  copyFilePlain apSource attrSource copyFilePermissions
    (appendRelPath parentPath (tempFileName (getItemName apTarget) crc16)) s = (Throw e, s1) ->
  copyFileTransactional apSource attrSource apTarget copyFilePermissions true
    onDeleteTargetFile crc16 s = (Throw e, s1).
Proof.
  intros Hparent Hcopy. unfold copyFileTransactional. rewrite Hparent.
  unfold bind at 1. rewrite Hcopy. reflexivity.
Qed.

(** When the copy is done and the rename throws, the guard removes the
    temporary file and swallows what the removal throws. *)
Lemma copyFileTransactional_rename_throws
    apSource attrSource apTarget copyFilePermissions onDeleteTargetFile crc16
    (s s1 s2 : State Dev) parentPath result e d3 :
  let apTargetTmp := appendRelPath parentPath (tempFileName (getItemName apTarget) crc16) in
  getParentFolderPath apTarget = Some parentPath ->
  copyFilePlain apSource attrSource copyFilePermissions apTargetTmp s = (Ok result, s1) ->
  invoke onDeleteTargetFile s1 = (Ok tt, s2) ->
  drvMoveAndRenameItem apTargetTmp apTarget (dev s2) = (Throw e, d3) ->
  fst (drvRemoveFilePlain apTargetTmp d3) <> Diverge ->
  copyFileTransactional apSource attrSource apTarget copyFilePermissions true
    onDeleteTargetFile crc16 s
  = (Throw e,
     mkState (snd (drvRemoveFilePlain apTargetTmp d3))
             (log s2 ++ [CallMoveAndRenameItem apTargetTmp apTarget;
                         CallRemoveFilePlain apTargetTmp])).
Proof.
  intros apTargetTmp Hparent Hcopy Hdelete Hrename Hremove.
  unfold copyFileTransactional. rewrite Hparent. fold apTargetTmp.
  unfold bind at 1. rewrite Hcopy.
  unfold on_scope_fail. unfold bind at 1. rewrite Hdelete.
  unfold bind at 1. unfold moveAndRenameItem, call at 1. rewrite Hrename.
  unfold try_catch, removeFilePlain, call, ret. cbn [dev log].
  destruct (drvRemoveFilePlain apTargetTmp d3) as [[[] | e' | ] d4]; cbn [fst snd] in *;
    try contradiction; rewrite <- app_assoc; reflexivity.
Qed.

Lemma getParentFolderPath_afs (ap parentPath : AbstractPath) :
  getParentFolderPath ap = Some parentPath -> afs parentPath = afs ap.
Proof.
  unfold getParentFolderPath. destruct (getParentAfsPath (afsPath ap)); [|discriminate].
  intros Hparent. injection Hparent as Hparent. subst parentPath. reflexivity.
Qed.

(** A transactional copy between drivers of different types whose streams
    are done, the temporary file finalized, and whose byte counter is not
    what is expected: the error is thrown, and after [finalize] nothing is
    called but the destructors of the two streams. No call removes the
    temporary file. *)
Lemma copyFileTransactional_mismatch_after_finalize
    apSource attrSource apTarget onDeleteTargetFile crc16 (s : State Dev) parentPath
    streamIn streamOut attrSourceNew targetFileId total d' :
  let apTargetTmp := appendRelPath parentPath (tempFileName (getItemName apTarget) crc16) in
  let size := StreamAttributes.fileSize attrSourceNew in
  getParentFolderPath apTarget = Some parentPath ->
  sameAfsType (afs apSource) (afs apTarget) = false ->
  streamsCopied apSource attrSource apTargetTmp (dev s)
                streamIn streamOut attrSourceNew targetFileId total d' ->
  total <> int64 (2 * makeSigned size) ->
  copyFileTransactional apSource attrSource apTarget false true onDeleteTargetFile crc16 s
  = (Throw (UnexpectedStreamSize (afsPath apSource) ((2 * size) mod 2 ^ 64) total),
     closeInputStream streamIn
       (closeOutputStream streamOut
          (mkState d' (log s ++ streamCalls apSource apTargetTmp streamIn streamOut size)))).
Proof.
  intros apTargetTmp size Hparent Htypes Hstreams Hcount.
  apply (copyFileTransactional_copy_throws _ _ _ _ _ _ _ _ parentPath _ Hparent).
  fold apTargetTmp. unfold copyFilePlain.
  replace (afs apTargetTmp) with (afs apTarget)
    by (symmetry; apply (getParentFolderPath_afs _ _ Hparent)).
  rewrite Htypes.
  rewrite (copyFileAsStream_after_streams _ _ _ _ _ _ _ _ _ _ Hstreams). fold size.
  destruct (Z.eqb_spec total (int64 (2 * makeSigned size))) as [Heq | _];
    [contradiction | reflexivity].
Qed.

End TransactionalCopyFacts.

Section TransactionalCopyOnSample.
#[local] Existing Instance MemFs.driver.

(** C1, on the code: a transactional copy of [rec.wav] from the phone, whose
    stream does not report what it reads, to [base/copy.txt] on the disk. The
    stream copy writes and finalizes the temporary file, then throws for the
    byte count; nothing removes the temporary file, which stays with its
    1005 bytes. The target path is not created. *)
Lemma copyFileTransactional_leaves_temporary_file :
  let source := Sample.at_ Sample.phone "rec.wav" in
  let target := Sample.at_ Sample.disk "base/copy.txt" in
  let temporary := Sample.at_ Sample.disk "base/copy.1a2b.ffs_tmp" in
  let run := copyFileTransactional source Sample.currentAttributes target
               false true None 6699 Sample.initial in
  fst run = Throw (UnexpectedStreamSize (mkAfsPath "rec.wav") 2010 1005) /\
  MemFs.lookup temporary (dev (snd run)) = Some (MemFs.File 1005 0) /\
  MemFs.lookup target (dev (snd run)) = None /\
  log (snd run) =
    [ CallGetInputStream source;
      CallGetAttributesBuffered source;
      CallGetOutputStream temporary (Some 1005);
      CallBufferedStreamCopy source temporary;
      CallFinalize temporary;
      CloseOutputStream temporary;
      CloseInputStream source ].
Proof.
  vm_compute. repeat split.
Qed.

(** For comparison, a copy that fails before the stream is finalized: the
    attributes of [src.txt] are stale, the stream is opened for 1000 bytes
    and gets 1005, [finalize] throws, and the destructor of the stream
    removes the temporary file. *)
Lemma copyFileTransactional_unfinalized_stream_cleans_up :
  let source := Sample.at_ Sample.ftp "src.txt" in
  let target := Sample.at_ Sample.disk "base/copy.txt" in
  let temporary := Sample.at_ Sample.disk "base/copy.1a2b.ffs_tmp" in
  let run := copyFileTransactional source Sample.staleAttributes target
               false true None 6699 Sample.initial in
  fst run = Throw MemFs.unexpectedSize /\
  MemFs.lookup temporary (dev (snd run)) = None /\
  MemFs.lookup target (dev (snd run)) = None.
Proof.
  vm_compute. repeat split.
Qed.

End TransactionalCopyOnSample.

(* ===================================================================== *)
(** * Properties of the recursive creation *)
(* ===================================================================== *)

Lemma AbstractPath_eqb_eq (a b : AbstractPath) : AbstractPath_eqb a b = true -> a = b.
Proof.
  destruct a as [[ta da] [pa]], b as [[tb db] [pb]].
  unfold AbstractPath_eqb, Afs_eqb, AfsPath_eqb. cbn [afs afsPath afsType afsDevice value].
  intros Heq.
  apply andb_true_iff in Heq. destruct Heq as [Hafs Hpath].
  apply andb_true_iff in Hafs. destruct Hafs as [Htype Hdevice].
  apply Nat.eqb_eq in Htype. apply String.eqb_eq in Hdevice. apply String.eqb_eq in Hpath.
  subst. reflexivity.
Qed.

Lemma fold_left_appendRelPath (base : AbstractPath) (relPath : list Zstring) :
  fold_left appendRelPath relPath base
  = mkAbstractPath (afs base) (joinRelPathComponents (afsPath base) relPath).
Proof.
  revert base. induction relPath as [| itemName rest IH]; intros base.
  - destruct base. reflexivity.
  - cbn [fold_left]. rewrite IH. reflexivity.
Qed.

Section ResolverInvariant.
Context {Dev : Type} {driver : AfsDriver Dev}.

(** The path status of a relative path that does not start with a separator
    is consistent: the missing components, appended to the existing path,
    give the path that was asked for. *)
Lemma getPathStatusViaFolderTraversal_rec_joins (n : nat) :
  forall this p (s s' : State Dev) ps,
    Zen.startsWithChar (value p) FILE_NAME_SEPARATOR = false ->
    getPathStatusViaFolderTraversal_rec n this p s = (Ok ps, s') ->
    joinRelPathComponents (PathStatusImpl.existingAfsPath ps) (PathStatusImpl.relPath ps) = p.
Proof.
  induction n as [| n IH]; intros this p s s' ps Hstart Hrun; [discriminate|].
  cbn [getPathStatusViaFolderTraversal_rec] in Hrun.
  unfold getPathStatusViaFolderTraversal_body, try_catch in Hrun.
  unfold bind at 1 in Hrun.
  destruct (getItemType (mkAbstractPath this p) s) as [[type | e | ] s1]; cbn [ret] in Hrun.
  - injection Hrun as Hps _. subst ps. reflexivity.
  - destruct (getParentAfsPath p) as [q |] eqn:Hq; [|discriminate].
    destruct (appendAfsPath_parent_itemName p q Hstart Hq) as [Happend Hstart_q].
    unfold bind at 1 in Hrun.
    destruct (getPathStatusViaFolderTraversal_rec n this q s1) as [[psq | e' | ] s2] eqn:Hparent;
      try discriminate.
    pose proof (IH _ _ _ _ _ Hstart_q Hparent) as Hjoin.
    assert (Hpush : joinRelPathComponents
                      (PathStatusImpl.existingAfsPath (pushBackRelPath psq (getItemNameAfs p)))
                      (PathStatusImpl.relPath (pushBackRelPath psq (getItemNameAfs p))) = p).
    { unfold pushBackRelPath, joinRelPathComponents in *.
      cbn [PathStatusImpl.existingAfsPath PathStatusImpl.relPath].
      rewrite fold_left_app. cbn [fold_left]. rewrite Hjoin. exact Happend. }
    destruct (isEmpty (PathStatusImpl.relPath psq) &&
              negb (ItemType_eqb (PathStatusImpl.existingType psq) FILE)).
    + unfold bind in Hrun.
      destruct (traverseFolderFlat (mkAbstractPath this q) _ _ _ tt s2) as [[[[] | type] | e' | ] s3];
        try discriminate; injection Hrun as Hps _; subst ps; [exact Hpush | reflexivity].
    + injection Hrun as Hps _. subst ps. exact Hpush.
  - discriminate.
Qed.

End ResolverInvariant.

Section MemFsFacts.
#[local] Existing Instance MemFs.driver.
#[local] Existing Instance MemFs.backend.

Lemma MemFs_find_without (ap : AbstractPath) (l : list (AbstractPath * MemFs.Item)) :
  find (MemFs.named ap) (MemFs.without ap l) = None.
Proof.
  unfold MemFs.without. induction l as [| entry l IH]; [reflexivity|].
  cbn [filter]. destruct (MemFs.named ap entry) eqn:Hnamed; cbn [negb].
  - exact IH.
  - cbn [find]. rewrite Hnamed. exact IH.
Qed.

Lemma find_app_none {A} (f : A -> bool) (l1 l2 : list A) :
  find f l1 = None -> find f (l1 ++ l2) = find f l2.
Proof.
  induction l1 as [| x l1 IH]; [reflexivity|].
  cbn [find app]. destruct (f x); [discriminate | exact IH].
Qed.

Lemma MemFs_lookup_put (ap : AbstractPath) (it : MemFs.Item) (d : MemFs.Device) :
  MemFs.isRoot ap = false -> MemFs.lookup ap (MemFs.put ap it d) = Some it.
Proof.
  intros Hroot. unfold MemFs.lookup, MemFs.put. rewrite Hroot. cbn [MemFs.items].
  rewrite find_app_none by apply MemFs_find_without.
  cbn [find]. unfold MemFs.named at 1. cbn [fst]. rewrite AbstractPath_eqb_refl. reflexivity.
Qed.

Lemma MemFs_lookup_root (ap : AbstractPath) (d : MemFs.Device) :
  MemFs.isRoot ap = true -> MemFs.lookup ap d = Some MemFs.Folder.
Proof. intros Hroot. unfold MemFs.lookup. now rewrite Hroot. Qed.

Lemma MemFs_lookup_in (ap : AbstractPath) (it : MemFs.Item) (d : MemFs.Device) :
  In (ap, it) (MemFs.items d) -> MemFs.lookup ap d <> None.
Proof.
  intros Hin. unfold MemFs.lookup. destruct (MemFs.isRoot ap); [discriminate|].
  destruct (find (MemFs.named ap) (MemFs.items d)) eqn:Hfind; [discriminate|].
  pose proof (find_none _ _ Hfind _ Hin) as Hnamed.
  unfold MemFs.named in Hnamed. cbn [fst] in Hnamed.
  rewrite AbstractPath_eqb_refl in Hnamed. discriminate.
Qed.

Lemma MemFs_getItemType (ap : AbstractPath) (s : State MemFs.Device) :
  getItemType ap s
  = (match MemFs.lookup ap (dev s) with
     | Some it => Ok (MemFs.typeOf it)
     | None => Throw MemFs.notFound
     end,
     mkState (dev s) (log s ++ [CallGetItemType ap])).
Proof.
  unfold getItemType, call. cbn [drvGetItemType MemFs.driver]. unfold MemFs.mGetItemType.
  destruct (MemFs.lookup ap (dev s)); reflexivity.
Qed.

Lemma MemFs_getParentFolderPath_root (ap : AbstractPath) :
  getParentFolderPath ap = None <-> MemFs.isRoot ap = true.
Proof.
  unfold getParentFolderPath, getParentAfsPath, MemFs.isRoot.
  destruct (value (afsPath ap)); split; (reflexivity || discriminate).
Qed.

(** What [createFolderPlain] does on the in-memory device. *)
Lemma MemFs_createFolderPlain (ap : AbstractPath) (s s' : State MemFs.Device) r :
  createFolderPlain ap s = (r, s') ->
  log s' = (log s ++ [CallCreateFolderPlain ap])%list /\
  ((r = Ok tt /\ MemFs.lookup ap (dev s') = Some MemFs.Folder) \/
   ((exists e, r = Throw e) /\ dev s' = dev s)).
Proof.
  unfold createFolderPlain, call. cbn [drvCreateFolderPlain MemFs.driver].
  unfold MemFs.mCreateFolderPlain. intros Hrun.
  destruct (MemFs.lookup ap (dev s)) as [it |] eqn:Hlookup.
  - injection Hrun as Hr Hs. subst r s'. split; [reflexivity|]. right. eauto.
  - destruct (getParentFolderPath ap) as [parentPath |] eqn:Hparent.
    + assert (Hroot : MemFs.isRoot ap = false).
      { destruct (MemFs.isRoot ap) eqn:Hroot; [|reflexivity].
        apply MemFs_getParentFolderPath_root in Hroot. congruence. }
      destruct (MemFs.lookup parentPath (dev s)) as [[size modTime | | ] |];
        injection Hrun as Hr Hs; subst r s'; (split; [reflexivity|]); cbn [dev].
      * right. eauto.
      * left. split; [reflexivity | apply MemFs_lookup_put; exact Hroot].
      * right. eauto.
      * right. eauto.
    + injection Hrun as Hr Hs. subst r s'. split; [reflexivity|]. right. eauto.
Qed.

(** The resolver only queries: the device stays as it is. *)
Lemma MemFs_resolver_keeps_device (n : nat) :
  forall this p (s s' : State MemFs.Device) r,
    getPathStatusViaFolderTraversal_rec n this p s = (r, s') -> dev s' = dev s.
Proof.
  induction n as [| n IH]; intros this p s s' r Hrun.
  - injection Hrun as _ Hs. now subst s'.
  - cbn [getPathStatusViaFolderTraversal_rec] in Hrun.
    unfold getPathStatusViaFolderTraversal_body, try_catch in Hrun.
    unfold bind at 1 in Hrun. rewrite MemFs_getItemType in Hrun.
    destruct (MemFs.lookup (mkAbstractPath this p) (dev s)); cbn [ret] in Hrun.
    + injection Hrun as _ Hs. now subst s'.
    + destruct (getParentAfsPath p) as [q |]; [| injection Hrun as _ Hs; now subst s'].
      unfold bind at 1 in Hrun.
      destruct (getPathStatusViaFolderTraversal_rec n this q _) as [[psq | e' | ] s2] eqn:Hparent;
        apply IH in Hparent; cbn [dev] in Hparent;
        try (injection Hrun as _ Hs; subst s'; exact Hparent).
      destruct (isEmpty (PathStatusImpl.relPath psq) &&
                negb (ItemType_eqb (PathStatusImpl.existingType psq) FILE)).
      * unfold bind, traverseFolderFlat in Hrun.
        cbn [drvTraverseFolder MemFs.driver] in Hrun. unfold MemFs.mTraverseFolder in Hrun.
        destruct (MemFs.lookup (mkAbstractPath this q) (dev s2)) as [[] |];
          cbn [deliver] in Hrun;
          try (injection Hrun as _ Hs; subst s'; exact Hparent).
        destruct (deliver _ _ _ _ tt) as [[] | type];
          injection Hrun as _ Hs; subst s'; exact Hparent.
      * injection Hrun as _ Hs; subst s'; exact Hparent.
Qed.

End MemFsFacts.

Section CreateOnMemFs.
#[local] Existing Instance MemFs.driver.
#[local] Existing Instance MemFs.backend.

Lemma MemFs_firstNamed_some (itemName : Zstring) (items : list (Zstring * ItemType)) type :
  firstNamed itemName items = Some type -> In (itemName, type) items.
Proof.
  induction items as [| [foundName foundType] items IH]; [discriminate|].
  cbn [firstNamed equalFilePath MemFs.driver].
  destruct (String.eqb_spec foundName itemName) as [Heq | _].
  - intros Hsome. injection Hsome as Htype. subst. left. reflexivity.
  - intros Hsome. right. apply IH. exact Hsome.
Qed.

(** An item the listing of the parent names as the path asked for is that
    path: the query of its type does not fail. *)
Lemma MemFs_listed_is_there this (p q : AfsPath) (d : MemFs.Device) type :
  Zen.startsWithChar (value p) FILE_NAME_SEPARATOR = false ->
  getParentAfsPath p = Some q ->
  In (getItemNameAfs p, type)
     (map (fun entry => (getItemName (fst entry), MemFs.typeOf (snd entry)))
          (MemFs.children (mkAbstractPath this q) d)) ->
  MemFs.lookup (mkAbstractPath this p) d <> None.
Proof.
  intros Hstart Hq Hin.
  apply in_map_iff in Hin. destruct Hin as ([path it] & Hentry & Hin).
  cbn [fst snd] in Hentry. injection Hentry as Hname _.
  unfold MemFs.children in Hin. apply filter_In in Hin. destruct Hin as [Hin Hchild].
  unfold MemFs.childOf in Hchild. cbn [fst] in Hchild.
  apply andb_true_iff in Hchild. destruct Hchild as [_ Hchild].
  apply AbstractPath_eqb_eq in Hchild. rewrite Hname in Hchild.
  unfold appendRelPath in Hchild. cbn [afs afsPath] in Hchild.
  rewrite (proj1 (appendAfsPath_parent_itemName p q Hstart Hq)) in Hchild.
  subst path. eapply MemFs_lookup_in. exact Hin.
Qed.

(** A path the resolver reports as existing is on the device, with the type
    reported. *)
Lemma MemFs_resolver_existing (n : nat) this p (s s' : State MemFs.Device) ps :
  Zen.startsWithChar (value p) FILE_NAME_SEPARATOR = false ->
  getPathStatusViaFolderTraversal_rec n this p s = (Ok ps, s') ->
  PathStatusImpl.relPath ps = [] ->
  exists it, MemFs.lookup (mkAbstractPath this p) (dev s) = Some it /\
             PathStatusImpl.existingType ps = MemFs.typeOf it.
Proof.
  intros Hstart Hrun Hrel. destruct n as [| n]; [discriminate|].
  cbn [getPathStatusViaFolderTraversal_rec] in Hrun.
  unfold getPathStatusViaFolderTraversal_body, try_catch in Hrun.
  unfold bind at 1 in Hrun. rewrite MemFs_getItemType in Hrun.
  destruct (MemFs.lookup (mkAbstractPath this p) (dev s)) as [it |] eqn:Hlookup; cbn [ret] in Hrun.
  - injection Hrun as Hps _. subst ps. exists it. split; reflexivity.
  - exfalso.
    destruct (getParentAfsPath p) as [q |] eqn:Hq; [|discriminate].
    unfold bind at 1 in Hrun.
    destruct (getPathStatusViaFolderTraversal_rec n this q _) as [[psq | e' | ] s2] eqn:Hparent;
      try discriminate.
    apply MemFs_resolver_keeps_device in Hparent. cbn [dev] in Hparent.
    assert (Hpush : PathStatusImpl.relPath (pushBackRelPath psq (getItemNameAfs p)) <> [])
      by (cbn [pushBackRelPath PathStatusImpl.relPath]; apply not_eq_sym, app_cons_not_nil).
    destruct (isEmpty (PathStatusImpl.relPath psq) &&
              negb (ItemType_eqb (PathStatusImpl.existingType psq) FILE)).
    + unfold bind, traverseFolderFlat in Hrun.
      cbn [drvTraverseFolder MemFs.driver] in Hrun. unfold MemFs.mTraverseFolder in Hrun.
      destruct (MemFs.lookup (mkAbstractPath this q) (dev s2)) as [[] |];
        cbn [deliver] in Hrun; try discriminate.
      rewrite deliver_throwTypeIfNamed in Hrun.
      destruct (firstNamed (getItemNameAfs p) _) as [type |] eqn:Hfound.
      * apply MemFs_firstNamed_some in Hfound.
        apply (MemFs_listed_is_there this p q (dev s2) type Hstart Hq) in Hfound.
        rewrite Hparent in Hfound. contradiction.
      * injection Hrun as Hps _. subst ps. contradiction.
    + injection Hrun as Hps _. subst ps. contradiction.
Qed.

(** When the loop over the missing components returns, the last folder it
    was to create is on the device, and is not a plain file. *)
Lemma MemFs_createMissingFolders (relPath : list Zstring) :
  forall base (s s' : State MemFs.Device),
    relPath <> [] ->
    createMissingFolders base relPath s = (Ok tt, s') ->
    exists it, MemFs.lookup (fold_left appendRelPath relPath base) (dev s') = Some it /\
               MemFs.typeOf it <> FILE.
Proof.
  induction relPath as [| itemName rest IH]; intros base s s' Hne Hrun; [contradiction|].
  cbn [createMissingFolders fold_left] in *.
  unfold bind at 1 in Hrun. unfold try_catch at 1 in Hrun.
  assert (Hstep : exists s1 it,
             MemFs.lookup (appendRelPath base itemName) (dev s1) = Some it /\
             MemFs.typeOf it <> FILE /\
             createMissingFolders (appendRelPath base itemName) rest s1 = (Ok tt, s')).
  { destruct (createFolderPlain (appendRelPath base itemName) s) as [r s0] eqn:Hcreate.
    apply MemFs_createFolderPlain in Hcreate.
    destruct Hcreate as [_ [[Hr Hthere] | [[e Hr] Hdev]]]; subst r.
    - exists s0, MemFs.Folder. split; [exact Hthere | split; [discriminate | exact Hrun]].
    - unfold bind at 1, try_catch, bind at 1 in Hrun. rewrite MemFs_getItemType in Hrun.
      destruct (MemFs.lookup (appendRelPath base itemName) (dev s0)) as [it |] eqn:Hlookup;
        cbn [ret] in Hrun.
      + destruct (ItemType_eqb (MemFs.typeOf it) FILE) eqn:Htype;
          cbn [negb ret throw] in Hrun; [discriminate|].
        exists (mkState (dev s0) (log s0 ++ [CallGetItemType (appendRelPath base itemName)])), it.
        split; [cbn [dev]; exact Hlookup | split; [| exact Hrun]].
        intros Hfile. rewrite Hfile in Htype. discriminate.
      + discriminate. }
  destruct Hstep as (s1 & it & Hthere & Htype & Hrest).
  destruct rest as [| next rest'].
  - injection Hrest as Hs. subst s'. exists it. auto.
  - apply (IH _ _ _ ltac:(discriminate) Hrest).
Qed.

End CreateOnMemFs.

Section CreateFolderFacts.
Context {Dev : Type} {backend : AfsBackend Dev}.

(** On any backend: when the plain creation throws and the path status then
    reports the path itself as existing and not a plain file, the function
    returns, and calls nothing more. *)
Lemma createFolderIfMissingRecursion_existing
    (ap parentPath : AbstractPath) (s s2 : State Dev) e d1 ps :
  getParentFolderPath ap = Some parentPath ->
  drvCreateFolderPlain ap (dev s) = (Throw e, d1) ->
  getPathStatus ap (mkState d1 (log s ++ [CallCreateFolderPlain ap])) = (Ok ps, s2) ->
  PathStatus.relPath ps = [] ->
  PathStatus.existingType ps <> FILE ->
  createFolderIfMissingRecursion ap s = (Ok tt, s2).
Proof.
  intros Hparent Hcreate Hstatus Hrel Htype.
  unfold createFolderIfMissingRecursion. rewrite Hparent.
  unfold try_catch, createFolderPlain, call. rewrite Hcreate.
  unfold bind. rewrite Hstatus, Hrel.
  destruct (PathStatus.existingType ps); [contradiction | reflexivity | reflexivity].
Qed.

(** On any backend: the device root exists when its type can be queried. *)
Lemma createFolderIfMissingRecursion_root (ap : AbstractPath) (s : State Dev) type d1 :
  getParentFolderPath ap = None ->
  drvGetItemType ap (dev s) = (Ok type, d1) ->
  createFolderIfMissingRecursion ap s = (Ok tt, mkState d1 (log s ++ [CallGetItemType ap])).
Proof.
  intros Hparent Hquery. unfold createFolderIfMissingRecursion. rewrite Hparent.
  unfold bind, getItemType, call. rewrite Hquery. reflexivity.
Qed.

(** On any backend: when the plain creation returns, nothing more is called. *)
Lemma createFolderIfMissingRecursion_created (ap parentPath : AbstractPath) (s : State Dev) d1 :
  getParentFolderPath ap = Some parentPath ->
  drvCreateFolderPlain ap (dev s) = (Ok tt, d1) ->
  createFolderIfMissingRecursion ap s = (Ok tt, mkState d1 (log s ++ [CallCreateFolderPlain ap])).
Proof.
  intros Hparent Hcreate. unfold createFolderIfMissingRecursion. rewrite Hparent.
  unfold try_catch, createFolderPlain, call. rewrite Hcreate. reflexivity.
Qed.

End CreateFolderFacts.

Section CreateFolderOnMemFs.
#[local] Existing Instance MemFs.driver.
#[local] Existing Instance MemFs.backend.

Lemma isValidRelPath_start (relPath : Zstring) :
  isValidRelPath relPath = true ->
  Zen.startsWithChar relPath FILE_NAME_SEPARATOR = false.
Proof.
  unfold isValidRelPath. intros Hvalid.
  repeat (apply andb_true_iff in Hvalid; destruct Hvalid as [Hvalid ?]).
  match goal with H : negb (Zen.startsWithChar _ _) = true |- _ =>
    apply negb_true_iff in H; exact H end.
Qed.

Lemma MemFs_typeOf_not_file (it : MemFs.Item) :
  MemFs.typeOf it <> FILE -> ItemType_eqb (MemFs.typeOf it) FILE = false.
Proof. destruct it; cbn; [contradiction | reflexivity | reflexivity]. Qed.

(** The folder is there already: no error, and the device stays as it is. *)
Lemma MemFs_create_existing (ap : AbstractPath) (s : State MemFs.Device) it :
  MemFs.lookup ap (dev s) = Some it ->
  MemFs.typeOf it <> FILE ->
  exists calls,
    createFolderIfMissingRecursion ap s = (Ok tt, mkState (dev s) (log s ++ calls)).
Proof.
  intros Hlookup Htype.
  destruct (getParentFolderPath ap) as [parentPath |] eqn:Hparent.
  - eexists.
    apply (createFolderIfMissingRecursion_existing ap parentPath s _ MemFs.alreadyExists (dev s)
             (PathStatus.mk (MemFs.typeOf it) ap []) Hparent).
    + cbn [drvCreateFolderPlain afsDriver MemFs.backend MemFs.driver].
      unfold MemFs.mCreateFolderPlain. rewrite Hlookup. reflexivity.
    + unfold getPathStatus, bind.
      cbn [afsGetPathStatus MemFs.backend].
      rewrite (getPathStatusViaFolderTraversal_direct (afs ap) (afsPath ap) _
                 (MemFs.typeOf it) (dev s)).
      * destruct ap. cbn [ret PathStatusImpl.existingType PathStatusImpl.existingAfsPath
                          PathStatusImpl.relPath afs afsPath dev log].
        rewrite <- app_assoc. reflexivity.
      * cbn [drvGetItemType MemFs.driver dev]. unfold MemFs.mGetItemType.
        destruct ap. cbn [afs afsPath]. rewrite Hlookup. reflexivity.
    + reflexivity.
    + exact Htype.
  - exists [CallGetItemType ap].
    unfold createFolderIfMissingRecursion. rewrite Hparent.
    unfold bind. rewrite MemFs_getItemType, Hlookup. reflexivity.
Qed.

(** After the function has returned, the folder is there. *)
Lemma MemFs_create_makes_present (ap : AbstractPath) (s s1 : State MemFs.Device) :
  isValidRelPath (value (afsPath ap)) = true ->
  createFolderIfMissingRecursion ap s = (Ok tt, s1) ->
  exists it, MemFs.lookup ap (dev s1) = Some it /\ MemFs.typeOf it <> FILE.
Proof.
  intros Hvalid Hrun. apply isValidRelPath_start in Hvalid.
  unfold createFolderIfMissingRecursion in Hrun.
  destruct (getParentFolderPath ap) as [parentPath |] eqn:Hparent.
  - unfold try_catch in Hrun.
    destruct (createFolderPlain ap s) as [r s0] eqn:Hcreate.
    apply MemFs_createFolderPlain in Hcreate.
    destruct Hcreate as [_ [[Hr Hthere] | [[e Hr] Hdev]]]; subst r; cbv beta iota in Hrun.
    + injection Hrun as Hs. subst s1. exists MemFs.Folder. split; [exact Hthere | cbn; discriminate].
    + unfold bind at 1, getPathStatus, bind at 1 in Hrun.
      cbn [afsGetPathStatus MemFs.backend] in Hrun.
      unfold getPathStatusViaFolderTraversal in Hrun.
      destruct (getPathStatusViaFolderTraversal_rec _ (afs ap) (afsPath ap) s0)
        as [[psi | e' | ] s2] eqn:Hstatus; try discriminate.
      cbn [ret PathStatus.existingType PathStatus.existingPath PathStatus.relPath] in Hrun.
      destruct (ItemType_eqb (PathStatusImpl.existingType psi) FILE) eqn:Htype;
        [discriminate|].
      pose proof (MemFs_resolver_keeps_device _ _ _ _ _ _ Hstatus) as Hkeep.
      destruct (PathStatusImpl.relPath psi) as [| itemName rest] eqn:Hrel.
      * injection Hrun as Hs. subst s1.
        destruct (MemFs_resolver_existing _ _ _ _ _ _ Hvalid Hstatus Hrel) as (it & Hit & Hty).
        exists it. rewrite Hkeep. destruct ap. cbn [afs afsPath] in Hit.
        split; [exact Hit|].
        intros Hfile. rewrite Hty, Hfile in Htype. discriminate.
      * destruct (MemFs_createMissingFolders (itemName :: rest) _ _ _ ltac:(discriminate) Hrun)
          as (it & Hit & Hty).
        rewrite fold_left_appendRelPath in Hit. cbn [afs afsPath] in Hit.
        rewrite <- Hrel in Hit.
        rewrite (getPathStatusViaFolderTraversal_rec_joins _ _ _ _ _ _ Hvalid Hstatus) in Hit.
        exists it. destruct ap. auto.
  - unfold bind in Hrun. rewrite MemFs_getItemType in Hrun.
    apply MemFs_getParentFolderPath_root in Hparent.
    rewrite (MemFs_lookup_root _ _ Hparent) in Hrun.
    injection Hrun as Hs. subst s1. cbn [dev].
    exists MemFs.Folder. split; [apply MemFs_lookup_root; exact Hparent | cbn; discriminate].
Qed.

(** C5. On any backend, [createFolderIfMissingRecursion] returns without an
    error and calls nothing more when the path is the device root and its
    type can be queried, when the plain creation returns, and when the plain
    creation throws and the path status then reports the path itself as
    existing and not a plain file. On the in-memory backend, for every device
    and every path: if the folder is there, the function returns and leaves
    the device as it is; and after the function has returned for a valid
    relative path, the folder is there, so that a second call returns as well
    and leaves the device as the first call left it. *)
Theorem createFolderIfMissingRecursion_idempotent :
  (forall (Dev : Type) (backend : AfsBackend Dev) (ap : AbstractPath) (s : State Dev),
     (getParentFolderPath ap = None ->
      forall type d1,
        drvGetItemType ap (dev s) = (Ok type, d1) ->
        createFolderIfMissingRecursion ap s
        = (Ok tt, mkState d1 (log s ++ [CallGetItemType ap]))) /\
     (forall parentPath,
        getParentFolderPath ap = Some parentPath ->
        (forall d1,
           drvCreateFolderPlain ap (dev s) = (Ok tt, d1) ->
           createFolderIfMissingRecursion ap s
           = (Ok tt, mkState d1 (log s ++ [CallCreateFolderPlain ap]))) /\
        (forall e d1 ps s2,
           drvCreateFolderPlain ap (dev s) = (Throw e, d1) ->
           getPathStatus ap (mkState d1 (log s ++ [CallCreateFolderPlain ap])) = (Ok ps, s2) ->
           PathStatus.relPath ps = [] ->
           PathStatus.existingType ps <> FILE ->
           createFolderIfMissingRecursion ap s = (Ok tt, s2)))) /\
  (forall (ap : AbstractPath) (s : State MemFs.Device),
     (forall it,
        MemFs.lookup ap (dev s) = Some it -> MemFs.typeOf it <> FILE ->
        exists calls,
          createFolderIfMissingRecursion ap s = (Ok tt, mkState (dev s) (log s ++ calls))) /\
     (isValidRelPath (value (afsPath ap)) = true ->
      forall s1,
        createFolderIfMissingRecursion ap s = (Ok tt, s1) ->
        (exists it, MemFs.lookup ap (dev s1) = Some it /\ MemFs.typeOf it <> FILE) /\
        (exists calls,
           createFolderIfMissingRecursion ap s1 = (Ok tt, mkState (dev s1) (log s1 ++ calls))))).
Proof.
  split.
  - intros Dev backend ap s. split.
    + intros Hparent type d1. apply createFolderIfMissingRecursion_root. exact Hparent.
    + intros parentPath Hparent. split.
      * intros d1. apply (createFolderIfMissingRecursion_created ap parentPath). exact Hparent.
      * intros e d1 ps s2.
        apply (createFolderIfMissingRecursion_existing ap parentPath). exact Hparent.
  - intros ap s. split.
    + intros it. apply MemFs_create_existing.
    + intros Hvalid s1 Hrun.
      destruct (MemFs_create_makes_present ap s s1 Hvalid Hrun) as (it & Hit & Hty).
      split; [eauto|]. exact (MemFs_create_existing ap s1 it Hit Hty).
Qed.

(** On the sample disk: [base/dir] is there; [base/x/y] is created with its
    parent, and a second call finds it. *)
Lemma createFolderIfMissingRecursion_idempotent_witness :
  let first := createFolderIfMissingRecursion (Sample.at_ Sample.disk "base/x/y") Sample.initial in
  let second := createFolderIfMissingRecursion (Sample.at_ Sample.disk "base/x/y") (snd first) in
  fst first = Ok tt /\
  fst second = Ok tt /\
  dev (snd second) = dev (snd first) /\
  MemFs.lookup (Sample.at_ Sample.disk "base/x/y") (dev (snd second)) = Some MemFs.Folder /\
  (exists calls,
     createFolderIfMissingRecursion (Sample.at_ Sample.disk "base/dir") Sample.initial
     = (Ok tt, mkState Sample.device calls)).
Proof.
  intros first second.
  destruct createFolderIfMissingRecursion_idempotent as [Hany Hmem].
  assert (Hfirst : fst first = Ok tt) by reflexivity.
  destruct (proj2 (Hmem (Sample.at_ Sample.disk "base/x/y") Sample.initial)
              eq_refl (snd first))
    as [(it & Hit & Hty) (calls & Hsecond)].
  { rewrite <- Hfirst. apply surjective_pairing. }
  fold second in Hsecond.
  split; [exact Hfirst|].
  split; [rewrite Hsecond; reflexivity|].
  split; [rewrite Hsecond; reflexivity|].
  split; [reflexivity|].
  destruct (Hany MemFs.Device MemFs.backend (Sample.at_ Sample.disk "base/dir") Sample.initial)
    as [_ Hbelow].
  destruct (Hbelow (Sample.at_ Sample.disk "base") eq_refl) as [_ Hexisting].
  eexists.
  apply (Hexisting MemFs.alreadyExists Sample.device
           (PathStatus.mk FOLDER (Sample.at_ Sample.disk "base/dir") [])).
  - reflexivity.
  - reflexivity.
  - reflexivity.
  - discriminate.
Defined.

End CreateFolderOnMemFs.

(* ===================================================================== *)
(** * The recursive removal ends *)
(* ===================================================================== *)

Section RemovalEnds.
#[local] Existing Instance MemFs.driver.
#[local] Existing Instance MemFs.backend.

Lemma MemFs_pathsWithin_longest (d : MemFs.Device) : MemFs.pathsWithin (MemFs.longestPath d) d.
Proof.
  unfold MemFs.pathsWithin, MemFs.longestPath.
  induction (MemFs.items d) as [| entry l IH]; constructor; cbn [map fold_right].
  - apply Nat.le_max_l.
  - eapply Forall_impl; [| exact IH]. intros e He. cbv beta in He.
    etransitivity; [exact He | apply Nat.le_max_r].
Qed.

Lemma MemFs_pathsWithin_remove (bound : nat) (ap : AbstractPath) (d : MemFs.Device) :
  MemFs.pathsWithin bound d -> MemFs.pathsWithin bound (MemFs.remove ap d).
Proof.
  unfold MemFs.pathsWithin, MemFs.remove, MemFs.without. cbn [MemFs.items].
  intros Hwithin. apply Forall_forall. intros entry Hin.
  apply filter_In in Hin. destruct Hin as [Hin _].
  revert entry Hin. apply Forall_forall. exact Hwithin.
Qed.

(** A listed item lies on the device, below the folder listed. *)
Lemma MemFs_listed_child (bound : nat) (ap : AbstractPath) (d : MemFs.Device)
    (itemName : Zstring) (type : ItemType) :
  MemFs.pathsWithin bound d ->
  In (itemName, type)
     (map (fun entry => (getItemName (fst entry), MemFs.typeOf (snd entry))) (MemFs.children ap d)) ->
  (MemFs.pathLength ap < MemFs.pathLength (appendRelPath ap itemName) <= bound)%nat.
Proof.
  intros Hwithin Hin.
  apply in_map_iff in Hin. destruct Hin as ([path it] & Hentry & Hin).
  cbn [fst snd] in Hentry. injection Hentry as Hname _.
  unfold MemFs.children in Hin. apply filter_In in Hin. destruct Hin as [Hin Hchild].
  unfold MemFs.childOf in Hchild. cbn [fst] in Hchild.
  apply andb_true_iff in Hchild. destruct Hchild as [Hroot Hchild].
  apply AbstractPath_eqb_eq in Hchild. rewrite Hname in Hchild.
  unfold MemFs.pathsWithin in Hwithin. rewrite Forall_forall in Hwithin.
  specialize (Hwithin _ Hin). cbn [fst] in Hwithin.
  apply negb_true_iff in Hroot. subst path.
  split; [| exact Hwithin]. clear Hwithin Hin Hname.
  unfold MemFs.isRoot, MemFs.pathLength, appendRelPath, appendAfsPath in *.
  cbn [afsPath] in *.
  destruct (value (afsPath ap)) as [| c base]; cbn [value] in *.
  - destruct itemName; [discriminate | cbn [String.length]; lia].
  - rewrite length_append. cbn [String.length]. lia.
Qed.

Lemma In_namesOfType (type : ItemType) (items : list (Zstring * ItemType)) (itemName : Zstring) :
  In itemName (namesOfType type items) -> In (itemName, type) items.
Proof.
  unfold namesOfType. intros Hin.
  apply in_map_iff in Hin. destruct Hin as ([foundName foundType] & Hname & Hin).
  apply filter_In in Hin. destruct Hin as [Hin Htype]. cbn [fst snd] in *.
  subst foundName. destruct foundType, type; try discriminate; exact Hin.
Qed.

(** A loop whose steps neither run out of fuel nor break the invariant. *)
Lemma forEach_ends {A} (Inv : State MemFs.Device -> Prop) (body : A -> M MemFs.Device unit)
    (l : list A) :
  (forall x s r s', In x l -> Inv s -> body x s = (r, s') -> r <> Diverge /\ Inv s') ->
  forall s r s', Inv s -> forEach l body s = (r, s') -> r <> Diverge /\ Inv s'.
Proof.
  induction l as [| x l IH]; intros Hbody s r s' Hinv Hrun; cbn [forEach] in Hrun.
  - injection Hrun as Hr Hs. subst r s'. split; [discriminate | exact Hinv].
  - unfold bind in Hrun.
    destruct (body x s) as [[[] | e | ] s1] eqn:Hx;
      destruct (Hbody x s _ s1 (or_introl eq_refl) Hinv Hx) as [Hnd Hinv1].
    + apply (IH (fun y s0 r0 s0' Hy => Hbody y s0 r0 s0' (or_intror Hy)) _ _ _ Hinv1 Hrun).
    + injection Hrun as Hr Hs. subst r s'. split; [discriminate | exact Hinv1].
    + contradiction.
Qed.

Lemma MemFs_notify_step (set : bool) (observer : wstring -> Event) (displayPath : wstring)
    (m : M MemFs.Device unit) (Inv : MemFs.Device -> Prop) (s s' : State MemFs.Device) r :
  (forall s0 r0 s0', Inv (dev s0) -> m s0 = (r0, s0') -> r0 <> Diverge /\ Inv (dev s0')) ->
  Inv (dev s) ->
  (notify (observerIf set (Some (fun p => emit (observer p)))) displayPath ;;; m) s = (r, s') ->
  r <> Diverge /\ Inv (dev s').
Proof.
  intros Hm Hinv Hrun. unfold bind in Hrun.
  destruct set; cbn [observerIf notify emit ret] in Hrun; eapply Hm; try exact Hrun; exact Hinv.
Qed.

Lemma MemFs_remove_step (bound : nat) (ev : Event)
    (op : MemFs.Device -> Outcome unit * MemFs.Device) (s s' : State MemFs.Device) r :
  (forall d, fst (op d) <> Diverge /\ (snd (op d) = d \/ exists ap, snd (op d) = MemFs.remove ap d)) ->
  MemFs.pathsWithin bound (dev s) ->
  call ev op s = (r, s') ->
  r <> Diverge /\ MemFs.pathsWithin bound (dev s').
Proof.
  intros Hop Hwithin Hrun. unfold call in Hrun.
  destruct (Hop (dev s)) as [Hnd Hdev].
  destruct (op (dev s)) as [r0 d0]. injection Hrun as Hr Hs. subst r s'. cbn [fst snd dev] in *.
  split; [exact Hnd|].
  destruct Hdev as [Hsame | [ap Hremoved]]; subst d0;
    [exact Hwithin | apply MemFs_pathsWithin_remove; exact Hwithin].
Qed.

Lemma MemFs_removeFilePlain_op (ap : AbstractPath) (d : MemFs.Device) :
  fst (MemFs.mRemoveFilePlain ap d) <> Diverge /\
  (snd (MemFs.mRemoveFilePlain ap d) = d \/
   exists ap', snd (MemFs.mRemoveFilePlain ap d) = MemFs.remove ap' d).
Proof.
  unfold MemFs.mRemoveFilePlain.
  destruct (MemFs.lookup ap d) as [[] |]; cbn [fst snd]; split; try discriminate; eauto.
Qed.

Lemma MemFs_removeSymlinkPlain_op (ap : AbstractPath) (d : MemFs.Device) :
  fst (MemFs.mRemoveSymlinkPlain ap d) <> Diverge /\
  (snd (MemFs.mRemoveSymlinkPlain ap d) = d \/
   exists ap', snd (MemFs.mRemoveSymlinkPlain ap d) = MemFs.remove ap' d).
Proof.
  unfold MemFs.mRemoveSymlinkPlain.
  destruct (MemFs.lookup ap d) as [[] |]; cbn [fst snd]; split; try discriminate; eauto.
Qed.

Lemma MemFs_removeFolderPlain_op (ap : AbstractPath) (d : MemFs.Device) :
  fst (MemFs.mRemoveFolderPlain ap d) <> Diverge /\
  (snd (MemFs.mRemoveFolderPlain ap d) = d \/
   exists ap', snd (MemFs.mRemoveFolderPlain ap d) = MemFs.remove ap' d).
Proof.
  unfold MemFs.mRemoveFolderPlain.
  destruct (MemFs.lookup ap d) as [[] |]; cbn [fst snd];
    [| destruct (MemFs.isRoot ap); [| destruct (MemFs.children ap d)] | |];
    cbn [fst snd]; split; try discriminate; eauto.
Qed.

(** With fuel for the distance to the longest path, the recursion does not
    run out of fuel. *)
Lemma MemFs_removeFolderRecursionImpl_ends (bound : nat) (notifyFile notifyFolder : bool)
    (fuel : nat) :
  forall folderPath (s s' : State MemFs.Device) r,
    MemFs.pathsWithin bound (dev s) ->
    (bound - MemFs.pathLength folderPath < fuel)%nat ->
    removeFolderRecursionImpl fuel
      (observerIf notifyFile recordFileDeletion)
      (observerIf notifyFolder recordFolderDeletion) folderPath s = (r, s') ->
    r <> Diverge /\ MemFs.pathsWithin bound (dev s').
Proof.
  induction fuel as [| fuel IH]; intros folderPath s s' r Hwithin Hfuel Hrun; [lia|].
  cbn [removeFolderRecursionImpl] in Hrun.
  unfold bind at 1 in Hrun. unfold traverseFolderFlat in Hrun.
  cbn [drvTraverseFolder afsDriver MemFs.backend MemFs.driver] in Hrun.
  unfold MemFs.mTraverseFolder in Hrun.
  destruct (MemFs.lookup folderPath (dev s)) as [[size modTime | | ] |];
    cbn [deliver] in Hrun;
    try (injection Hrun as Hr Hs; subst r s'; split; [discriminate | exact Hwithin]).
  rewrite deliver_pushNames in Hrun. cbn [app] in Hrun.
  set (items := map (fun entry => (getItemName (fst entry), MemFs.typeOf (snd entry)))
                    (MemFs.children folderPath (dev s))) in *.
  unfold bind at 1 in Hrun.
  match type of Hrun with
  | context [forEach (namesOfType FILE items) ?body ?st] =>
      destruct (forEach (namesOfType FILE items) body st) as [[[] | e | ] s1] eqn:Hfiles;
      apply (forEach_ends (fun state => MemFs.pathsWithin bound (dev state))) in Hfiles;
      try exact Hwithin
  end.
  2, 4, 6: intros fileName s0 r0 s0' _ Hinv Hstep;
    eapply (MemFs_notify_step notifyFile NotifyBeforeFileDeletion _ _
              (MemFs.pathsWithin bound)); [| exact Hinv | exact Hstep];
    intros s2 r2 s2' Hinv2 Hremove;
    exact (MemFs_remove_step bound _ _ _ _ _ (MemFs_removeFilePlain_op _) Hinv2 Hremove).
  2: { injection Hrun as Hr Hs. subst r s'. split; [discriminate | apply Hfiles]. }
  2: { destruct Hfiles as [Hfiles _]. contradiction. }
  destruct Hfiles as [_ Hwithin1].
  unfold bind at 1 in Hrun.
  match type of Hrun with
  | context [forEach (namesOfType SYMLINK items) ?body ?st] =>
      destruct (forEach (namesOfType SYMLINK items) body st) as [[[] | e | ] s2] eqn:Hlinks;
      apply (forEach_ends (fun state => MemFs.pathsWithin bound (dev state))) in Hlinks;
      try exact Hwithin1
  end.
  2, 4, 6: intros linkName s0 r0 s0' _ Hinv Hstep;
    eapply (MemFs_notify_step notifyFile NotifyBeforeFileDeletion _ _
              (MemFs.pathsWithin bound)); [| exact Hinv | exact Hstep];
    intros s3 r3 s3' Hinv3 Hremove;
    exact (MemFs_remove_step bound _ _ _ _ _ (MemFs_removeSymlinkPlain_op _) Hinv3 Hremove).
  2: { injection Hrun as Hr Hs. subst r s'. split; [discriminate | apply Hlinks]. }
  2: { destruct Hlinks as [Hlinks _]. contradiction. }
  destruct Hlinks as [_ Hwithin2].
  unfold bind at 1 in Hrun.
  match type of Hrun with
  | context [forEach (namesOfType FOLDER items) ?body ?st] =>
      destruct (forEach (namesOfType FOLDER items) body st) as [[[] | e | ] s3] eqn:Hfolders;
      apply (forEach_ends (fun state => MemFs.pathsWithin bound (dev state))) in Hfolders;
      try exact Hwithin2
  end.
  2, 4, 6: intros folderName s0 r0 s0' Hin Hinv Hstep;
    apply In_namesOfType in Hin;
    pose proof (MemFs_listed_child bound folderPath (dev s) folderName FOLDER Hwithin Hin)
      as Hchild;
    apply (IH (appendRelPath folderPath folderName) _ _ _ Hinv); [lia | exact Hstep].
  2: { injection Hrun as Hr Hs. subst r s'. split; [discriminate | apply Hfolders]. }
  2: { destruct Hfolders as [Hfolders _]. contradiction. }
  destruct Hfolders as [_ Hwithin3].
  eapply (MemFs_notify_step notifyFolder NotifyBeforeFolderDeletion _ _
            (MemFs.pathsWithin bound)); [| exact Hwithin3 | exact Hrun].
  intros s4 r4 s4' Hinv4 Hremove.
  exact (MemFs_remove_step bound _ _ _ _ _ (MemFs_removeFolderPlain_op _) Hinv4 Hremove).
Qed.

End RemovalEnds.

Section RemovalEndsOnMemFs.
#[local] Existing Instance MemFs.driver.
#[local] Existing Instance MemFs.backend.

(** On the in-memory backend the resolver has fuel for every path. *)
Lemma MemFs_resolver_ends (n : nat) :
  forall this p (s s' : State MemFs.Device) r,
    (String.length (value p) < n)%nat ->
    getPathStatusViaFolderTraversal_rec n this p s = (r, s') -> r <> Diverge.
Proof.
  induction n as [| n IH]; intros this p s s' r Hfuel Hrun; [lia|].
  cbn [getPathStatusViaFolderTraversal_rec] in Hrun.
  unfold getPathStatusViaFolderTraversal_body, try_catch in Hrun.
  unfold bind at 1 in Hrun. rewrite MemFs_getItemType in Hrun.
  destruct (MemFs.lookup (mkAbstractPath this p) (dev s)); cbn [ret] in Hrun.
  - injection Hrun as Hr _. subst r. discriminate.
  - destruct (getParentAfsPath p) as [q |] eqn:Hq;
      [| injection Hrun as Hr _; subst r; discriminate].
    apply getParentAfsPath_shorter in Hq.
    unfold bind at 1 in Hrun.
    destruct (getPathStatusViaFolderTraversal_rec n this q _) as [[psq | e' | ] s2] eqn:Hparent;
      try (injection Hrun as Hr _; subst r; discriminate).
    + destruct (isEmpty (PathStatusImpl.relPath psq) &&
                negb (ItemType_eqb (PathStatusImpl.existingType psq) FILE)).
      * unfold bind, traverseFolderFlat in Hrun.
        destruct (drvTraverseFolder (mkAbstractPath this q) (dev s2)) as [[items err] d3].
        destruct (deliver _ _ _ items tt) as [[] | type]; [destruct err |];
          injection Hrun as Hr _; subst r; discriminate.
      * injection Hrun as Hr _; subst r; discriminate.
    + exfalso. refine (IH this q _ _ _ _ Hparent eq_refl). lia.
Qed.

(** On every in-memory device, for every path and whatever the observers
    record, [removeFolderIfExistsRecursion] ends with a result when given
    fuel for the longest path of the device. *)
Lemma MemFs_removeFolderIfExistsRecursion_ends
    (d : MemFs.Device) (calls : list Event) (ap : AbstractPath) (notifyFile notifyFolder : bool) :
  fst (removeFolderIfExistsRecursion (MemFs.fuelFor ap d) ap
         (observerIf notifyFile recordFileDeletion)
         (observerIf notifyFolder recordFolderDeletion) (mkState d calls)) <> Diverge.
Proof.
  unfold removeFolderIfExistsRecursion.
  unfold bind at 1, getItemTypeIfExists, bind at 1, getPathStatus, bind at 1.
  cbn [afsGetPathStatus MemFs.backend]. unfold getPathStatusViaFolderTraversal.
  destruct (getPathStatusViaFolderTraversal_rec _ (afs ap) (afsPath ap) (mkState d calls))
    as [[psi | e | ] s1] eqn:Hstatus; cbn [ret fst]; try discriminate.
  - pose proof (MemFs_resolver_keeps_device _ _ _ _ _ _ Hstatus) as Hkeep. cbn [dev] in Hkeep.
    cbn [PathStatus.relPath PathStatus.existingType].
    destruct (isEmpty (PathStatusImpl.relPath psi)); cbn [ret].
    + destruct (ItemType_eqb (PathStatusImpl.existingType psi) SYMLINK).
      * destruct notifyFile; cbn [observerIf notify recordFileDeletion emit ret bind];
          unfold bind, emit, removeSymlinkPlain, call;
          cbn [drvRemoveSymlinkPlain afsDriver MemFs.backend MemFs.driver dev];
          match goal with |- context [MemFs.mRemoveSymlinkPlain ?a ?b] =>
            pose proof (MemFs_removeSymlinkPlain_op a b) as [Hnd _];
            destruct (MemFs.mRemoveSymlinkPlain a b) end; exact Hnd.
      * destruct (removeFolderRecursionImpl _ _ _ ap s1) as [r s'] eqn:Hrun.
        apply (MemFs_removeFolderRecursionImpl_ends (MemFs.longestPath d)) in Hrun.
        -- cbn [fst]. apply Hrun.
        -- rewrite Hkeep. apply MemFs_pathsWithin_longest.
        -- unfold MemFs.fuelFor. lia.
    + destruct notifyFolder; cbn; discriminate.
  - exfalso. refine (MemFs_resolver_ends _ (afs ap) (afsPath ap) _ _ _ _ Hstatus eq_refl). lia.
Qed.

End RemovalEndsOnMemFs.

(* ===================================================================== *)
(** * Further properties: relative paths *)
(* ===================================================================== *)

Lemma containsChar_append (a b : Zstring) (c : ascii) :
  Zen.containsChar (a ++ b) c = Zen.containsChar a c || Zen.containsChar b c.
Proof.
  induction a as [| x a IH]; [reflexivity|].
  cbn [append Zen.containsChar]. rewrite IH. apply orb_assoc.
Qed.

Lemma splitLast_none (c : ascii) (s : Zstring) :
  Zen.containsChar s c = false -> Zen.splitLast c s = None.
Proof.
  induction s as [| a r IH]; [reflexivity|].
  cbn [Zen.containsChar Zen.splitLast]. intros Hnone.
  apply orb_false_iff in Hnone. destruct Hnone as [Ha Hr].
  rewrite (IH Hr), Ha. reflexivity.
Qed.

Lemma splitLast_tail (c : ascii) (s b t : Zstring) :
  Zen.splitLast c s = Some (b, t) -> Zen.containsChar t c = false.
Proof.
  revert b t. induction s as [| a r IH]; intros b t Hsplit; cbn [Zen.splitLast] in Hsplit.
  - discriminate.
  - destruct (Zen.splitLast c r) as [[b' t'] |] eqn:Hr.
    + injection Hsplit as _ Ht. subst t'. eapply IH. reflexivity.
    + destruct (Ascii.eqb a c); [|discriminate].
      injection Hsplit as _ Ht. subst t.
      clear IH. induction r as [| x r IHr]; [reflexivity|].
      cbn [Zen.splitLast] in Hr. cbn [Zen.containsChar].
      destruct (Zen.splitLast c r) as [[] |]; [discriminate|].
      destruct (Ascii.eqb x c); [discriminate|]. cbn [orb]. apply IHr. reflexivity.
Qed.

Lemma splitLast_append (c : ascii) (b t : Zstring) :
  Zen.containsChar t c = false ->
  Zen.splitLast c (b ++ String c t) = Some (b, t).
Proof.
  intros Hnone. induction b as [| x b IH]; cbn [append Zen.splitLast].
  - rewrite (splitLast_none c t Hnone), Ascii.eqb_refl. reflexivity.
  - rewrite IH. reflexivity.
Qed.

Lemma startsWithChar_append (a b : Zstring) (c : ascii) :
  a <> EmptyString -> Zen.startsWithChar (a ++ b) c = Zen.startsWithChar a c.
Proof. destruct a; [contradiction | reflexivity]. Qed.

Lemma endsWithChar_append (a b : Zstring) (c : ascii) :
  b <> EmptyString -> Zen.endsWithChar (a ++ b) c = Zen.endsWithChar b c.
Proof.
  intros Hb. induction a as [| x a IH]; [reflexivity|].
  cbn [append Zen.endsWithChar]. rewrite IH.
  destruct (a ++ b)%string eqn:Hab; [|reflexivity].
  destruct a; [cbn in Hab; contradiction | discriminate].
Qed.

Lemma containsDouble_append (a b : Zstring) (c : ascii) :
  Zen.containsDouble (a ++ b) c
  = Zen.containsDouble a c
    || (Zen.endsWithChar a c && Zen.startsWithChar b c)
    || Zen.containsDouble b c.
Proof.
  induction a as [| x a IH]; [reflexivity|].
  cbn [append Zen.containsDouble]. rewrite IH. clear IH.
  destruct a as [| y a].
  - cbn [append Zen.startsWithChar Zen.containsDouble Zen.endsWithChar].
    destruct (Ascii.eqb x c), (Zen.startsWithChar b c), (Zen.containsDouble b c); reflexivity.
  - cbn [append Zen.startsWithChar].
    change (Zen.endsWithChar (String x (String y a)) c) with (Zen.endsWithChar (String y a) c).
    destruct (Ascii.eqb x c && Ascii.eqb y c), (Zen.containsDouble (String y a) c),
      (Zen.endsWithChar (String y a) c && Zen.startsWithChar b c), (Zen.containsDouble b c);
      reflexivity.
Qed.

Lemma noChar_start (s : Zstring) (c : ascii) :
  Zen.containsChar s c = false -> Zen.startsWithChar s c = false.
Proof.
  destruct s; [reflexivity|]. cbn. intros H. apply orb_false_iff in H. apply H.
Qed.

Lemma noChar_end (s : Zstring) (c : ascii) :
  Zen.containsChar s c = false -> Zen.endsWithChar s c = false.
Proof.
  induction s as [| a r IH]; [reflexivity|].
  cbn [Zen.containsChar Zen.endsWithChar]. intros H.
  apply orb_false_iff in H. destruct H as [Ha Hr].
  destruct r; [exact Ha | apply IH; exact Hr].
Qed.

Lemma noChar_double (s : Zstring) (c : ascii) :
  Zen.containsChar s c = false -> Zen.containsDouble s c = false.
Proof.
  induction s as [| a r IH]; [reflexivity|].
  cbn [Zen.containsChar Zen.containsDouble]. intros H.
  apply orb_false_iff in H. destruct H as [Ha Hr].
  rewrite Ha, (IH Hr). reflexivity.
Qed.

Lemma AfsPath_eta (p : AfsPath) : mkAfsPath (value p) = p.
Proof. destruct p. reflexivity. Qed.

Lemma append_inv_head (a x y : Zstring) : (a ++ x = a ++ y)%string -> x = y.
Proof.
  induction a as [| c a IH]; [trivial|].
  cbn [append]. intros H. injection H as H. apply IH. exact H.
Qed.

Lemma appendAfsPath_roundtrip (basePath : AfsPath) (itemName : Zstring) :
  Zen.containsChar itemName FILE_NAME_SEPARATOR = false ->
  value basePath <> EmptyString \/ itemName <> EmptyString ->
  getParentAfsPath (appendAfsPath basePath itemName) = Some basePath /\
  getItemNameAfs (appendAfsPath basePath itemName) = itemName.
Proof.
  intros Hnosep Hnonempty.
  unfold appendAfsPath, getParentAfsPath, getItemNameAfs,
    Zen.beforeLast_orNone, Zen.afterLast_orAll.
  destruct (value basePath) as [| c base] eqn:Hbase; cbn [value].
  - destruct Hnonempty as [Hne | Hne]; [contradiction|].
    rewrite (splitLast_none _ _ Hnosep).
    destruct itemName; [contradiction|].
    split; [| reflexivity]. rewrite <- Hbase, AfsPath_eta. reflexivity.
  - change (String c base ++ String FILE_NAME_SEPARATOR itemName)%string
      with (String c (base ++ String FILE_NAME_SEPARATOR itemName)).
    change (String c (base ++ String FILE_NAME_SEPARATOR itemName))
      with (String c base ++ String FILE_NAME_SEPARATOR itemName)%string at 2 3.
    rewrite (splitLast_append _ (String c base) _ Hnosep).
    split; [| reflexivity]. rewrite <- Hbase, AfsPath_eta. reflexivity.
Qed.

(** X1. Joining one component that holds no separator below a path, as
    [traverseFolderRecursive] does, and taking the parent gives the path
    back, and the name of the joined path is the component; only the empty
    component below the root joins to the root itself, which has no
    parent. *)
Theorem getParentAfsPath_of_joined (basePath : AfsPath) (itemName : Zstring) :
  Zen.containsChar itemName FILE_NAME_SEPARATOR = false ->
  (value basePath <> EmptyString \/ itemName <> EmptyString ->
   getParentAfsPath (joinRelPathComponents basePath [itemName]) = Some basePath /\
   getItemNameAfs (joinRelPathComponents basePath [itemName]) = itemName) /\
  (value basePath = EmptyString -> itemName = EmptyString ->
   getParentAfsPath (joinRelPathComponents basePath [itemName]) = None).
Proof.
  intros Hnosep. unfold joinRelPathComponents. cbn [fold_left]. split.
  - apply appendAfsPath_roundtrip. exact Hnosep.
  - intros Hbase Hname. unfold appendAfsPath, getParentAfsPath.
    rewrite Hbase. subst itemName. reflexivity.
Qed.

Lemma getParentAfsPath_of_joined_witness :
  getParentAfsPath (joinRelPathComponents (mkAfsPath "base/dir") ["f.txt"])
    = Some (mkAfsPath "base/dir") /\
  getItemNameAfs (joinRelPathComponents (mkAfsPath "base/dir") ["f.txt"]) = "f.txt" /\
  getParentAfsPath (joinRelPathComponents (mkAfsPath "") [""]) = None.
Proof.
  destruct (getParentAfsPath_of_joined (mkAfsPath "base/dir") "f.txt" eq_refl) as [Hjoined _].
  destruct Hjoined as [Hparent Hname]; [right; discriminate|].
  destruct (getParentAfsPath_of_joined (mkAfsPath "") "" eq_refl) as [_ Hroot].
  split; [exact Hparent | split; [exact Hname | exact (Hroot eq_refl eq_refl)]].
Defined.

Lemma isValidRelPath_parts (s : Zstring) :
  isValidRelPath s = true <->
  Zen.containsChar s (ascii_of_nat 92) = false /\
  Zen.startsWithChar s FILE_NAME_SEPARATOR = false /\
  Zen.endsWithChar s FILE_NAME_SEPARATOR = false /\
  Zen.containsDouble s FILE_NAME_SEPARATOR = false.
Proof.
  unfold isValidRelPath.
  destruct (Zen.containsChar s (ascii_of_nat 92)), (Zen.startsWithChar s FILE_NAME_SEPARATOR),
    (Zen.endsWithChar s FILE_NAME_SEPARATOR), (Zen.containsDouble s FILE_NAME_SEPARATOR);
    cbn; intuition congruence.
Qed.

(** X2. The parent of a valid relative path is a valid relative path: walking
    up with [getParentAfsPath] never leaves the paths [isValidRelPath]
    accepts. *)
Theorem getParentAfsPath_keeps_valid (p q : AfsPath) :
  isValidRelPath (value p) = true ->
  getParentAfsPath p = Some q ->
  isValidRelPath (value q) = true.
Proof.
  intros Hvalid Hparent. unfold getParentAfsPath in Hparent.
  assert (Hq : value q = Zen.beforeLast_orNone (value p) FILE_NAME_SEPARATOR).
  { destruct (value p); [discriminate|]. injection Hparent as Hparent. subst q. reflexivity. }
  rewrite Hq. unfold Zen.beforeLast_orNone. clear Hq Hparent.
  destruct (Zen.splitLast FILE_NAME_SEPARATOR (value p)) as [[b t] |] eqn:Hsplit; [|reflexivity].
  apply splitLast_spec in Hsplit. rewrite Hsplit in Hvalid. clear Hsplit.
  apply isValidRelPath_parts in Hvalid. destruct Hvalid as (Hback & Hstart & _ & Hdouble).
  apply isValidRelPath_parts.
  rewrite containsChar_append in Hback. apply orb_false_iff in Hback.
  rewrite containsDouble_append in Hdouble.
  apply orb_false_iff in Hdouble. destruct Hdouble as [Hdouble _].
  apply orb_false_iff in Hdouble. destruct Hdouble as [Hdouble Hend].
  cbn [Zen.startsWithChar] in Hend. rewrite Ascii.eqb_refl, andb_true_r in Hend.
  split; [apply Hback | split; [| split; assumption]].
  destruct b; [reflexivity | exact Hstart].
Qed.

Lemma getParentAfsPath_keeps_valid_witness :
  isValidRelPath "base/dir/f.txt" = true /\
  getParentAfsPath (mkAfsPath "base/dir/f.txt") = Some (mkAfsPath "base/dir") /\
  isValidRelPath "base/dir" = true.
Proof.
  split; [reflexivity | split; [reflexivity|]].
  exact (getParentAfsPath_keeps_valid (mkAfsPath "base/dir/f.txt") (mkAfsPath "base/dir")
           eq_refl eq_refl).
Defined.

(** X3. Joining item names below a valid relative path, as
    [traverseFolderRecursive] does for each work item, gives a valid relative
    path when no name is empty or holds a separator or a backslash (the names
    the function asserts to get). *)
Theorem joinRelPathComponents_keeps_valid (basePath : AfsPath) (relPathComponents : list Zstring) :
  isValidRelPath (value basePath) = true ->
  Forall (fun itemName =>
            itemName <> EmptyString /\
            Zen.containsChar itemName FILE_NAME_SEPARATOR = false /\
            Zen.containsChar itemName (ascii_of_nat 92) = false) relPathComponents ->
  isValidRelPath (value (joinRelPathComponents basePath relPathComponents)) = true.
Proof.
  intros Hvalid Hnames. revert basePath Hvalid. unfold joinRelPathComponents.
  induction Hnames as [| itemName rest (Hnonempty & Hnosep & Hnoback) _ IH];
    intros basePath Hvalid; cbn [fold_left]; [exact Hvalid|].
  apply IH. clear IH. unfold appendAfsPath.
  apply isValidRelPath_parts in Hvalid. destruct Hvalid as (Hback & Hstart & Hend & Hdouble).
  apply isValidRelPath_parts.
  destruct (value basePath) as [| c base] eqn:Hbase; cbn [value].
  - split; [exact Hnoback|].
    split; [apply noChar_start; exact Hnosep|].
    split; [apply noChar_end; exact Hnosep | apply noChar_double; exact Hnosep].
  - split.
    { rewrite containsChar_append, Hback. cbn [Zen.containsChar orb].
      rewrite Hnoback. reflexivity. }
    split; [exact Hstart|].
    split.
    { rewrite endsWithChar_append by discriminate.
      change (Zen.endsWithChar (String FILE_NAME_SEPARATOR itemName) FILE_NAME_SEPARATOR)
        with (match itemName with
              | EmptyString => Ascii.eqb FILE_NAME_SEPARATOR FILE_NAME_SEPARATOR
              | _ => Zen.endsWithChar itemName FILE_NAME_SEPARATOR
              end).
      destruct itemName; [contradiction|]. apply noChar_end. exact Hnosep. }
    rewrite containsDouble_append, Hdouble, Hend.
    cbn [Zen.containsDouble andb orb].
    rewrite (noChar_start _ _ Hnosep), (noChar_double _ _ Hnosep), andb_false_r.
    reflexivity.
Qed.

Lemma joinRelPathComponents_keeps_valid_witness :
  isValidRelPath (value (joinRelPathComponents (mkAfsPath "base") ["dir"; "f.txt"])) = true.
Proof.
  apply joinRelPathComponents_keeps_valid; [reflexivity|].
  repeat constructor; discriminate.
Defined.

(* ===================================================================== *)
(** * Further properties: the temporary file of a transactional copy *)
(* ===================================================================== *)

Lemma splitLast_none_inv (c : ascii) (s : Zstring) :
  Zen.splitLast c s = None -> Zen.containsChar s c = false.
Proof.
  induction s as [| a r IH]; [reflexivity|].
  cbn [Zen.splitLast Zen.containsChar].
  destruct (Zen.splitLast c r) as [[] |]; [discriminate|].
  destruct (Ascii.eqb a c); [discriminate|]. intros _. apply IH. reflexivity.
Qed.

Lemma hexDigit_no_separator (n : Z) :
  Ascii.eqb (Zen.hexDigit n) FILE_NAME_SEPARATOR = false.
Proof.
  destruct n as [| p | p]; [reflexivity | | reflexivity].
  do 4 (destruct p as [p | p |]; try reflexivity).
Qed.

Lemma getItemNameAfs_no_separator (p : AfsPath) :
  Zen.containsChar (getItemNameAfs p) FILE_NAME_SEPARATOR = false.
Proof.
  unfold getItemNameAfs, Zen.afterLast_orAll.
  destruct (Zen.splitLast FILE_NAME_SEPARATOR (value p)) as [[b t] |] eqn:Hsplit.
  - exact (splitLast_tail _ _ _ _ Hsplit).
  - exact (splitLast_none_inv _ _ Hsplit).
Qed.

Lemma tempFileName_no_separator (fileName : Zstring) (crc16 : Z) :
  Zen.containsChar fileName FILE_NAME_SEPARATOR = false ->
  Zen.containsChar (tempFileName fileName crc16) FILE_NAME_SEPARATOR = false.
Proof.
  intros Hnosep. unfold tempFileName, Zen.beforeLast_orAll.
  rewrite containsChar_append.
  assert (Hstem : Zen.containsChar
                    match Zen.splitLast "."%char fileName with
                    | Some (b, _) => b
                    | None => fileName
                    end FILE_NAME_SEPARATOR = false).
  { destruct (Zen.splitLast "."%char fileName) as [[b t] |] eqn:Hsplit; [|exact Hnosep].
    apply splitLast_spec in Hsplit. rewrite Hsplit, containsChar_append in Hnosep.
    apply orb_false_iff in Hnosep. apply Hnosep. }
  rewrite Hstem. unfold Zen.printNumber_04x, TEMP_FILE_ENDING.
  cbn [append Zen.containsChar orb]. rewrite !hexDigit_no_separator. reflexivity.
Qed.

Lemma tempFileName_differs (fileName : Zstring) (crc16 : Z) :
  tempFileName fileName crc16 <> fileName.
Proof.
  unfold tempFileName, Zen.beforeLast_orAll. intros Hsame.
  destruct (Zen.splitLast "."%char fileName) as [[b t] |] eqn:Hsplit.
  - pose proof (splitLast_tail _ _ _ _ Hsplit) as Hnodot.
    apply splitLast_spec in Hsplit. rewrite Hsplit in Hsame.
    apply append_inv_head in Hsame. injection Hsame as Hsame.
    rewrite <- Hsame in Hnodot. unfold TEMP_FILE_ENDING in Hnodot.
    cbn [Zen.containsChar] in Hnodot.
    do 4 (apply orb_false_iff in Hnodot; destruct Hnodot as [_ Hnodot]).
    cbn in Hnodot. discriminate.
  - apply (f_equal String.length) in Hsame. rewrite length_append in Hsame.
    cbn [String.length] in Hsame. lia.
Qed.

(** X4. The temporary file of a transactional copy is a sibling of the
    target and never the target itself: for every target below the device
    root and every 16-bit checksum, the temporary path has the target's
    parent folder as its parent, its name is the generated name, and it
    differs from the target path. *)
Theorem copyFileTransactional_temporary_is_sibling
    (apTarget parentPath : AbstractPath) (crc16 : Z) :
  getParentFolderPath apTarget = Some parentPath ->
  let fileNameTmp := tempFileName (getItemName apTarget) crc16 in
  let apTargetTmp := appendRelPath parentPath fileNameTmp in
  getParentFolderPath apTargetTmp = Some parentPath /\
  getItemName apTargetTmp = fileNameTmp /\
  apTargetTmp <> apTarget.
Proof.
  intros Hparent fileNameTmp apTargetTmp.
  assert (Hnosep : Zen.containsChar fileNameTmp FILE_NAME_SEPARATOR = false).
  { apply tempFileName_no_separator. apply getItemNameAfs_no_separator. }
  assert (Hnonempty : fileNameTmp <> EmptyString).
  { unfold fileNameTmp, tempFileName. intros Hempty.
    apply (f_equal String.length) in Hempty. rewrite length_append in Hempty.
    cbn [String.length] in Hempty. lia. }
  destruct (appendAfsPath_roundtrip (afsPath parentPath) fileNameTmp Hnosep
              (or_intror Hnonempty)) as [Hup Hname].
  assert (Hsibling : getParentFolderPath apTargetTmp = Some parentPath).
  { unfold getParentFolderPath, apTargetTmp, appendRelPath. cbn [afsPath afs].
    rewrite Hup. destruct parentPath. reflexivity. }
  assert (Hitem : getItemName apTargetTmp = fileNameTmp) by exact Hname.
  split; [exact Hsibling | split; [exact Hitem|]].
  intros Hsame. rewrite Hsame in Hitem.
  exact (tempFileName_differs (getItemName apTarget) crc16 (eq_sym Hitem)).
Qed.

Lemma copyFileTransactional_temporary_is_sibling_witness :
  let apTarget := mkAbstractPath (mkAfs 0 "disk") (mkAfsPath "base/copy.txt") in
  let apTargetTmp := mkAbstractPath (mkAfs 0 "disk") (mkAfsPath "base/copy.1a2b.ffs_tmp") in
  getParentFolderPath apTarget = Some (mkAbstractPath (mkAfs 0 "disk") (mkAfsPath "base")) /\
  getParentFolderPath apTargetTmp = Some (mkAbstractPath (mkAfs 0 "disk") (mkAfsPath "base")) /\
  getItemName apTargetTmp = "copy.1a2b.ffs_tmp" /\
  apTargetTmp <> apTarget.
Proof.
  split; [reflexivity|].
  exact (copyFileTransactional_temporary_is_sibling
           (mkAbstractPath (mkAfs 0 "disk") (mkAfsPath "base/copy.txt"))
           (mkAbstractPath (mkAfs 0 "disk") (mkAfsPath "base")) 6699 eq_refl).
Defined.

(* ===================================================================== *)
(** * Further properties: the path order as a sort order *)
(* ===================================================================== *)

Section PathOrderSorting.
Context {order : PathOrder}.

Lemma compareAbstractPath_le (A B : AbstractPath) :
  compareAbstractPath A B <= 0 <->
  (afsType (afs A) < afsType (afs B))%nat \/
  (afsType (afs A) = afsType (afs B) /\
   (compareDeviceRootSameAfsType (afs A) (afs B) < 0 \/
    (compareDeviceRootSameAfsType (afs A) (afs B) = 0 /\
     compareFilePath (value (afsPath A)) (value (afsPath B)) <= 0))).
Proof.
  unfold compareAbstractPath, typeid_before.
  destruct (Nat.ltb_spec (afsType (afs A)) (afsType (afs B))) as [Hlt | Hge]; [lia|].
  destruct (Nat.ltb_spec (afsType (afs B)) (afsType (afs A))) as [Hgt | Hle]; [lia|].
  destruct (Z.eqb_spec (compareDeviceRootSameAfsType (afs A) (afs B)) 0) as [Hz | Hnz];
    cbn [negb]; lia.
Qed.

Lemma compareAbstractPath_opposite :
  (forall a b, afsType a = afsType b ->
     compareDeviceRootSameAfsType a b = - compareDeviceRootSameAfsType b a) ->
  (forall p q, compareFilePath p q = - compareFilePath q p) ->
  forall A B, compareAbstractPath A B = - compareAbstractPath B A.
Proof.
  intros root_antisym path_antisym A B. unfold compareAbstractPath, typeid_before.
  destruct (Nat.ltb_spec (afsType (afs A)) (afsType (afs B))) as [Hlt | Hge];
    destruct (Nat.ltb_spec (afsType (afs B)) (afsType (afs A))) as [Hgt | Hle];
    try lia.
  rewrite (root_antisym (afs A) (afs B)) by lia.
  rewrite (path_antisym (value (afsPath A)) (value (afsPath B))).
  destruct (Z.eqb_spec (compareDeviceRootSameAfsType (afs B) (afs A)) 0) as [Hz | Hnz];
    destruct (Z.eqb_spec (- compareDeviceRootSameAfsType (afs B) (afs A)) 0) as [Hz' | Hnz'];
    cbn [negb]; lia.
Qed.

(** X5. [compareAbstractPath] is transitive whenever the two comparators it
    delegates to are antisymmetric and transitive (the device comparator
    between drivers of one type): from A not after B and B not after C
    follows A not after C, and the same for strictly before. It can
    therefore serve as the order of a sorted container. *)
Theorem compareAbstractPath_transitive :
  (forall a b, afsType a = afsType b ->
     compareDeviceRootSameAfsType a b = - compareDeviceRootSameAfsType b a) ->
  (forall a b c, afsType a = afsType b -> afsType b = afsType c ->
     compareDeviceRootSameAfsType a b <= 0 -> compareDeviceRootSameAfsType b c <= 0 ->
     compareDeviceRootSameAfsType a c <= 0) ->
  (forall p q, compareFilePath p q = - compareFilePath q p) ->
  (forall p q r, compareFilePath p q <= 0 -> compareFilePath q r <= 0 ->
     compareFilePath p r <= 0) ->
  (forall A B C, compareAbstractPath A B <= 0 -> compareAbstractPath B C <= 0 ->
     compareAbstractPath A C <= 0) /\
  (forall A B C, compareAbstractPath A B < 0 -> compareAbstractPath B C < 0 ->
     compareAbstractPath A C < 0).
Proof.
  intros root_antisym root_trans path_antisym path_trans.
  assert (Hle : forall A B C, compareAbstractPath A B <= 0 -> compareAbstractPath B C <= 0 ->
                  compareAbstractPath A C <= 0).
  { intros A B C HAB HBC.
    apply compareAbstractPath_le in HAB. apply compareAbstractPath_le in HBC.
    apply compareAbstractPath_le.
    destruct HAB as [HAB | [HtAB HAB]]; [lia|].
    destruct HBC as [HBC | [HtBC HBC]]; [lia|].
    right. split; [lia|].
    assert (HrAB : compareDeviceRootSameAfsType (afs A) (afs B) <= 0) by lia.
    assert (HrBC : compareDeviceRootSameAfsType (afs B) (afs C) <= 0) by lia.
    pose proof (root_trans _ _ _ HtAB HtBC HrAB HrBC) as HrAC.
    destruct (Z.eq_dec (compareDeviceRootSameAfsType (afs A) (afs C)) 0) as [Hz | Hnz]; [|lia].
    right. split; [exact Hz|].
    assert (HrCA : compareDeviceRootSameAfsType (afs C) (afs A) <= 0).
    { rewrite (root_antisym (afs C) (afs A)) by lia. lia. }
    pose proof (root_trans (afs C) (afs A) (afs B) ltac:(lia) HtAB HrCA HrAB) as HrCB.
    pose proof (root_trans (afs B) (afs C) (afs A) HtBC ltac:(lia) HrBC HrCA) as HrBA.
    rewrite (root_antisym (afs C) (afs B)) in HrCB by lia.
    rewrite (root_antisym (afs B) (afs A)) in HrBA by lia.
    apply (path_trans _ (value (afsPath B))); lia. }
  split; [exact Hle|].
  intros A B C HAB HBC.
  assert (HAC : compareAbstractPath A C <= 0) by (apply (Hle A B C); lia).
  destruct (Z.eq_dec (compareAbstractPath A C) 0) as [Hz | Hnz]; [|lia].
  assert (HCA : compareAbstractPath C A <= 0).
  { rewrite (compareAbstractPath_opposite root_antisym path_antisym C A). lia. }
  pose proof (Hle C A B HCA ltac:(lia)) as HCB.
  rewrite (compareAbstractPath_opposite root_antisym path_antisym C B) in HCB. lia.
Qed.

(** X6. Two paths compare as equal exactly when their drivers have the same
    type and both the device comparator and the file path comparator answer
    0: paths on drivers of different types never compare as equal. *)
Theorem compareAbstractPath_equal_iff (A B : AbstractPath) :
  compareAbstractPath A B = 0 <->
  afsType (afs A) = afsType (afs B) /\
  compareDeviceRootSameAfsType (afs A) (afs B) = 0 /\
  compareFilePath (value (afsPath A)) (value (afsPath B)) = 0.
Proof.
  unfold compareAbstractPath, typeid_before.
  destruct (Nat.ltb_spec (afsType (afs A)) (afsType (afs B))) as [Hlt | Hge]; [lia|].
  destruct (Nat.ltb_spec (afsType (afs B)) (afsType (afs A))) as [Hgt | Hle]; [lia|].
  destruct (Z.eqb_spec (compareDeviceRootSameAfsType (afs A) (afs B)) 0) as [Hz | Hnz];
    cbn [negb]; lia.
Qed.

End PathOrderSorting.

Lemma compareZstring_le (p q : Zstring) :
  MemFs.compareZstring p q <= 0 <-> OrderedTypeEx.String_as_OT.lt p q \/ p = q.
Proof.
  unfold MemFs.compareZstring.
  pose proof (OrderedTypeEx.String_as_OT.cmp_lt p q) as Hlt.
  pose proof (OrderedTypeEx.String_as_OT.cmp_eq p q) as Heq.
  change (OrderedTypeEx.String_as_OT.cmp p q) with (String.compare p q) in Hlt, Heq.
  destruct (String.compare p q); split; intros H; try lia.
  - right. apply Heq. reflexivity.
  - left. apply Hlt. reflexivity.
  - destruct H as [H | H]; [apply Hlt in H | apply Heq in H]; discriminate.
Qed.

Lemma compareZstring_trans (p q r : Zstring) :
  MemFs.compareZstring p q <= 0 -> MemFs.compareZstring q r <= 0 ->
  MemFs.compareZstring p r <= 0.
Proof.
  rewrite !compareZstring_le. intros [Hpq | Hpq] [Hqr | Hqr]; subst; auto.
  left. exact (OrderedTypeEx.String_as_OT.lt_trans _ _ _ Hpq Hqr).
Qed.

Lemma compareAbstractPath_transitive_witness :
  let A := mkAbstractPath (mkAfs 0 "disk") (mkAfsPath "base/a.txt") in
  let B := mkAbstractPath (mkAfs 0 "disk") (mkAfsPath "base/b.txt") in
  let C := mkAbstractPath (mkAfs 1 "ftp") (mkAfsPath "a.txt") in
  let compare := compareAbstractPath (order := MemFs.pathOrder) in
  compare A B < 0 /\ compare B C < 0 /\ compare A C < 0.
Proof.
  intros A B C compare.
  destruct (@compareAbstractPath_transitive MemFs.pathOrder
              (fun a b _ => compareZstring_antisym (afsDevice a) (afsDevice b))
              (fun a b c _ _ => compareZstring_trans (afsDevice a) (afsDevice b) (afsDevice c))
              compareZstring_antisym compareZstring_trans) as [_ Hstrict].
  assert (HAB : compare A B < 0) by reflexivity.
  assert (HBC : compare B C < 0) by reflexivity.
  split; [exact HAB | split; [exact HBC | exact (Hstrict A B C HAB HBC)]].
Defined.

(* ===================================================================== *)
(** * Further properties: the steps of a transactional copy *)
(* ===================================================================== *)

Section TransactionalCopySteps.
Context {Dev : Type} {driver : AfsDriver Dev}.

Lemma copyFileTransactional_tail
    (onDeleteTargetFile : option (M Dev unit)) apTargetTmp apTarget
    (result : FileCopyResult.t) (s1 : State Dev) :
  (invoke onDeleteTargetFile ;;; moveAndRenameItem apTargetTmp apTarget ;;; ret result) s1
  = match (invoke onDeleteTargetFile ;;; moveAndRenameItem apTargetTmp apTarget) s1 with
    | (Ok _, s2) => (Ok result, s2)
    | (Throw e, s2) => (Throw e, s2)
    | (Diverge, s2) => (Diverge, s2)
    end.
Proof.
  unfold bind. destruct (invoke onDeleteTargetFile s1) as [[[] | e | ] s2]; reflexivity.
Qed.

(** X7. A transactional copy that cannot start throws before anything is
    called: for a target that is the device root the error is
    [PathIsDeviceRoot], and for a copy of permissions between drivers of
    different types it is [PermissionsNotSupported] for the temporary path.
    In both cases no driver is called and the callback is not invoked; the
    state is the one the copy was started in. *)
Theorem copyFileTransactional_refused_untouched
    apSource attrSource apTarget copyFilePermissions onDeleteTargetFile crc16 (s : State Dev) :
  (value (afsPath apTarget) = EmptyString ->
   copyFileTransactional apSource attrSource apTarget copyFilePermissions true
     onDeleteTargetFile crc16 s
   = (Throw (PathIsDeviceRoot apTarget), s)) /\
  (forall parentPath,
     getParentFolderPath apTarget = Some parentPath ->
     sameAfsType (afs apSource) (afs apTarget) = false ->
     copyFileTransactional apSource attrSource apTarget true true onDeleteTargetFile crc16 s
     = (Throw (PermissionsNotSupported
                 (appendRelPath parentPath (tempFileName (getItemName apTarget) crc16))), s)).
Proof.
  split.
  - intros Hroot. unfold copyFileTransactional, getParentFolderPath, getParentAfsPath.
    rewrite Hroot. reflexivity.
  - intros parentPath Hparent Htypes. unfold copyFileTransactional. rewrite Hparent.
    unfold bind at 1. unfold copyFilePlain.
    replace (afs (appendRelPath parentPath (tempFileName (getItemName apTarget) crc16)))
      with (afs apTarget)
      by (symmetry; apply (getParentFolderPath_afs _ _ Hparent)).
    rewrite Htypes. reflexivity.
Qed.

(** X8. A copy that is not transactional invokes the callback that deletes
    the old target before it looks at the request: when permissions are to
    be copied between drivers of different types, the copy is refused with
    [PermissionsNotSupported] only after the callback has run, and the state
    is the one the callback left. When the callback throws, nothing is
    copied. *)
Theorem copyFileTransactional_plain_deletes_first
    apSource attrSource apTarget onDeleteTargetFile crc16 (s : State Dev) :
  sameAfsType (afs apSource) (afs apTarget) = false ->
  copyFileTransactional apSource attrSource apTarget true false onDeleteTargetFile crc16 s
  = match invoke onDeleteTargetFile s with
    | (Ok _, s1) => (Throw (PermissionsNotSupported apTarget), s1)
    | (Throw e, s1) => (Throw e, s1)
    | (Diverge, s1) => (Diverge, s1)
    end.
Proof.
  intros Htypes. unfold copyFileTransactional, bind, copyFilePlain. rewrite Htypes.
  destruct (invoke onDeleteTargetFile s) as [[[] | e | ] s1]; reflexivity.
Qed.

(** X9. A transactional copy that returns has gone through all of its
    steps in order: the copy to the temporary path returned the result the
    function returns, then the callback returned, and the last thing done is
    the rename of the temporary path to the target, which succeeded. *)
Theorem copyFileTransactional_success_steps
    apSource attrSource apTarget copyFilePermissions onDeleteTargetFile crc16
    (s s' : State Dev) result :
  copyFileTransactional apSource attrSource apTarget copyFilePermissions true
    onDeleteTargetFile crc16 s = (Ok result, s') ->
  exists parentPath s1 s2 d3,
    let apTargetTmp := appendRelPath parentPath (tempFileName (getItemName apTarget) crc16) in
    getParentFolderPath apTarget = Some parentPath /\
    copyFilePlain apSource attrSource copyFilePermissions apTargetTmp s = (Ok result, s1) /\
    invoke onDeleteTargetFile s1 = (Ok tt, s2) /\
    drvMoveAndRenameItem apTargetTmp apTarget (dev s2) = (Ok tt, d3) /\
    s' = mkState d3 (log s2 ++ [CallMoveAndRenameItem apTargetTmp apTarget]).
Proof.
  unfold copyFileTransactional.
  destruct (getParentFolderPath apTarget) as [parentPath |] eqn:Hparent; [|discriminate].
  set (apTargetTmp := appendRelPath parentPath (tempFileName (getItemName apTarget) crc16)).
  unfold bind at 1.
  destruct (copyFilePlain apSource attrSource copyFilePermissions apTargetTmp s)
    as [[result' | e | ] s1] eqn:Hcopy; try discriminate.
  unfold on_scope_fail. rewrite copyFileTransactional_tail. unfold bind.
  destruct (invoke onDeleteTargetFile s1) as [[[] | e | ] s2] eqn:Hdelete.
  - unfold moveAndRenameItem, call.
    destruct (drvMoveAndRenameItem apTargetTmp apTarget (dev s2)) as [[[] | e | ] d3] eqn:Hrename.
    + intros Hrun. injection Hrun as Hresult Hs'. subst result' s'.
      exists parentPath, s1, s2, d3. repeat split; assumption.
    + destruct (try_catch (removeFilePlain apTargetTmp) (fun _ => ret tt) _) as [[[] | e' | ] s4];
        discriminate.
    + discriminate.
  - destruct (try_catch (removeFilePlain apTargetTmp) (fun _ => ret tt) s2) as [[[] | e' | ] s4];
      discriminate.
  - discriminate.
Qed.

(** X10. Once the copy to the temporary path is done, a transactional copy
    that fails takes the temporary file away: whether the callback or the
    rename throws, [removeFilePlain] is called for the temporary path as the
    one further call, what that call throws is swallowed, and the error that
    leaves is the one of the callback or the rename. *)
Theorem copyFileTransactional_failure_removes_temporary
    apSource attrSource apTarget copyFilePermissions onDeleteTargetFile crc16
    (s s1 s2 : State Dev) parentPath result e :
  let apTargetTmp := appendRelPath parentPath (tempFileName (getItemName apTarget) crc16) in
  getParentFolderPath apTarget = Some parentPath ->
  copyFilePlain apSource attrSource copyFilePermissions apTargetTmp s = (Ok result, s1) ->
  (invoke onDeleteTargetFile ;;; moveAndRenameItem apTargetTmp apTarget) s1 = (Throw e, s2) ->
  fst (drvRemoveFilePlain apTargetTmp (dev s2)) <> Diverge ->
  copyFileTransactional apSource attrSource apTarget copyFilePermissions true
    onDeleteTargetFile crc16 s
  = (Throw e,
     mkState (snd (drvRemoveFilePlain apTargetTmp (dev s2)))
             (log s2 ++ [CallRemoveFilePlain apTargetTmp])).
Proof.
  intros apTargetTmp Hparent Hcopy Hrest Hremove.
  unfold copyFileTransactional. rewrite Hparent. fold apTargetTmp.
  unfold bind at 1. rewrite Hcopy.
  unfold on_scope_fail. rewrite copyFileTransactional_tail, Hrest.
  unfold try_catch, removeFilePlain, call, ret.
  destruct (drvRemoveFilePlain apTargetTmp (dev s2)) as [[[] | e' | ] d4]; cbn [fst snd] in *;
    try contradiction; reflexivity.
Qed.

End TransactionalCopySteps.

Section TransactionalCopyStepsOnSample.
#[local] Existing Instance MemFs.driver.

(** A copy onto the root of the disk, and a copy of permissions from the FTP
    server to the disk: both are refused with the folders as they were and
    nothing logged. *)
Lemma copyFileTransactional_refused_untouched_witness :
  let source := Sample.at_ Sample.ftp "src.txt" in
  let target := Sample.at_ Sample.disk "base/copy.txt" in
  let temporary := Sample.at_ Sample.disk "base/copy.1a2b.ffs_tmp" in
  copyFileTransactional source Sample.currentAttributes (Sample.at_ Sample.disk "") false true
    None 6699 Sample.initial
  = (Throw (PathIsDeviceRoot (Sample.at_ Sample.disk "")), Sample.initial) /\
  copyFileTransactional source Sample.currentAttributes target true true None 6699 Sample.initial
  = (Throw (PermissionsNotSupported temporary), Sample.initial).
Proof.
  intros source target temporary. split.
  - exact (proj1 (copyFileTransactional_refused_untouched source Sample.currentAttributes
                    (Sample.at_ Sample.disk "") false None 6699 Sample.initial) eq_refl).
  - exact (proj2 (copyFileTransactional_refused_untouched source Sample.currentAttributes
                    target true None 6699 Sample.initial)
                 (Sample.at_ Sample.disk "base") eq_refl eq_refl).
Defined.

(** The same request without the transaction, for the existing file
    [base/dir/f.txt] and a callback that deletes it: the copy is refused, and
    the file is gone. *)
Lemma copyFileTransactional_plain_deletes_first_witness :
  let source := Sample.at_ Sample.ftp "src.txt" in
  let target := Sample.at_ Sample.disk "base/dir/f.txt" in
  let run := copyFileTransactional source Sample.currentAttributes target true false
               (Some (removeFilePlain target)) 6699 Sample.initial in
  MemFs.lookup target (dev Sample.initial) = Some (MemFs.File 10 5) /\
  fst run = Throw (PermissionsNotSupported target) /\
  MemFs.lookup target (dev (snd run)) = None.
Proof.
  intros source target run. subst run.
  rewrite (copyFileTransactional_plain_deletes_first source Sample.currentAttributes target
             (Some (removeFilePlain target)) 6699 Sample.initial eq_refl).
  vm_compute. repeat split.
Defined.

(** A transactional copy of [src.txt] from the FTP server to the disk: it
    returns, and the last call renames the temporary file to the target. *)
Lemma copyFileTransactional_success_steps_witness :
  let source := Sample.at_ Sample.ftp "src.txt" in
  let target := Sample.at_ Sample.disk "base/copy.txt" in
  let temporary := Sample.at_ Sample.disk "base/copy.1a2b.ffs_tmp" in
  exists result s' s2 d3,
    copyFileTransactional source Sample.currentAttributes target false true None 6699
      Sample.initial = (Ok result, s') /\
    drvMoveAndRenameItem temporary target (dev s2) = (Ok tt, d3) /\
    s' = mkState d3 (log s2 ++ [CallMoveAndRenameItem temporary target]).
Proof.
  intros source target temporary.
  destruct (copyFileTransactional source Sample.currentAttributes target false true None 6699
              Sample.initial) as [[result | e | ] s'] eqn:Hrun;
    try (vm_compute in Hrun; discriminate).
  destruct (copyFileTransactional_success_steps _ _ _ _ _ _ _ _ _ Hrun)
    as (parentPath & s1 & s2 & d3 & Hparent & _ & _ & Hrename & Hs').
  vm_compute in Hparent. injection Hparent as Hparent. subst parentPath.
  exists result, s', s2, d3. split; [reflexivity | split; [exact Hrename | exact Hs']].
Defined.

(** The same copy with a callback that fails (it deletes a target that is
    not there): the temporary file is removed again, and the error of the
    callback leaves. *)
Lemma copyFileTransactional_failure_removes_temporary_witness :
  let source := Sample.at_ Sample.ftp "src.txt" in
  let target := Sample.at_ Sample.disk "base/copy.txt" in
  let temporary := Sample.at_ Sample.disk "base/copy.1a2b.ffs_tmp" in
  let run := copyFileTransactional source Sample.currentAttributes target false true
               (Some (removeFilePlain target)) 6699 Sample.initial in
  fst run = Throw MemFs.notFound /\
  MemFs.lookup temporary (dev (snd run)) = None /\
  In (CallFinalize temporary) (log (snd run)).
Proof.
  intros source target temporary run. subst run.
  pose (s1 := snd (copyFilePlain source Sample.currentAttributes false temporary Sample.initial)).
  pose (s2 := snd ((invoke (Some (removeFilePlain target)) ;;;
                    moveAndRenameItem temporary target) s1)).
  rewrite (copyFileTransactional_failure_removes_temporary
             source Sample.currentAttributes target false (Some (removeFilePlain target)) 6699
             Sample.initial s1 s2 (Sample.at_ Sample.disk "base")
             (FileCopyResult.mk 1005 77 "now" "base/copy.1a2b.ffs_tmp" None) MemFs.notFound);
    [| reflexivity | vm_compute; reflexivity | vm_compute; reflexivity
     | vm_compute; discriminate ].
  vm_compute. split; [reflexivity | split; [reflexivity | tauto]].
Defined.

End TransactionalCopyStepsOnSample.

(* ===================================================================== *)
(** * Further properties: failures of the stream copy *)
(* ===================================================================== *)

Section StreamCopyFailures.
Context {Dev : Type} {driver : AfsDriver Dev}.

(** X11. When the source cannot be opened, or the attributes of the opened
    stream cannot be read, [copyFileAsStream] throws that error without
    having called anything for the target: no output stream is opened. An
    input stream that was opened is closed. *)
Theorem copyFileAsStream_source_failure_spares_target
    apSource attrSource apTarget (s : State Dev) :
  (forall e d1,
     drvGetInputStream apSource (dev s) = (Throw e, d1) ->
     copyFileAsStream apSource attrSource apTarget s
     = (Throw e, mkState d1 (log s ++ [CallGetInputStream apSource]))) /\
  (forall streamIn io1 d1 e d2,
     drvGetInputStream apSource (dev s) = (Ok (streamIn, io1), d1) ->
     drvGetAttributesBuffered streamIn d1 = (Throw e, d2) ->
     copyFileAsStream apSource attrSource apTarget s
     = (Throw e,
        mkState (drvCloseInputStream streamIn d2)
                (log s ++ [CallGetInputStream apSource;
                           CallGetAttributesBuffered (inPath streamIn);
                           CloseInputStream (inPath streamIn)]))).
Proof.
  split.
  - intros e d1 Hin. unfold copyFileAsStream.
    unfold bind at 1. unfold getInputStream, call at 1. rewrite Hin. reflexivity.
  - intros streamIn io1 d1 e d2 Hin Hattr. unfold copyFileAsStream.
    unfold bind at 1. unfold getInputStream, call at 1. rewrite Hin.
    unfold with_destructor at 1.
    unfold bind at 1. unfold getAttributesBuffered, call at 1. cbn [dev log].
    rewrite Hattr. unfold closeInputStream. cbn [dev log].
    rewrite <- !app_assoc. reflexivity.
Qed.

(** X12. Once both streams are open, however [copyFileAsStream] ends (with
    its result or with an error of the pump, of [finalize], of the byte
    count check), the two streams are closed, the output stream first and
    the input stream last. *)
Theorem copyFileAsStream_closes_streams
    apSource attrSource apTarget (s s' : State Dev) r streamIn io1 d1 attr d2 streamOut io2 d3 :
  drvGetInputStream apSource (dev s) = (Ok (streamIn, io1), d1) ->
  drvGetAttributesBuffered streamIn d1 = (Ok attr, d2) ->
  drvGetOutputStream apTarget
    (Some (StreamAttributes.fileSize (chooseAttributes attr attrSource))) d2
    = (Ok (streamOut, io2), d3) ->
  copyFileAsStream apSource attrSource apTarget s = (r, s') ->
  r <> Diverge ->
  exists s'', s' = closeInputStream streamIn (closeOutputStream streamOut s'').
Proof.
  intros Hin Hattr Hout. unfold copyFileAsStream.
  unfold bind at 1. unfold getInputStream, call at 1. rewrite Hin.
  unfold with_destructor at 1.
  unfold bind at 1. unfold getAttributesBuffered, call at 1. cbn [dev log]. rewrite Hattr.
  unfold bind at 1. unfold getOutputStream, call at 1. cbn [dev log]. rewrite Hout.
  unfold with_destructor at 1.
  match goal with
  | |- (match (match ?body ?st with _ => _ end) with _ => _ end) = _ -> _ =>
      destruct (body st) as [[result | e | ] s''] eqn:Hbody
  end.
  - intros Hrun _. injection Hrun as _ Hs'. exists s''. symmetry. exact Hs'.
  - intros Hrun _. injection Hrun as _ Hs'. exists s''. symmetry. exact Hs'.
  - intros Hrun Hr. injection Hrun as Hdiv _. subst r. contradiction.
Qed.

(** X13. A stream copy that throws has not set the modification time of
    the target: every error of [copyFileAsStream] leaves before
    [setModTime] is called, whose own error is kept in the result
    instead. *)
Theorem copyFileAsStream_throws_before_setModTime
    apSource attrSource apTarget (s s' : State Dev) e :
  copyFileAsStream apSource attrSource apTarget s = (Throw e, s') ->
  exists calls,
    log s' = (log s ++ calls)%list /\
    forall ap modTime, ~ In (CallSetModTime ap modTime) calls.
Proof.
  unfold copyFileAsStream.
  unfold bind at 1. unfold getInputStream, call at 1.
  destruct (drvGetInputStream apSource (dev s)) as [[[streamIn io1] | e1 | ] d1] eqn:Hin.
  2: { intros Hrun. injection Hrun as _ Hs'. subst s'. eexists. split; [reflexivity|].
       cbn. intros ap modTime [Hev | []]. discriminate. }
  2: discriminate.
  unfold with_destructor at 1.
  unfold bind at 1. unfold getAttributesBuffered, call at 1. cbn [dev log].
  destruct (drvGetAttributesBuffered streamIn d1) as [[attr | e2 | ] d2] eqn:Hattr.
  2: { intros Hrun. injection Hrun as _ Hs'. subst s'. unfold closeInputStream. cbn [dev log].
       rewrite <- !app_assoc. eexists. split; [reflexivity|].
       cbn. intros ap modTime Hev. intuition discriminate. }
  2: discriminate.
  unfold bind at 1. unfold getOutputStream, call at 1. cbn [dev log].
  destruct (drvGetOutputStream apTarget
              (Some (StreamAttributes.fileSize (chooseAttributes attr attrSource))) d2)
    as [[[streamOut io2] | e3 | ] d3] eqn:Hout.
  2: { intros Hrun. injection Hrun as _ Hs'. subst s'. unfold closeInputStream. cbn [dev log].
       rewrite <- !app_assoc. eexists. split; [reflexivity|].
       cbn. intros ap modTime Hev. intuition discriminate. }
  2: discriminate.
  unfold with_destructor at 1.
  unfold bind at 1. unfold bufferedStreamCopy, call at 1. cbn [dev log].
  destruct (drvBufferedStreamCopy streamIn streamOut d3) as [[io3 | e4 | ] d4] eqn:Hcopy.
  2: { intros Hrun. injection Hrun as _ Hs'. subst s'.
       unfold closeInputStream, closeOutputStream. cbn [dev log].
       rewrite <- !app_assoc. eexists. split; [reflexivity|].
       cbn. intros ap modTime Hev. intuition discriminate. }
  2: discriminate.
  unfold bind at 1. unfold finalize, call at 1. cbn [dev log].
  destruct (drvFinalize streamOut d4) as [[[targetFileId io4] | e5 | ] d5] eqn:Hfin.
  2: { intros Hrun. injection Hrun as _ Hs'. subst s'.
       unfold closeInputStream, closeOutputStream. cbn [dev log].
       rewrite <- !app_assoc. eexists. split; [reflexivity|].
       cbn. intros ap modTime Hev. intuition discriminate. }
  2: discriminate.
  match goal with
  | |- context [if ?check then _ else _] => destruct check
  end.
  - unfold throw. intros Hrun. injection Hrun as _ Hs'. subst s'.
    unfold closeInputStream, closeOutputStream. cbn [dev log].
    rewrite <- !app_assoc. eexists. split; [reflexivity|].
    cbn. intros ap modTime Hev. intuition discriminate.
  - unfold bind at 1. unfold try_catch, bind, setModTime, call, ret. cbn [dev log].
    destruct (drvSetModTime apTarget
                (StreamAttributes.modTime (chooseAttributes attr attrSource)) d5)
      as [[[] | e6 | ] d6]; discriminate.
Qed.

End StreamCopyFailures.

Section StreamCopyFailuresOnSample.

(** A copy of a file that is not on the FTP server, and a copy from a device
    that is unplugged after the open: the error leaves, and no call is made
    for the target. *)
Lemma copyFileAsStream_source_failure_spares_target_witness :
  let missing := Sample.at_ Sample.ftp "missing.txt" in
  let source := Sample.at_ Sample.ftp "src.txt" in
  let target := Sample.at_ Sample.disk "base/copy.txt" in
  copyFileAsStream (driver := MemFs.driver) missing Sample.currentAttributes target Sample.initial
  = (Throw MemFs.notFound, mkState Sample.device [CallGetInputStream missing]) /\
  copyFileAsStream (driver := Unplugged.driver) source Sample.currentAttributes target
    Sample.initial
  = (Throw MemFs.notFound,
     mkState Sample.device
       [CallGetInputStream source; CallGetAttributesBuffered source; CloseInputStream source]).
Proof.
  intros missing source target. split.
  - exact (proj1 (copyFileAsStream_source_failure_spares_target (driver := MemFs.driver)
                    missing Sample.currentAttributes target Sample.initial)
                 MemFs.notFound Sample.device eq_refl).
  - exact (proj2 (copyFileAsStream_source_failure_spares_target (driver := Unplugged.driver)
                    source Sample.currentAttributes target Sample.initial)
                 (mkInputStream source 0) [] Sample.device MemFs.notFound Sample.device
                 eq_refl eq_refl).
Defined.

(** The copy from the phone, which fails the byte count check after
    [finalize]: both streams are closed. *)
Lemma copyFileAsStream_closes_streams_witness :
  let source := Sample.at_ Sample.phone "rec.wav" in
  let target := Sample.at_ Sample.disk "base/copy.txt" in
  let run := copyFileAsStream (driver := MemFs.driver) source Sample.currentAttributes target
               Sample.initial in
  fst run = Throw (UnexpectedStreamSize (mkAfsPath "rec.wav") 2010 1005) /\
  exists s'',
    snd run = closeInputStream (driver := MemFs.driver) (mkInputStream source 0)
                (closeOutputStream (driver := MemFs.driver) (mkOutputStream target 0) s'').
Proof.
  intros source target run. split; [reflexivity|].
  refine (copyFileAsStream_closes_streams (driver := MemFs.driver)
            source Sample.currentAttributes target Sample.initial (snd run) (fst run)
            (mkInputStream source 0) [] Sample.device None Sample.device
            (mkOutputStream target 0) []
            (snd (MemFs.mGetOutputStream target (Some 1005) Sample.device)) _ _ _ _ _).
  - reflexivity.
  - reflexivity.
  - reflexivity.
  - vm_compute. reflexivity.
  - vm_compute. discriminate.
Defined.

Lemma copyFileAsStream_throws_before_setModTime_witness :
  let source := Sample.at_ Sample.phone "rec.wav" in
  let target := Sample.at_ Sample.disk "base/copy.txt" in
  exists e s' calls,
    copyFileAsStream (driver := MemFs.driver) source Sample.currentAttributes target
      Sample.initial = (Throw e, s') /\
    log s' = (log Sample.initial ++ calls)%list /\
    forall ap modTime, ~ In (CallSetModTime ap modTime) calls.
Proof.
  intros source target.
  destruct (copyFileAsStream (driver := MemFs.driver) source Sample.currentAttributes target
              Sample.initial) as [[r | e | ] s'] eqn:Hrun;
    try (vm_compute in Hrun; discriminate).
  destruct (copyFileAsStream_throws_before_setModTime (driver := MemFs.driver) _ _ _ _ _ _ Hrun)
    as (calls & Hlog & Hnone).
  exists e, s', calls. split; [reflexivity | split; [exact Hlog | exact Hnone]].
Defined.

End StreamCopyFailuresOnSample.

(* ===================================================================== *)
(** * Further properties: the path status by folder traversal *)
(* ===================================================================== *)

Section ResolverReads.
Context {Dev : Type} {driver : AfsDriver Dev}.

Lemma getPathStatusViaFolderTraversal_rec_names (n : nat) :
  forall this p (s s' : State Dev) ps,
    getPathStatusViaFolderTraversal_rec n this p s = (Ok ps, s') ->
    Forall (fun itemName => Zen.containsChar itemName FILE_NAME_SEPARATOR = false)
           (PathStatusImpl.relPath ps).
Proof.
  induction n as [| n IH]; intros this p s s' ps Hrun; [discriminate|].
  cbn [getPathStatusViaFolderTraversal_rec] in Hrun.
  unfold getPathStatusViaFolderTraversal_body, try_catch in Hrun.
  unfold bind at 1 in Hrun.
  destruct (getItemType (mkAbstractPath this p) s) as [[type | e | ] s1]; cbn [ret] in Hrun.
  - injection Hrun as Hps _. subst ps. constructor.
  - destruct (getParentAfsPath p) as [q |] eqn:Hq; [|discriminate].
    unfold bind at 1 in Hrun.
    destruct (getPathStatusViaFolderTraversal_rec n this q s1) as [[psq | e' | ] s2] eqn:Hparent;
      try discriminate.
    pose proof (IH _ _ _ _ _ Hparent) as Hnames.
    assert (Hpush : Forall (fun itemName => Zen.containsChar itemName FILE_NAME_SEPARATOR = false)
                      (PathStatusImpl.relPath (pushBackRelPath psq (getItemNameAfs p)))).
    { unfold pushBackRelPath. cbn [PathStatusImpl.relPath].
      apply Forall_app. split; [exact Hnames|].
      constructor; [apply getItemNameAfs_no_separator | constructor]. }
    destruct (isEmpty (PathStatusImpl.relPath psq) &&
              negb (ItemType_eqb (PathStatusImpl.existingType psq) FILE)).
    + unfold bind in Hrun.
      destruct (traverseFolderFlat (mkAbstractPath this q) _ _ _ tt s2) as [[[[] | type] | e' | ] s3];
        try discriminate; injection Hrun as Hps _; subst ps; [exact Hpush | constructor].
    + injection Hrun as Hps _. subst ps. exact Hpush.
  - discriminate.
Qed.

Lemma getPathStatusViaFolderTraversal_rec_queries (n : nat) :
  forall this p (s s' : State Dev) r,
    getPathStatusViaFolderTraversal_rec n this p s = (r, s') ->
    exists calls,
      log s' = (log s ++ calls)%list /\
      Forall (fun ev => match ev with
                        | CallGetItemType ap | CallTraverseFolder ap _ => afs ap = this
                        | _ => False
                        end) calls.
Proof.
  induction n as [| n IH]; intros this p s s' r Hrun.
  - injection Hrun as _ Hs. subst s'. exists []. rewrite app_nil_r. split; constructor.
  - cbn [getPathStatusViaFolderTraversal_rec] in Hrun.
    unfold getPathStatusViaFolderTraversal_body, try_catch in Hrun.
    unfold bind at 1 in Hrun. unfold getItemType, call in Hrun.
    destruct (drvGetItemType (mkAbstractPath this p) (dev s)) as [[type | e | ] d1];
      cbn [dev log ret] in Hrun.
    + injection Hrun as _ Hs. subst s'. eexists. split; [reflexivity|].
      repeat constructor.
    + destruct (getParentAfsPath p) as [q |] eqn:Hq.
      * unfold bind at 1 in Hrun.
        destruct (getPathStatusViaFolderTraversal_rec n this q
                    (mkState d1 (log s ++ [CallGetItemType (mkAbstractPath this p)])))
          as [[ps | e' | ] s2] eqn:Hparent;
          destruct (IH _ _ _ _ _ Hparent) as (calls & Hlog & Hcalls); cbn [log] in Hlog;
          assert (Hcalls' : Forall (fun ev => match ev with
                        | CallGetItemType ap | CallTraverseFolder ap _ => afs ap = this
                        | _ => False
                        end) (CallGetItemType (mkAbstractPath this p) :: calls))
            by (constructor; [reflexivity | exact Hcalls]).
        -- destruct (isEmpty (PathStatusImpl.relPath ps) &&
                     negb (ItemType_eqb (PathStatusImpl.existingType ps) FILE)).
           ++ unfold bind, traverseFolderFlat in Hrun.
              destruct (drvTraverseFolder (mkAbstractPath this q) (dev s2)) as [[items err] d3].
              exists ((CallGetItemType (mkAbstractPath this p) :: calls)
                      ++ [CallTraverseFolder (mkAbstractPath this q) items])%list.
              split.
              ** assert (Hs : log s' = (log s2 ++ [CallTraverseFolder (mkAbstractPath this q) items])%list).
                 { destruct (deliver _ _ _ items tt) as [[] | type];
                     [destruct err|]; injection Hrun as _ Hs; subst s'; reflexivity. }
                 rewrite Hs, Hlog. rewrite <- !app_assoc. reflexivity.
              ** apply Forall_app. split; [exact Hcalls'|].
                 constructor; [reflexivity | constructor].
           ++ injection Hrun as _ Hs. subst s'.
              exists (CallGetItemType (mkAbstractPath this p) :: calls).
              split; [rewrite Hlog, <- app_assoc; reflexivity | exact Hcalls'].
        -- injection Hrun as _ Hs. subst s'.
           exists (CallGetItemType (mkAbstractPath this p) :: calls).
           split; [rewrite Hlog, <- app_assoc; reflexivity | exact Hcalls'].
        -- injection Hrun as _ Hs. subst s'.
           exists (CallGetItemType (mkAbstractPath this p) :: calls).
           split; [rewrite Hlog, <- app_assoc; reflexivity | exact Hcalls'].
      * injection Hrun as _ Hs. subst s'. eexists. split; [reflexivity|].
        repeat constructor.
    + injection Hrun as _ Hs. subst s'. eexists. split; [reflexivity|].
      repeat constructor.
Qed.

(** X14. [getPathStatusViaFolderTraversal] only reads: whatever it answers,
    every call it makes is a type query or a folder listing on the driver it
    was called on. It creates, removes, renames and writes nothing. *)
Theorem getPathStatusViaFolderTraversal_only_reads this p (s s' : State Dev) r :
  getPathStatusViaFolderTraversal this p s = (r, s') ->
  exists calls,
    log s' = (log s ++ calls)%list /\
    Forall (fun ev => match ev with
                      | CallGetItemType ap | CallTraverseFolder ap _ => afs ap = this
                      | _ => False
                      end) calls.
Proof. apply getPathStatusViaFolderTraversal_rec_queries. Qed.

(** X15. The status [getPathStatusViaFolderTraversal] answers for a path
    that does not start with a separator splits that path: the missing
    names, joined below the existing path, give the path that was asked
    for, and no missing name holds a separator. With no missing name the
    existing path is the path itself. *)
Theorem getPathStatusViaFolderTraversal_splits_path this p (s s' : State Dev) ps :
  Zen.startsWithChar (value p) FILE_NAME_SEPARATOR = false ->
  getPathStatusViaFolderTraversal this p s = (Ok ps, s') ->
  joinRelPathComponents (PathStatusImpl.existingAfsPath ps) (PathStatusImpl.relPath ps) = p /\
  Forall (fun itemName => Zen.containsChar itemName FILE_NAME_SEPARATOR = false)
         (PathStatusImpl.relPath ps) /\
  (PathStatusImpl.relPath ps = [] -> PathStatusImpl.existingAfsPath ps = p).
Proof.
  intros Hstart Hrun.
  pose proof (getPathStatusViaFolderTraversal_rec_joins _ _ _ _ _ _ Hstart Hrun) as Hjoin.
  split; [exact Hjoin|].
  split; [exact (getPathStatusViaFolderTraversal_rec_names _ _ _ _ _ _ Hrun)|].
  intros Hnone. rewrite Hnone in Hjoin. exact Hjoin.
Qed.

End ResolverReads.

Section ResolverReadsOnSample.
#[local] Existing Instance MemFs.driver.

(** Asking for [base/new/deep] on the disk: the queries for it and for
    [base/new] fail, [base] is found and listed; the device is as it was,
    and the status splits the path after [base]. *)
Lemma getPathStatusViaFolderTraversal_only_reads_witness :
  let run := getPathStatusViaFolderTraversal Sample.disk (mkAfsPath "base/new/deep") Sample.initial in
  fst run = Ok (PathStatusImpl.mk FOLDER (mkAfsPath "base") ["new"; "deep"]) /\
  dev (snd run) = Sample.device /\
  exists calls,
    log (snd run) = (log Sample.initial ++ calls)%list /\
    Forall (fun ev => match ev with
                      | CallGetItemType ap | CallTraverseFolder ap _ => afs ap = Sample.disk
                      | _ => False
                      end) calls.
Proof.
  intros run. split; [reflexivity | split; [reflexivity|]].
  apply (getPathStatusViaFolderTraversal_only_reads Sample.disk (mkAfsPath "base/new/deep")
           Sample.initial (snd run) (fst run)).
  vm_compute. reflexivity.
Defined.

Lemma getPathStatusViaFolderTraversal_splits_path_witness :
  exists ps s',
    getPathStatusViaFolderTraversal Sample.disk (mkAfsPath "base/new/deep") Sample.initial
      = (Ok ps, s') /\
    PathStatusImpl.relPath ps = ["new"; "deep"] /\
    joinRelPathComponents (PathStatusImpl.existingAfsPath ps) (PathStatusImpl.relPath ps)
      = mkAfsPath "base/new/deep".
Proof.
  destruct (getPathStatusViaFolderTraversal Sample.disk (mkAfsPath "base/new/deep") Sample.initial)
    as [[ps | e | ] s'] eqn:Hrun; try (vm_compute in Hrun; discriminate).
  exists ps, s'. split; [reflexivity|].
  split.
  - vm_compute in Hrun. injection Hrun as Hps _. subst ps. reflexivity.
  - exact (proj1 (getPathStatusViaFolderTraversal_splits_path
                    Sample.disk (mkAfsPath "base/new/deep") Sample.initial s' ps eq_refl Hrun)).
Defined.

End ResolverReadsOnSample.

(* ===================================================================== *)
(** * Further properties: what a recursive removal does not touch *)
(* ===================================================================== *)

Section RemovalEdges.
Context {Dev : Type} {backend : AfsBackend Dev}.

(** X16. [removeFolderIfExistsRecursion] on a path that is a symlink removes
    the link and does not follow it: after the check of the type, the file
    observer is told the path (when set), [removeSymlinkPlain] is called, and
    that is all. Nothing is listed, the folder observer is not called, and
    the outcome is the one of [removeSymlinkPlain]. *)
Theorem removeFolderIfExistsRecursion_symlink_not_followed
    (fuel : nat) (ap : AbstractPath) (notifyFile notifyFolder : bool)
    (s s1 : State Dev) r d2 :
  getItemTypeIfExists ap s = (Ok (Some SYMLINK), s1) ->
  drvRemoveSymlinkPlain ap (dev s1) = (r, d2) ->
  removeFolderIfExistsRecursion fuel ap
    (observerIf notifyFile recordFileDeletion)
    (observerIf notifyFolder recordFolderDeletion) s
  = (r, mkState d2 (log s1 ++ announce notifyFile NotifyBeforeFileDeletion ap
                           ++ [CallRemoveSymlinkPlain ap])).
Proof.
  intros Htype Hremove. unfold removeFolderIfExistsRecursion.
  unfold bind at 1. rewrite Htype. cbn [ItemType_eqb].
  unfold bind, removeSymlinkPlain, call, announce.
  destruct notifyFile; unfold observerIf, notify, recordFileDeletion, emit, ret;
    cbn [dev log app]; rewrite Hremove; [rewrite <- app_assoc |]; reflexivity.
Qed.

(** X17. The names of a folder are collected before anything is removed:
    when the listing of the path ends with an error, even after it has
    delivered items, [removeFolderIfExistsRecursion] throws that error with
    the listing as its one call after the check of the type. No observer is
    called and nothing is removed. This is also what happens for a path that
    is a plain file. *)
Theorem removeFolderIfExistsRecursion_listing_error_removes_nothing
    (fuel : nat) (ap : AbstractPath) (onBeforeFileDeletion onBeforeFolderDeletion : Observer)
    (s s1 : State Dev) type items e d2 :
  getItemTypeIfExists ap s = (Ok (Some type), s1) ->
  type <> SYMLINK ->
  drvTraverseFolder ap (dev s1) = ((items, Some e), d2) ->
  removeFolderIfExistsRecursion (S fuel) ap onBeforeFileDeletion onBeforeFolderDeletion s
  = (Throw e, mkState d2 (log s1 ++ [CallTraverseFolder ap items])).
Proof.
  intros Htype Hnolink Hlist. unfold removeFolderIfExistsRecursion.
  unfold bind at 1. rewrite Htype.
  assert (Hne : ItemType_eqb type SYMLINK = false)
    by (destruct type; [reflexivity | reflexivity | contradiction]).
  rewrite Hne. cbn [removeFolderRecursionImpl].
  unfold bind at 1. unfold traverseFolderFlat. rewrite Hlist.
  destruct (deliver pushFileName pushFolderName pushSymlinkName items ([], [], []))
    as [names | []].
  reflexivity.
Qed.

End RemovalEdges.

Section RemovalEdgesOnSample.
#[local] Existing Instance MemFs.driver.
#[local] Existing Instance MemFs.backend.

(** The symlink [base/dir/lnk] of the sample disk: one query finds it, the
    observer is told, the link is removed. *)
Lemma removeFolderIfExistsRecursion_symlink_not_followed_witness :
  let link := Sample.at_ Sample.disk "base/dir/lnk" in
  let run := removeFolderIfExistsRecursion (backend := MemFs.backend) 0 link
               (observerIf true recordFileDeletion) (observerIf true recordFolderDeletion)
               Sample.initial in
  run = (Ok tt,
         mkState (MemFs.remove link Sample.device)
           [CallGetItemType link;
            NotifyBeforeFileDeletion "disk/base/dir/lnk";
            CallRemoveSymlinkPlain link]).
Proof.
  intros link run. subst run.
  rewrite (removeFolderIfExistsRecursion_symlink_not_followed (backend := MemFs.backend)
             0 link true true Sample.initial
             (mkState Sample.device [CallGetItemType link])
             (Ok tt) (MemFs.remove link Sample.device));
    [reflexivity | reflexivity | reflexivity].
Defined.

(** The plain file [base/dir/f.txt]: it cannot be listed, the error of the
    listing leaves, and the file stays. *)
Lemma removeFolderIfExistsRecursion_listing_error_removes_nothing_witness :
  let file := Sample.at_ Sample.disk "base/dir/f.txt" in
  let run := removeFolderIfExistsRecursion (backend := MemFs.backend) 5 file
               recordFileDeletion recordFolderDeletion Sample.initial in
  run = (Throw MemFs.wrongType,
         mkState Sample.device [CallGetItemType file; CallTraverseFolder file []]).
Proof.
  intros file run. subst run.
  rewrite (removeFolderIfExistsRecursion_listing_error_removes_nothing (backend := MemFs.backend)
             4 file recordFileDeletion recordFolderDeletion Sample.initial
             (mkState Sample.device [CallGetItemType file])
             FILE [] MemFs.wrongType Sample.device);
    [reflexivity | reflexivity | discriminate | reflexivity].
Defined.

End RemovalEdgesOnSample.

Section RemovalStaysBelow.
Context {Dev : Type} {backend : AfsBackend Dev}.

Lemma isAtOrBelow_refl (ap : AbstractPath) : isAtOrBelow ap ap.
Proof. exists []. reflexivity. Qed.

Lemma isAtOrBelow_child (ap : AbstractPath) (itemName : Zstring) :
  isAtOrBelow ap (appendRelPath ap itemName).
Proof. exists [itemName]. reflexivity. Qed.

Lemma isAtOrBelow_step (ap x : AbstractPath) (itemName : Zstring) :
  isAtOrBelow (appendRelPath ap itemName) x -> isAtOrBelow ap x.
Proof. intros [names Hx]. exists (itemName :: names). exact Hx. Qed.

Lemma staysAtOrBelow_step (ap : AbstractPath) (itemName : Zstring) (ev : Event) :
  staysAtOrBelow (appendRelPath ap itemName) ev -> staysAtOrBelow ap ev.
Proof. destruct ev; cbn; trivial; apply isAtOrBelow_step. Qed.

Lemma forEach_calls {A} (Q : Event -> Prop) (body : A -> M Dev unit) (l : list A) :
  (forall x (s s' : State Dev) r, In x l -> body x s = (r, s') ->
     exists calls, log s' = (log s ++ calls)%list /\ Forall Q calls) ->
  forall (s s' : State Dev) r, forEach l body s = (r, s') ->
    exists calls, log s' = (log s ++ calls)%list /\ Forall Q calls.
Proof.
  induction l as [| x rest IH]; intros Hbody s s' r Hrun.
  - injection Hrun as _ Hs. subst s'. exists []. rewrite app_nil_r. split; constructor.
  - cbn [forEach] in Hrun. unfold bind in Hrun.
    destruct (body x s) as [[[] | e | ] s1] eqn:Hx;
      destruct (Hbody x s s1 _ (or_introl eq_refl) Hx) as (calls1 & Hlog1 & Hcalls1).
    + destruct (IH (fun y st st' res Hin => Hbody y st st' res (or_intror Hin)) s1 s' r Hrun)
        as (calls2 & Hlog2 & Hcalls2).
      exists (calls1 ++ calls2)%list. split.
      * rewrite Hlog2, Hlog1, app_assoc. reflexivity.
      * apply Forall_app. split; assumption.
    + injection Hrun as _ Hs. subst s'. exists calls1. split; assumption.
    + injection Hrun as _ Hs. subst s'. exists calls1. split; assumption.
Qed.

Lemma bind_calls {A B} (Q : Event -> Prop) (m : M Dev A) (k : A -> M Dev B) :
  (forall (s s' : State Dev) r, m s = (r, s') ->
     exists calls, log s' = (log s ++ calls)%list /\ Forall Q calls) ->
  (forall a (s s' : State Dev) r, k a s = (r, s') ->
     exists calls, log s' = (log s ++ calls)%list /\ Forall Q calls) ->
  forall (s s' : State Dev) r, bind m k s = (r, s') ->
    exists calls, log s' = (log s ++ calls)%list /\ Forall Q calls.
Proof.
  intros Hm Hk s s' r Hrun. unfold bind in Hrun.
  destruct (m s) as [[a | e | ] s1] eqn:Hfirst;
    destruct (Hm s s1 _ Hfirst) as (calls1 & Hlog1 & Hcalls1).
  - destruct (Hk a s1 s' r Hrun) as (calls2 & Hlog2 & Hcalls2).
    exists (calls1 ++ calls2)%list. split.
    + rewrite Hlog2, Hlog1, app_assoc. reflexivity.
    + apply Forall_app. split; assumption.
  - injection Hrun as _ Hs. subst s'. exists calls1. split; assumption.
  - injection Hrun as _ Hs. subst s'. exists calls1. split; assumption.
Qed.

Lemma call_calls {A} (Q : Event -> Prop) (ev : Event) (op : Dev -> Outcome A * Dev) :
  Q ev ->
  forall (s s' : State Dev) r, call ev op s = (r, s') ->
    exists calls, log s' = (log s ++ calls)%list /\ Forall Q calls.
Proof.
  intros Hev s s' r Hrun. unfold call in Hrun.
  destruct (op (dev s)) as [r0 d]. injection Hrun as _ Hs. subst s'.
  exists [ev]. split; [reflexivity | constructor; [exact Hev | constructor]].
Qed.

Lemma notify_calls (Q : Event -> Prop) (set : bool) (ev : wstring -> Event)
    (displayPath : wstring) :
  Q (ev displayPath) ->
  forall (s s' : State Dev) r,
    notify (observerIf set (Some (fun p => emit (ev p)))) displayPath s = (r, s') ->
    exists calls, log s' = (log s ++ calls)%list /\ Forall Q calls.
Proof.
  intros Hev s s' r Hrun. destruct set; cbn in Hrun; injection Hrun as _ Hs; subst s'.
  - exists [ev displayPath]. split; [reflexivity | constructor; [exact Hev | constructor]].
  - exists []. rewrite app_nil_r. split; constructor.
Qed.

Lemma removeFolderRecursionImpl_staysAtOrBelow (notifyFile notifyFolder : bool) (fuel : nat) :
  forall folderPath (s s' : State Dev) r,
    removeFolderRecursionImpl fuel
      (observerIf notifyFile recordFileDeletion)
      (observerIf notifyFolder recordFolderDeletion) folderPath s = (r, s') ->
    exists calls,
      log s' = (log s ++ calls)%list /\ Forall (staysAtOrBelow folderPath) calls.
Proof.
  induction fuel as [| fuel IH]; intros folderPath s s' r Hrun.
  - injection Hrun as _ Hs. subst s'. exists []. rewrite app_nil_r. split; constructor.
  - cbn [removeFolderRecursionImpl] in Hrun. revert s s' r Hrun.
    apply bind_calls.
    + intros s s' r Hrun. unfold traverseFolderFlat in Hrun.
      destruct (drvTraverseFolder folderPath (dev s)) as [[items err] d].
      exists [CallTraverseFolder folderPath items].
      split.
      * destruct (deliver _ _ _ items _) as [names | []]; destruct err;
          injection Hrun as _ Hs; subst s'; reflexivity.
      * constructor; [apply isAtOrBelow_refl | constructor].
    + intros [[[fileNames folderNames] symlinkNames] | []].
      apply bind_calls.
      { apply forEach_calls. intros fileName s s' r _. apply bind_calls.
        - apply notify_calls. exact I.
        - intros _. apply call_calls. apply isAtOrBelow_child. }
      intros _. apply bind_calls.
      { apply forEach_calls. intros symlinkName s s' r _. apply bind_calls.
        - apply notify_calls. exact I.
        - intros _. apply call_calls. apply isAtOrBelow_child. }
      intros _. apply bind_calls.
      { apply forEach_calls. intros folderName s s' r _ Hrun.
        destruct (IH _ _ _ _ Hrun) as (calls & Hlog & Hcalls).
        exists calls. split; [exact Hlog|].
        eapply Forall_impl; [| exact Hcalls]. intros ev. apply staysAtOrBelow_step. }
      intros _. apply bind_calls.
      { apply notify_calls. exact I. }
      intros _. apply call_calls. apply isAtOrBelow_refl.
Qed.

(** X18. A recursive removal stays inside the folder it was asked to remove:
    after the check whether the path exists, every folder that
    [removeFolderIfExistsRecursion] lists and every file, symlink and folder
    it removes is the path itself or reached from it by appending names.
    Besides these calls only the observers are called. *)
Theorem removeFolderIfExistsRecursion_stays_below
    (fuel : nat) (ap : AbstractPath) (notifyFile notifyFolder : bool) (s s' : State Dev) r :
  removeFolderIfExistsRecursion fuel ap
    (observerIf notifyFile recordFileDeletion)
    (observerIf notifyFolder recordFolderDeletion) s = (r, s') ->
  exists calls,
    log s' = (log (snd (getItemTypeIfExists ap s)) ++ calls)%list /\
    Forall (staysAtOrBelow ap) calls.
Proof.
  unfold removeFolderIfExistsRecursion. unfold bind at 1.
  destruct (getItemTypeIfExists ap s) as [[[type |] | e | ] s1]; cbn [snd].
  - destruct (ItemType_eqb type SYMLINK).
    + revert s1 s' r. apply bind_calls.
      * apply notify_calls. exact I.
      * intros _. apply call_calls. apply isAtOrBelow_refl.
    + apply removeFolderRecursionImpl_staysAtOrBelow.
  - revert s1 s' r. apply notify_calls. exact I.
  - intros Hrun. injection Hrun as _ Hs. subst s'. exists []. rewrite app_nil_r.
    split; constructor.
  - intros Hrun. injection Hrun as _ Hs. subst s'. exists []. rewrite app_nil_r.
    split; constructor.
Qed.

End RemovalStaysBelow.

Section RemovalStaysBelowOnSample.
#[local] Existing Instance MemFs.driver.
#[local] Existing Instance MemFs.backend.

(** Removing [base/dir] of the sample disk: everything listed and removed is
    [base/dir] or below it. *)
Lemma removeFolderIfExistsRecursion_stays_below_witness :
  let dir := Sample.at_ Sample.disk "base/dir" in
  let run := removeFolderIfExistsRecursion (backend := MemFs.backend) 5 dir
               (observerIf true recordFileDeletion) (observerIf true recordFolderDeletion)
               Sample.initial in
  fst run = Ok tt /\
  exists calls,
    log (snd run)
      = (log (snd (getItemTypeIfExists (backend := MemFs.backend) dir Sample.initial))
         ++ calls)%list /\
    Forall (staysAtOrBelow dir) calls.
Proof.
  intros dir run. split; [reflexivity|].
  apply (removeFolderIfExistsRecursion_stays_below (backend := MemFs.backend)
           5 dir true true Sample.initial (snd run) (fst run)).
  vm_compute. reflexivity.
Defined.

End RemovalStaysBelowOnSample.

Section RemovalResult.
Context {Dev : Type} {backend : AfsBackend Dev}.

Lemma removeFolderRecursionImpl_ok_last
    (fuel : nat) (onBeforeFileDeletion onBeforeFolderDeletion : Observer)
    (folderPath : AbstractPath) (s s' : State Dev) :
  removeFolderRecursionImpl fuel onBeforeFileDeletion onBeforeFolderDeletion folderPath s
    = (Ok tt, s') ->
  exists s4, drvRemoveFolderPlain folderPath (dev s4) = (Ok tt, dev s').
Proof.
  destruct fuel as [| fuel]; [discriminate|].
  cbn [removeFolderRecursionImpl]. unfold bind at 1.
  destruct (traverseFolderFlat folderPath _ _ _ _ s)
    as [[[[[fileNames folderNames] symlinkNames] | []] | e | ] s1]; try discriminate.
  unfold bind at 1. destruct (forEach fileNames _ s1) as [[[] | e | ] s2]; try discriminate.
  unfold bind at 1. destruct (forEach symlinkNames _ s2) as [[[] | e | ] s3]; try discriminate.
  unfold bind at 1. destruct (forEach folderNames _ s3) as [[[] | e | ] s4]; try discriminate.
  unfold bind at 1.
  destruct (notify onBeforeFolderDeletion (getDisplayPath folderPath) s4)
    as [[[] | e | ] s5]; try discriminate.
  unfold removeFolderPlain, call.
  destruct (drvRemoveFolderPlain folderPath (dev s5)) as [[[] | e | ] d6] eqn:Hlast;
    try discriminate.
  intros Hrun. injection Hrun as Hs. subst s'. exists s5. exact Hlast.
Qed.

End RemovalResult.

Section ResolverMissing.
Context {Dev : Type} {driver : AfsDriver Dev}.

Lemma getPathStatusViaFolderTraversal_rec_missing (n : nat) this p (s s' : State Dev) ps :
  getPathStatusViaFolderTraversal_rec n this p s = (Ok ps, s') ->
  PathStatusImpl.relPath ps <> [] ->
  exists e d1, drvGetItemType (mkAbstractPath this p) (dev s) = (Throw e, d1).
Proof.
  destruct n as [| n]; [discriminate|].
  cbn [getPathStatusViaFolderTraversal_rec].
  unfold getPathStatusViaFolderTraversal_body, try_catch.
  unfold bind at 1. unfold getItemType, call.
  destruct (drvGetItemType (mkAbstractPath this p) (dev s)) as [[type | e | ] d1].
  - cbn [ret]. intros Hrun Hrel. injection Hrun as Hps _. subst ps. contradiction.
  - intros _ _. exists e, d1. reflexivity.
  - discriminate.
Qed.

End ResolverMissing.

(* ===================================================================== *)
(** * Further properties: the layer on the in-memory backend *)
(* ===================================================================== *)

Section ExistenceOnMemFs.
#[local] Existing Instance MemFs.driver.
#[local] Existing Instance MemFs.backend.

Lemma MemFs_lookup_remove (ap : AbstractPath) (d : MemFs.Device) :
  MemFs.isRoot ap = false -> MemFs.lookup ap (MemFs.remove ap d) = None.
Proof.
  intros Hroot. unfold MemFs.lookup, MemFs.remove. rewrite Hroot. cbn [MemFs.items].
  rewrite MemFs_find_without. reflexivity.
Qed.

Lemma MemFs_not_root (ap : AbstractPath) (d : MemFs.Device) (it : MemFs.Item) :
  MemFs.lookup ap d = Some it -> it <> MemFs.Folder -> MemFs.isRoot ap = false.
Proof.
  unfold MemFs.lookup. destruct (MemFs.isRoot ap); [|reflexivity].
  intros Hit Hne. injection Hit as Hit. subst it. contradiction.
Qed.

Lemma MemFs_getItemTypeIfExists (ap : AbstractPath) (s s' : State MemFs.Device) type :
  getItemTypeIfExists ap s = (Ok type, s') ->
  dev s' = dev s /\
  (type = None -> MemFs.lookup ap (dev s) = None) /\
  (Zen.startsWithChar (value (afsPath ap)) FILE_NAME_SEPARATOR = false ->
   type = option_map MemFs.typeOf (MemFs.lookup ap (dev s))).
Proof.
  unfold getItemTypeIfExists, getPathStatus. unfold bind.
  change (afsGetPathStatus (afs ap) (afsPath ap) s)
    with (getPathStatusViaFolderTraversal_rec (S (String.length (value (afsPath ap))))
            (afs ap) (afsPath ap) s).
  destruct (getPathStatusViaFolderTraversal_rec _ (afs ap) (afsPath ap) s)
    as [[ps | e | ] s1] eqn:Hresolve; try discriminate.
  pose proof (MemFs_resolver_keeps_device _ _ _ _ _ _ Hresolve) as Hdev.
  assert (Hap : mkAbstractPath (afs ap) (afsPath ap) = ap) by (destruct ap; reflexivity).
  cbn [PathStatus.relPath PathStatus.existingType ret].
  destruct (PathStatusImpl.relPath ps) as [| itemName rest] eqn:Hrel; cbn [isEmpty];
    intros Hrun; injection Hrun as Htype Hs; subst type s'.
  - split; [exact Hdev|]. split; [discriminate|].
    intros Hstart.
    destruct (MemFs_resolver_existing _ _ _ _ _ _ Hstart Hresolve Hrel) as (it & Hit & Htype).
    rewrite Hap in Hit. rewrite Hit, Htype. reflexivity.
  - assert (Hnone : MemFs.lookup ap (dev s) = None).
    { destruct (getPathStatusViaFolderTraversal_rec_missing _ _ _ _ _ _ Hresolve) as (e & d1 & Hquery).
      - rewrite Hrel. discriminate.
      - rewrite Hap in Hquery. cbn [drvGetItemType MemFs.driver] in Hquery.
        unfold MemFs.mGetItemType in Hquery.
        destruct (MemFs.lookup ap (dev s)); [discriminate | reflexivity]. }
    split; [exact Hdev|]. split; [intros _; exact Hnone|].
    intros _. rewrite Hnone. reflexivity.
Qed.

(** X19. On the in-memory backend [getItemTypeIfExists] answers what is
    there: for every device and every path that does not start with a
    separator, an answer is the type of the item at that path, or nothing
    when there is no item, and the device is left as it was. *)
Theorem getItemTypeIfExists_answers_device (ap : AbstractPath) (s s' : State MemFs.Device) type :
  Zen.startsWithChar (value (afsPath ap)) FILE_NAME_SEPARATOR = false ->
  getItemTypeIfExists ap s = (Ok type, s') ->
  type = option_map MemFs.typeOf (MemFs.lookup ap (dev s)) /\ dev s' = dev s.
Proof.
  intros Hstart Hrun.
  destruct (MemFs_getItemTypeIfExists _ _ _ _ Hrun) as (Hdev & _ & Htype).
  split; [exact (Htype Hstart) | exact Hdev].
Qed.

Lemma getItemTypeIfExists_answers_device_witness :
  fst (getItemTypeIfExists (Sample.at_ Sample.disk "base/dir/lnk") Sample.initial)
    = Ok (Some SYMLINK) /\
  fst (getItemTypeIfExists (Sample.at_ Sample.disk "base/new/deep") Sample.initial)
    = Ok None.
Proof.
  split.
  - destruct (getItemTypeIfExists (Sample.at_ Sample.disk "base/dir/lnk") Sample.initial)
      as [[type | e | ] s'] eqn:Hrun; try (vm_compute in Hrun; discriminate).
    rewrite (proj1 (getItemTypeIfExists_answers_device
                      (Sample.at_ Sample.disk "base/dir/lnk") Sample.initial s' type
                      eq_refl Hrun)).
    reflexivity.
  - destruct (getItemTypeIfExists (Sample.at_ Sample.disk "base/new/deep") Sample.initial)
      as [[type | e | ] s'] eqn:Hrun; try (vm_compute in Hrun; discriminate).
    rewrite (proj1 (getItemTypeIfExists_answers_device
                      (Sample.at_ Sample.disk "base/new/deep") Sample.initial s' type
                      eq_refl Hrun)).
    reflexivity.
Defined.

Lemma MemFs_notify_recorded (set : bool) (ev : wstring -> Event) (displayPath : wstring)
    (s s' : State MemFs.Device) r :
  notify (observerIf set (Some (fun p => emit (ev p)))) displayPath s = (r, s') ->
  r = Ok tt /\ dev s' = dev s.
Proof.
  destruct set; cbn; intros Hrun; injection Hrun as Hr Hs; subst r s'; split; reflexivity.
Qed.

(** X20. On the in-memory backend a recursive removal ends, and when it
    returns the path is gone: for every device, every path and both
    observers set or not, [removeFolderIfExistsRecursion] does not run on
    for ever, and after it has returned without an error there is no item at
    the path. *)
Theorem removeFolderIfExistsRecursion_ends_and_removes
    (ap : AbstractPath) (notifyFile notifyFolder : bool) (s : State MemFs.Device) :
  let run fuel := removeFolderIfExistsRecursion fuel ap
                    (observerIf notifyFile recordFileDeletion)
                    (observerIf notifyFolder recordFolderDeletion) s in
  fst (run (MemFs.fuelFor ap (dev s))) <> Diverge /\
  forall fuel s', run fuel = (Ok tt, s') -> MemFs.lookup ap (dev s') = None.
Proof.
  intros run. subst run. cbv beta. split.
  - destruct s as [d calls]. apply MemFs_removeFolderIfExistsRecursion_ends.
  - intros fuel s'. unfold removeFolderIfExistsRecursion. unfold bind at 1.
    destruct (getItemTypeIfExists ap s) as [[[type |] | e | ] s1] eqn:Hcheck; try discriminate.
    + destruct (ItemType_eqb type SYMLINK).
      * unfold bind.
        destruct (notify (observerIf notifyFile recordFileDeletion) (getDisplayPath ap) s1)
          as [[[] | e | ] s2]; try discriminate.
        unfold removeSymlinkPlain, call. cbn [drvRemoveSymlinkPlain afsDriver MemFs.backend MemFs.driver].
        unfold MemFs.mRemoveSymlinkPlain.
        destruct (MemFs.lookup ap (dev s2)) as [[size modTime | | ] |] eqn:Hit; try discriminate.
        intros Hrun. injection Hrun as Hs. subst s'. cbn [dev].
        apply MemFs_lookup_remove. apply (MemFs_not_root _ _ _ Hit). discriminate.
      * intros Hrun. destruct (removeFolderRecursionImpl_ok_last _ _ _ _ _ _ Hrun) as (s4 & Hlast).
        cbn [drvRemoveFolderPlain afsDriver MemFs.backend MemFs.driver] in Hlast.
        unfold MemFs.mRemoveFolderPlain in Hlast.
        destruct (MemFs.lookup ap (dev s4)) as [[size modTime | | ] |]; try discriminate.
        destruct (MemFs.isRoot ap) eqn:Hroot; [discriminate|].
        destruct (MemFs.children ap (dev s4)); [|discriminate].
        injection Hlast as Hlast. rewrite <- Hlast.
        apply MemFs_lookup_remove. exact Hroot.
    + intros Hrun.
      destruct (MemFs_notify_recorded _ _ _ _ _ _ Hrun) as [_ Hdev].
      destruct (MemFs_getItemTypeIfExists _ _ _ _ Hcheck) as (Hdev1 & Hnone & _).
      rewrite Hdev, Hdev1. apply Hnone. reflexivity.
Qed.

(** Removing [base/dir] of the sample disk, which holds a file, a symlink
    and a subfolder with a file. *)
Lemma removeFolderIfExistsRecursion_ends_and_removes_witness :
  let dir := Sample.at_ Sample.disk "base/dir" in
  let run := removeFolderIfExistsRecursion (MemFs.fuelFor dir Sample.device) dir
               (observerIf true recordFileDeletion) (observerIf true recordFolderDeletion)
               Sample.initial in
  fst run = Ok tt /\
  MemFs.lookup dir (dev (snd run)) = None.
Proof.
  intros dir run. split; [reflexivity|].
  apply (proj2 (removeFolderIfExistsRecursion_ends_and_removes dir true true Sample.initial)
               (MemFs.fuelFor dir Sample.device) (snd run)).
  vm_compute. reflexivity.
Defined.

End ExistenceOnMemFs.

(* ===================================================================== *)
(** * Further properties: recursive creation *)
(* ===================================================================== *)

Section CreateFolderSteps.
Context {Dev : Type} {backend : AfsBackend Dev}.

(** X21. When [createFolderPlain] throws, what
    [createFolderIfMissingRecursion] throws depends on the path status: if
    the deepest existing item on the path is a plain file, the error of
    [createFolderPlain] is rethrown and no further folder is created; if the
    path status cannot be determined, its error leaves instead, and the
    error of [createFolderPlain] is lost. *)
Theorem createFolderIfMissingRecursion_blocked
    (ap parentPath : AbstractPath) (s s2 : State Dev) e d1 :
  getParentFolderPath ap = Some parentPath ->
  drvCreateFolderPlain ap (dev s) = (Throw e, d1) ->
  (forall ps,
     getPathStatus ap (mkState d1 (log s ++ [CallCreateFolderPlain ap])) = (Ok ps, s2) ->
     PathStatus.existingType ps = FILE ->
     createFolderIfMissingRecursion ap s = (Throw e, s2)) /\
  (forall e2,
     getPathStatus ap (mkState d1 (log s ++ [CallCreateFolderPlain ap])) = (Throw e2, s2) ->
     createFolderIfMissingRecursion ap s = (Throw e2, s2)).
Proof.
  intros Hparent Hcreate.
  split; [intros ps Hstatus Hfile | intros e2 Hstatus];
    unfold createFolderIfMissingRecursion; rewrite Hparent;
    unfold try_catch, createFolderPlain, call; rewrite Hcreate;
    unfold bind; rewrite Hstatus; [rewrite Hfile |]; reflexivity.
Qed.


End CreateFolderSteps.

Section CreateFolderStepsOnSample.
#[local] Existing Instance MemFs.driver.
#[local] Existing Instance MemFs.backend.

(** A folder below the plain file [base/dir/f.txt]: the error of the
    creation leaves and the disk stays as it is. A folder two levels below
    the symlink [base/dir/lnk]: the creation fails because the parent is
    missing, the path status fails because the link cannot be listed, and
    the second error is the one that leaves. *)
Lemma createFolderIfMissingRecursion_blocked_witness :
  let belowFile := Sample.at_ Sample.disk "base/dir/f.txt/x" in
  let belowLink := Sample.at_ Sample.disk "base/dir/lnk/x/y" in
  let run1 := createFolderIfMissingRecursion (backend := MemFs.backend) belowFile Sample.initial in
  let run2 := createFolderIfMissingRecursion (backend := MemFs.backend) belowLink Sample.initial in
  fst run1 = Throw MemFs.wrongType /\
  dev (snd run1) = Sample.device /\
  fst (createFolderPlain belowLink Sample.initial) = Throw MemFs.notFound /\
  fst run2 = Throw MemFs.wrongType.
Proof.
  intros belowFile belowLink run1 run2.
  pose (after ap := mkState Sample.device
                      (log Sample.initial ++ [CallCreateFolderPlain ap])).
  assert (H1 : run1 = (Throw MemFs.wrongType,
                       snd (getPathStatus (backend := MemFs.backend) belowFile (after belowFile)))).
  { refine (proj1 (createFolderIfMissingRecursion_blocked (backend := MemFs.backend)
                     belowFile (Sample.at_ Sample.disk "base/dir/f.txt") Sample.initial _
                     MemFs.wrongType Sample.device _ _)
                  (PathStatus.mk FILE (Sample.at_ Sample.disk "base/dir/f.txt") ["x"]) _ _);
      vm_compute; reflexivity. }
  assert (H2 : run2 = (Throw MemFs.wrongType,
                       snd (getPathStatus (backend := MemFs.backend) belowLink (after belowLink)))).
  { refine (proj2 (createFolderIfMissingRecursion_blocked (backend := MemFs.backend)
                     belowLink (Sample.at_ Sample.disk "base/dir/lnk/x") Sample.initial _
                     MemFs.notFound Sample.device _ _)
                  MemFs.wrongType _);
      vm_compute; reflexivity. }
  rewrite H1, H2. repeat split.
Defined.


End CreateFolderStepsOnSample.

(* ===================================================================== *)
(** * Further properties: removal of one item on the in-memory backend *)
(* ===================================================================== *)

Section RemoveIfExistsOnMemFs.
#[local] Existing Instance MemFs.driver.
#[local] Existing Instance MemFs.backend.

Lemma MemFs_recheckAfterFailure_gone {A} (ap : AbstractPath) (gone a : A) (e : FileError)
    (s1 s' : State MemFs.Device) :
  recheckAfterFailure ap gone e s1 = (Ok a, s') ->
  a = gone /\ dev s' = dev s1 /\ MemFs.lookup ap (dev s1) = None.
Proof.
  unfold recheckAfterFailure, bind, try_catch.
  destruct (getItemTypeIfExists ap s1) as [[[type |] | e2 | ] s2] eqn:Hcheck;
    cbn [ret negb]; try discriminate.
  intros Hrun. injection Hrun as Ha Hs. subst a s'.
  destruct (MemFs_getItemTypeIfExists _ _ _ _ Hcheck) as (Hdev & Hnone & _).
  split; [reflexivity | split; [exact Hdev | exact (Hnone eq_refl)]].
Qed.

(** X23. On the in-memory backend, after [removeFileIfExists],
    [removeSymlinkIfExists] or [removeEmptyFolderIfExists] has returned there
    is no item at the path, for every device and path; and the first two
    answer [true] exactly when there was a file, respectively a symlink, at
    the path before the call. *)
Theorem removeIfExists_leaves_nothing (ap : AbstractPath) (s s' : State MemFs.Device) :
  (forall removed,
     removeFileIfExists ap s = (Ok removed, s') ->
     MemFs.lookup ap (dev s') = None /\
     (removed = true <->
      exists fileSize modTime, MemFs.lookup ap (dev s) = Some (MemFs.File fileSize modTime))) /\
  (forall removed,
     removeSymlinkIfExists ap s = (Ok removed, s') ->
     MemFs.lookup ap (dev s') = None /\
     (removed = true <-> MemFs.lookup ap (dev s) = Some MemFs.Symlink)) /\
  (removeEmptyFolderIfExists ap s = (Ok tt, s') ->
   MemFs.lookup ap (dev s') = None).
Proof.
  split; [| split].
  - intros removed. unfold removeFileIfExists, try_catch, bind, removeFilePlain, call.
    cbn [drvRemoveFilePlain afsDriver MemFs.backend MemFs.driver].
    unfold MemFs.mRemoveFilePlain.
    destruct (MemFs.lookup ap (dev s)) as [[fileSize modTime | | ] |] eqn:Hit.
    + cbn [ret]. intros Hrun. injection Hrun as Hremoved Hs. subst removed s'. cbn [dev].
      split; [apply MemFs_lookup_remove; apply (MemFs_not_root _ _ _ Hit); discriminate|].
      split; [intros _; eauto | reflexivity].
    + intros Hrun. destruct (MemFs_recheckAfterFailure_gone _ _ _ _ _ _ Hrun) as (Hr & _ & Hnone).
      cbn [dev] in Hnone. congruence.
    + intros Hrun. destruct (MemFs_recheckAfterFailure_gone _ _ _ _ _ _ Hrun) as (Hr & _ & Hnone).
      cbn [dev] in Hnone. congruence.
    + intros Hrun. destruct (MemFs_recheckAfterFailure_gone _ _ _ _ _ _ Hrun) as (Hr & Hdev & Hnone).
      cbn [dev] in Hnone, Hdev. rewrite Hdev. split; [exact Hnone|].
      subst removed. split; [discriminate | intros (fileSize & modTime & Hfile); discriminate].
  - intros removed. unfold removeSymlinkIfExists, try_catch, bind, removeSymlinkPlain, call.
    cbn [drvRemoveSymlinkPlain afsDriver MemFs.backend MemFs.driver].
    unfold MemFs.mRemoveSymlinkPlain.
    destruct (MemFs.lookup ap (dev s)) as [[fileSize modTime | | ] |] eqn:Hit.
    + intros Hrun. destruct (MemFs_recheckAfterFailure_gone _ _ _ _ _ _ Hrun) as (Hr & _ & Hnone).
      cbn [dev] in Hnone. congruence.
    + intros Hrun. destruct (MemFs_recheckAfterFailure_gone _ _ _ _ _ _ Hrun) as (Hr & _ & Hnone).
      cbn [dev] in Hnone. congruence.
    + cbn [ret]. intros Hrun. injection Hrun as Hremoved Hs. subst removed s'. cbn [dev].
      split; [apply MemFs_lookup_remove; apply (MemFs_not_root _ _ _ Hit); discriminate|].
      split; reflexivity.
    + intros Hrun. destruct (MemFs_recheckAfterFailure_gone _ _ _ _ _ _ Hrun) as (Hr & Hdev & Hnone).
      cbn [dev] in Hnone, Hdev. rewrite Hdev. split; [exact Hnone|].
      subst removed. split; discriminate.
  - unfold removeEmptyFolderIfExists, try_catch, removeFolderPlain, call.
    cbn [drvRemoveFolderPlain afsDriver MemFs.backend MemFs.driver].
    destruct (MemFs.mRemoveFolderPlain ap (dev s)) as [[[] | e | ] d1] eqn:Hplain.
    + intros Hrun. injection Hrun as Hs. subst s'. cbn [dev].
      unfold MemFs.mRemoveFolderPlain in Hplain.
      destruct (MemFs.lookup ap (dev s)) as [[fileSize modTime | | ] |]; try discriminate.
      destruct (MemFs.isRoot ap) eqn:Hroot; [discriminate|].
      destruct (MemFs.children ap (dev s)); [|discriminate].
      injection Hplain as Hd. subst d1. apply MemFs_lookup_remove. exact Hroot.
    + intros Hrun. destruct (MemFs_recheckAfterFailure_gone _ _ _ _ _ _ Hrun) as (_ & Hdev & Hnone).
      rewrite Hdev. exact Hnone.
    + discriminate.
Qed.

(** The file [base/dir/f.txt] of the sample disk is removed, and a second
    call answers that there was nothing to remove. *)
Lemma removeIfExists_leaves_nothing_witness :
  let file := Sample.at_ Sample.disk "base/dir/f.txt" in
  let first := removeFileIfExists file Sample.initial in
  let second := removeFileIfExists file (snd first) in
  fst first = Ok true /\
  fst second = Ok false /\
  MemFs.lookup file (dev (snd first)) = None /\
  MemFs.lookup file (dev (snd second)) = None.
Proof.
  intros file first second.
  split; [reflexivity | split; [reflexivity|]].
  split.
  - apply (proj1 (removeIfExists_leaves_nothing file Sample.initial (snd first)) true).
    vm_compute. reflexivity.
  - apply (proj1 (removeIfExists_leaves_nothing file (snd first) (snd second)) false).
    vm_compute. reflexivity.
Defined.

End RemoveIfExistsOnMemFs.

(* ===================================================================== *)
(** * Further properties: the work items of a recursive traversal *)
(* ===================================================================== *)

Lemma appendAfsPath_longer (basePath : AfsPath) (itemName : Zstring) :
  itemName <> EmptyString ->
  (String.length (value basePath) < String.length (value (appendAfsPath basePath itemName)))%nat.
Proof.
  intros Hname. unfold appendAfsPath.
  destruct (value basePath) as [| c base]; cbn [value].
  - destruct itemName; [contradiction | cbn [String.length]; lia].
  - rewrite length_append. cbn [String.length]. lia.
Qed.

Lemma joinRelPathComponents_longer (relPathComponents : list Zstring) :
  forall basePath,
    Forall (fun itemName => itemName <> EmptyString) relPathComponents ->
    relPathComponents <> [] ->
    (String.length (value basePath)
     < String.length (value (joinRelPathComponents basePath relPathComponents)))%nat.
Proof.
  unfold joinRelPathComponents.
  induction relPathComponents as [| itemName rest IH]; intros basePath Hnames Hsome;
    [contradiction|].
  inversion Hnames as [| ? ? Hname Hrest]; subst. cbn [fold_left].
  pose proof (appendAfsPath_longer basePath itemName Hname) as Hstep.
  destruct rest as [| next rest]; [exact Hstep|].
  specialize (IH (appendAfsPath basePath itemName) Hrest ltac:(discriminate)). lia.
Qed.

Lemma joinRelPathComponents_injective (basePath : AfsPath) (l1 : list Zstring) :
  forall l2,
    Forall (fun itemName => itemName <> EmptyString /\
                            Zen.containsChar itemName FILE_NAME_SEPARATOR = false) l1 ->
    Forall (fun itemName => itemName <> EmptyString /\
                            Zen.containsChar itemName FILE_NAME_SEPARATOR = false) l2 ->
    joinRelPathComponents basePath l1 = joinRelPathComponents basePath l2 ->
    l1 = l2.
Proof.
  assert (Hweaken : forall l,
            Forall (fun itemName => itemName <> EmptyString /\
                                    Zen.containsChar itemName FILE_NAME_SEPARATOR = false) l ->
            Forall (fun itemName => itemName <> EmptyString) l).
  { intros l Hl. eapply Forall_impl; [| exact Hl]. intros a [Ha _]. exact Ha. }
  induction l1 as [| n1 l1 IH] using rev_ind; intros l2 Hl1 Hl2 Hjoin.
  - destruct l2 as [| n2 l2]; [reflexivity|]. exfalso.
    pose proof (joinRelPathComponents_longer (n2 :: l2) basePath (Hweaken _ Hl2)
                  ltac:(discriminate)) as Hlong.
    rewrite <- Hjoin in Hlong. cbn in Hlong. lia.
  - destruct (list_eq_dec string_dec l2 []) as [Hempty | Hsome].
    + subst l2. exfalso.
      pose proof (joinRelPathComponents_longer (l1 ++ [n1]) basePath (Hweaken _ Hl1)
                    ltac:(destruct l1; discriminate)) as Hlong.
      rewrite Hjoin in Hlong. cbn in Hlong. lia.
    + destruct (exists_last Hsome) as (l2' & n2 & Hl2'). subst l2.
      apply Forall_app in Hl1. destruct Hl1 as [Hl1 Hn1].
      apply Forall_app in Hl2. destruct Hl2 as [Hl2 Hn2].
      inversion Hn1 as [| ? ? [Hne1 Hsep1] _]; subst.
      inversion Hn2 as [| ? ? [Hne2 Hsep2] _]; subst.
      unfold joinRelPathComponents in Hjoin. rewrite !fold_left_app in Hjoin.
      cbn [fold_left] in Hjoin.
      destruct (appendAfsPath_roundtrip (fold_left appendAfsPath l1 basePath) n1 Hsep1
                  (or_intror Hne1)) as [Hparent1 Hname1].
      destruct (appendAfsPath_roundtrip (fold_left appendAfsPath l2' basePath) n2 Hsep2
                  (or_intror Hne2)) as [Hparent2 Hname2].
      rewrite Hjoin in Hparent1, Hname1.
      pose proof (eq_trans (eq_sym Hparent1) Hparent2) as Hprefix.
      injection Hprefix as Hprefix.
      pose proof (eq_trans (eq_sym Hname1) Hname2) as Hname. subst n2.
      f_equal. apply IH; [exact Hl1 | exact Hl2 | exact Hprefix].
Qed.

(** X24. The work items of [traverseFolderRecursive] keep apart: when the
    names in the path lists are not empty and hold no separator, work items
    with different path lists are given different paths below the base
    path, so that no two of them are merged when the lists are joined. *)
Theorem traverseFolderRecursive_keeps_items_apart {Callback : Type}
    (basePath : AbstractPath) (workload : list (list Zstring * Callback)) :
  Forall (fun item =>
            Forall (fun itemName => itemName <> EmptyString /\
                                    Zen.containsChar itemName FILE_NAME_SEPARATOR = false)
                   (fst item)) workload ->
  NoDup (map fst workload) ->
  NoDup (map fst (traverserWorkloadImpl basePath workload)).
Proof.
  intros Hnames Hdistinct. unfold traverserWorkloadImpl. rewrite map_map. cbn [fst].
  rewrite <- (map_map fst (joinRelPathComponents (afsPath basePath))).
  apply NoDup_map_NoDup_ForallPairs; [| exact Hdistinct].
  intros l1 l2 Hin1 Hin2.
  apply in_map_iff in Hin1. destruct Hin1 as (item1 & Hfst1 & Hitem1).
  apply in_map_iff in Hin2. destruct Hin2 as (item2 & Hfst2 & Hitem2).
  rewrite Forall_forall in Hnames. subst l1 l2.
  apply joinRelPathComponents_injective; apply Hnames; assumption.
Qed.

Lemma traverseFolderRecursive_keeps_items_apart_witness :
  let workload := [(["dir"], 1%nat); (["dir"; "sub"], 2%nat); ([], 3%nat)] in
  map fst (traverserWorkloadImpl (Sample.at_ Sample.disk "base") workload)
    = [mkAfsPath "base/dir"; mkAfsPath "base/dir/sub"; mkAfsPath "base"] /\
  NoDup (map fst (traverserWorkloadImpl (Sample.at_ Sample.disk "base") workload)).
Proof.
  intros workload. split; [reflexivity|].
  apply traverseFolderRecursive_keeps_items_apart.
  - repeat constructor; discriminate.
  - cbn. repeat constructor; cbn; intuition discriminate.
Defined.

(* ===================================================================== *)
(** * The order of a recursive removal, on the driver *)
(* ===================================================================== *)

Section RemovalPerformed.
Context {Dev : Type} {backend : AfsBackend Dev}.

Lemma PerformsAll_app (calls1 calls2 : list Event) (d d1 d2 : Dev) (r : Outcome unit) :
  PerformsAll calls1 d (Ok tt) d1 ->
  PerformsAll calls2 d1 r d2 ->
  PerformsAll (calls1 ++ calls2) d r d2.
Proof.
  intros Hfirst. remember (Ok tt) as ok eqn:Hok. revert Hok.
  induction Hfirst as [d | ev rest d dmid d' r1 Hev Hrest IH | ev d d' r1 Hev Hfail];
    intros Hok Hsecond.
  - exact Hsecond.
  - cbn [app]. eapply PerformsAll_next; [exact Hev | exact (IH Hok Hsecond)].
  - contradiction.
Qed.

Lemma performsItsCalls_ret : performsItsCalls (Dev := Dev) (ret tt).
Proof.
  intros s s' r Hrun. injection Hrun as Hr Hs. subst r s'.
  exists [], (Ok tt). rewrite app_nil_r.
  split; [reflexivity | split; [constructor | reflexivity]].
Qed.

Lemma performsItsCalls_bind (m1 m2 : M Dev unit) :
  performsItsCalls m1 -> performsItsCalls m2 -> performsItsCalls (m1 ;;; m2).
Proof.
  intros H1 H2 s s' r Hrun. unfold bind in Hrun.
  destruct (m1 s) as [[[] | e | ] s1] eqn:Hm1;
    destruct (H1 _ _ _ Hm1) as (calls1 & r1 & Hlog1 & Hdone1 & Hr1).
  - rewrite <- (Hr1 ltac:(discriminate)) in Hdone1.
    destruct (H2 _ _ _ Hrun) as (calls2 & r2 & Hlog2 & Hdone2 & Hr2).
    exists (calls1 ++ calls2)%list, r2. split; [| split].
    + rewrite Hlog2, Hlog1, app_assoc. reflexivity.
    + exact (PerformsAll_app _ _ _ _ _ _ Hdone1 Hdone2).
    + exact Hr2.
  - injection Hrun as Hr Hs. subst r s'. exists calls1, r1. auto.
  - injection Hrun as Hr Hs. subst r s'. exists calls1, r1. auto.
Qed.

Lemma performsItsCalls_call (ev : Event) (op : Dev -> Outcome unit * Dev) :
  (forall d, Performs ev d (fst (op d)) (snd (op d))) ->
  performsItsCalls (call ev op).
Proof.
  intros Hev s s' r Hrun. unfold call in Hrun. specialize (Hev (dev s)).
  destruct (op (dev s)) as [r1 d1]. cbn [fst snd] in Hev.
  injection Hrun as Hr Hs. subst r s'. cbn [dev log].
  exists [ev], r1. split; [reflexivity | split; [| reflexivity]].
  destruct r1 as [[] | e | ].
  - eapply PerformsAll_next; [exact Hev | constructor].
  - apply PerformsAll_stop; [exact Hev | discriminate].
  - apply PerformsAll_stop; [exact Hev | discriminate].
Qed.

Lemma performsItsCalls_notify (set : bool) (ev : wstring -> Event) (displayPath : wstring) :
  (forall d : Dev, Performs (ev displayPath) d (Ok tt) d) ->
  performsItsCalls (notify (observerIf set (Some (fun p => emit (ev p)))) displayPath).
Proof.
  intros Hev. destruct set; cbn [observerIf notify]; [| apply performsItsCalls_ret].
  intros s s' r Hrun. injection Hrun as Hr Hs. subst r s'. cbn [dev log].
  exists [ev displayPath], (Ok tt).
  split; [reflexivity | split; [| reflexivity]].
  eapply PerformsAll_next; [apply Hev | constructor].
Qed.

Lemma performsItsCalls_forEach {A} (body : A -> M Dev unit) (l : list A) :
  (forall x, performsItsCalls (body x)) -> performsItsCalls (forEach l body).
Proof.
  intros Hbody. induction l as [| x l IH]; cbn [forEach].
  - apply performsItsCalls_ret.
  - apply performsItsCalls_bind; [apply Hbody | exact IH].
Qed.

(** Every call [removeFolderRecursionImpl] logs is a call it has made on the
    driver, in the order of the log, and the device it leaves is the one the
    driver left after the last of them. *)
Lemma removeFolderRecursionImpl_performs (notifyFile notifyFolder : bool) (fuel : nat) :
  forall folderPath,
    performsItsCalls
      (removeFolderRecursionImpl fuel
         (observerIf notifyFile recordFileDeletion)
         (observerIf notifyFolder recordFolderDeletion) folderPath).
Proof.
  induction fuel as [| fuel IH]; intros folderPath s s' r Hrun.
  - injection Hrun as Hr Hs. subst r s'. exists [], (Ok tt). rewrite app_nil_r.
    split; [reflexivity | split; [constructor | intros Hdiv; contradiction]].
  - cbn [removeFolderRecursionImpl] in Hrun.
    unfold bind at 1 in Hrun. unfold traverseFolderFlat in Hrun.
    destruct (drvTraverseFolder folderPath (dev s)) as [[items err] d] eqn:Hlist.
    rewrite deliver_pushNames in Hrun. cbn [app] in Hrun.
    pose proof (Performs_listing _ _ _ _ _ Hlist) as Hlisted.
    destruct err as [e |].
    + injection Hrun as Hr Hs. subst r s'. cbn [dev log].
      exists [CallTraverseFolder folderPath items], (Throw e).
      split; [reflexivity | split; [| reflexivity]].
      apply PerformsAll_stop; [exact Hlisted | discriminate].
    + revert Hrun.
      match goal with
      | |- ?rest ?st = _ -> _ =>
          assert (Hrest : performsItsCalls rest)
      end.
      { apply performsItsCalls_bind.
        { apply performsItsCalls_forEach. intros fileName. apply performsItsCalls_bind.
          - apply performsItsCalls_notify. intros d0. constructor.
          - apply performsItsCalls_call. intros d0. constructor. apply surjective_pairing. }
        apply performsItsCalls_bind.
        { apply performsItsCalls_forEach. intros symlinkName. apply performsItsCalls_bind.
          - apply performsItsCalls_notify. intros d0. constructor.
          - apply performsItsCalls_call. intros d0. constructor. apply surjective_pairing. }
        apply performsItsCalls_bind.
        { apply performsItsCalls_forEach. intros folderName. apply IH. }
        apply performsItsCalls_bind.
        - apply performsItsCalls_notify. intros d0. constructor.
        - apply performsItsCalls_call. intros d0. constructor. apply surjective_pairing. }
      intros Hrun. destruct (Hrest _ _ _ Hrun) as (calls & r0 & Hlog & Hdone & Hr).
      cbn [dev log] in Hlog, Hdone.
      exists (CallTraverseFolder folderPath items :: calls), r0.
      split; [rewrite Hlog, <- app_assoc; reflexivity | split; [| exact Hr]].
      eapply PerformsAll_next; [exact Hlisted | exact Hdone].
Qed.

(** For every backend: the calls after the existence check follow the order
    of a complete removal, and they are the calls made on the driver. *)
Lemma removeFolderIfExistsRecursion_order_performed
    (fuel : nat) (ap : AbstractPath) (notifyFile notifyFolder : bool)
    (s s1 s' : State Dev) (type : ItemType) (r : Outcome unit) :
  getItemTypeIfExists ap s = (Ok (Some type), s1) ->
  type <> SYMLINK ->
  removeFolderIfExistsRecursion fuel ap
    (observerIf notifyFile recordFileDeletion)
    (observerIf notifyFolder recordFolderDeletion) s = (r, s') ->
  exists calls rest r0,
    log s' = (log s1 ++ calls)%list /\
    FolderRemoval notifyFile notifyFolder ap (calls ++ rest) /\
    (r = Ok tt -> rest = []) /\
    PerformsAll calls (dev s1) r0 (dev s') /\
    (r <> Diverge -> r = r0).
Proof.
  intros Hcheck Htype Hrun.
  unfold removeFolderIfExistsRecursion, bind at 1 in Hrun. rewrite Hcheck in Hrun.
  assert (Himpl : removeFolderRecursionImpl fuel
                    (observerIf notifyFile recordFileDeletion)
                    (observerIf notifyFolder recordFolderDeletion) ap s1 = (r, s'))
    by (destruct type; [exact Hrun | exact Hrun | contradiction]).
  destruct (removeFolderRecursionImpl_logs notifyFile notifyFolder fuel ap _ _ _ Himpl)
    as (calls & rest & Hlog & Hfull & Hok).
  destruct (removeFolderRecursionImpl_performs notifyFile notifyFolder fuel ap _ _ _ Himpl)
    as (calls' & r0 & Hlog' & Hdone & Hr).
  assert (Hsame : calls' = calls)
    by (apply (app_inv_head (log s1)); rewrite <- Hlog, <- Hlog'; reflexivity).
  subst calls'. exists calls, rest, r0. auto.
Qed.

End RemovalPerformed.

Section RemovalPerformedOnMemFs.
#[local] Existing Instance MemFs.driver.
#[local] Existing Instance MemFs.backend.

Lemma find_filter_none {A} (p keep : A -> bool) (l : list A) :
  find p l = None -> find p (filter keep l) = None.
Proof.
  induction l as [| x l IH]; [reflexivity|].
  cbn [find filter]. destruct (p x) eqn:Hpx; [discriminate|].
  intros Hnone. destruct (keep x); [cbn [find]; rewrite Hpx|]; apply IH; exact Hnone.
Qed.

Lemma MemFs_lookup_remove_none (q ap : AbstractPath) (d : MemFs.Device) :
  MemFs.lookup q d = None -> MemFs.lookup q (MemFs.remove ap d) = None.
Proof.
  unfold MemFs.lookup, MemFs.remove, MemFs.without. cbn [MemFs.items].
  destruct (MemFs.isRoot q); [discriminate|].
  destruct (find (MemFs.named q) (MemFs.items d)) eqn:Hfind; [discriminate|].
  intros _. rewrite (find_filter_none _ _ _ Hfind). reflexivity.
Qed.

Lemma MemFs_traverseFolder_device (ap : AbstractPath) (d : MemFs.Device) :
  snd (MemFs.mTraverseFolder ap d) = d.
Proof.
  unfold MemFs.mTraverseFolder.
  destruct (MemFs.lookup ap d) as [[fileSize modTime | | ] |]; reflexivity.
Qed.

Lemma MemFs_Performs_keeps_none (ev : Event) (d d' : MemFs.Device) (r : Outcome unit)
    (q : AbstractPath) :
  Performs ev d r d' -> MemFs.lookup q d = None -> MemFs.lookup q d' = None.
Proof.
  assert (Hop : forall (op : MemFs.Device -> Outcome unit * MemFs.Device) r0 d0,
            (snd (op d) = d \/ exists ap', snd (op d) = MemFs.remove ap' d) ->
            op d = (r0, d0) -> MemFs.lookup q d = None -> MemFs.lookup q d0 = None).
  { intros op r0 d0 Hcases Hrun Hnone. rewrite Hrun in Hcases. cbn [snd] in Hcases.
    destruct Hcases as [Hsame | [ap' Hremoved]]; subst d0;
      [exact Hnone | apply MemFs_lookup_remove_none; exact Hnone]. }
  intros Hev. destruct Hev as [ap items err d d' Hlist | ap d r d' Hrun | ap d r d' Hrun
                              | ap d r d' Hrun | displayPath d | displayPath d];
    try (intros Hnone; exact Hnone).
  - intros Hnone. cbn [drvTraverseFolder MemFs.driver] in Hlist.
    pose proof (MemFs_traverseFolder_device ap d) as Hdev. rewrite Hlist in Hdev.
    cbn [snd] in Hdev. subst d'. exact Hnone.
  - exact (Hop (MemFs.mRemoveFilePlain ap) r d'
             (proj2 (MemFs_removeFilePlain_op ap d)) Hrun).
  - exact (Hop (MemFs.mRemoveSymlinkPlain ap) r d'
             (proj2 (MemFs_removeSymlinkPlain_op ap d)) Hrun).
  - exact (Hop (MemFs.mRemoveFolderPlain ap) r d'
             (proj2 (MemFs_removeFolderPlain_op ap d)) Hrun).
Qed.

Lemma MemFs_PerformsAll_keeps_none (calls : list Event) (d d' : MemFs.Device)
    (r : Outcome unit) (q : AbstractPath) :
  PerformsAll calls d r d' -> MemFs.lookup q d = None -> MemFs.lookup q d' = None.
Proof.
  intros Hdone. induction Hdone as [d | ev rest d d1 d' r Hev Hrest IH | ev d d' r Hev Hfail];
    intros Hnone.
  - exact Hnone.
  - apply IH. exact (MemFs_Performs_keeps_none _ _ _ _ _ Hev Hnone).
  - exact (MemFs_Performs_keeps_none _ _ _ _ _ Hev Hnone).
Qed.

(** A removal call that returned has taken the item away. *)
Lemma MemFs_Performs_removed (ev : Event) (d d' : MemFs.Device) (q : AbstractPath) :
  Performs ev d (Ok tt) d' -> removedPath ev = Some q -> MemFs.lookup q d' = None.
Proof.
  intros Hev. remember (Ok tt) as ok eqn:Hok. revert Hok.
  destruct Hev as [ap items err d d' Hlist | ap d r d' Hrun | ap d r d' Hrun
                  | ap d r d' Hrun | displayPath d | displayPath d];
    intros Hok Hpath; try discriminate; injection Hpath as Hpath; subst q r.
  - cbn [drvRemoveFilePlain MemFs.driver] in Hrun. unfold MemFs.mRemoveFilePlain in Hrun.
    destruct (MemFs.lookup ap d) as [[fileSize modTime | | ] |] eqn:Hit; try discriminate.
    injection Hrun as Hd. subst d'.
    apply MemFs_lookup_remove. apply (MemFs_not_root _ _ _ Hit). discriminate.
  - cbn [drvRemoveSymlinkPlain MemFs.driver] in Hrun. unfold MemFs.mRemoveSymlinkPlain in Hrun.
    destruct (MemFs.lookup ap d) as [[fileSize modTime | | ] |] eqn:Hit; try discriminate.
    injection Hrun as Hd. subst d'.
    apply MemFs_lookup_remove. apply (MemFs_not_root _ _ _ Hit). discriminate.
  - cbn [drvRemoveFolderPlain MemFs.driver] in Hrun. unfold MemFs.mRemoveFolderPlain in Hrun.
    destruct (MemFs.lookup ap d) as [[fileSize modTime | | ] |]; try discriminate.
    destruct (MemFs.isRoot ap) eqn:Hroot; [discriminate|].
    destruct (MemFs.children ap d); [|discriminate].
    injection Hrun as Hd. subst d'. apply MemFs_lookup_remove. exact Hroot.
Qed.

(** When all the calls returned, every item a removal was called for is
    gone from the device they leave. *)
Lemma MemFs_PerformsAll_removed (calls : list Event) (d d' : MemFs.Device) :
  PerformsAll calls d (Ok tt) d' ->
  forall ev q, In ev calls -> removedPath ev = Some q -> MemFs.lookup q d' = None.
Proof.
  intros Hdone. remember (Ok tt) as ok eqn:Hok. revert Hok.
  induction Hdone as [d | ev0 rest d d1 d' r Hev Hrest IH | ev0 d d' r Hev Hfail];
    intros Hok ev q Hin Hpath.
  - destruct Hin.
  - destruct Hin as [Hhere | Hlater].
    + subst ev0. apply (MemFs_PerformsAll_keeps_none _ _ _ _ _ Hrest).
      exact (MemFs_Performs_removed _ _ _ _ Hev Hpath).
    + exact (IH Hok ev q Hlater Hpath).
  - contradiction.
Qed.

(** C4. A recursive delete of a path that exists and is not a symlink.
    For every backend, with observers that record (set or not): the calls
    after the existence check are those of a complete removal of the folder
    (per folder its one listing, then each listed file, then each symlink,
    then each subfolder in the same way, then the folder itself, every
    removal call directly after the one notification of its item). These
    calls are the ones made on the driver, in this order: the listed items
    are the ones the driver delivered, every call but the last returned, the
    device left is the one the driver left, and the outcome is the one of
    the last call. If the function ends early, its calls are an initial part
    of such a removal. On the in-memory backend, for every device and path,
    the removal ends, and when it has returned every file, symlink and folder
    a removal was called for is gone from the device. *)
Theorem removeFolderIfExistsRecursion_order :
  (forall (Dev : Type) (backend : AfsBackend Dev)
          (fuel : nat) (ap : AbstractPath) (notifyFile notifyFolder : bool)
          (s s1 s' : State Dev) (type : ItemType) (r : Outcome unit),
     getItemTypeIfExists ap s = (Ok (Some type), s1) ->
     type <> SYMLINK ->
     removeFolderIfExistsRecursion fuel ap
       (observerIf notifyFile recordFileDeletion)
       (observerIf notifyFolder recordFolderDeletion) s = (r, s') ->
     exists calls rest r0,
       log s' = (log s1 ++ calls)%list /\
       FolderRemoval notifyFile notifyFolder ap (calls ++ rest) /\
       (r = Ok tt -> rest = []) /\
       PerformsAll calls (dev s1) r0 (dev s') /\
       (r <> Diverge -> r = r0)) /\
  (forall (ap : AbstractPath) (notifyFile notifyFolder : bool)
          (s s1 : State MemFs.Device) (type : ItemType),
     getItemTypeIfExists ap s = (Ok (Some type), s1) ->
     type <> SYMLINK ->
     let run := removeFolderIfExistsRecursion (MemFs.fuelFor ap (dev s)) ap
                  (observerIf notifyFile recordFileDeletion)
                  (observerIf notifyFolder recordFolderDeletion) s in
     fst run <> Diverge /\
     (fst run = Ok tt ->
      exists calls,
        log (snd run) = (log s1 ++ calls)%list /\
        FolderRemoval notifyFile notifyFolder ap calls /\
        PerformsAll calls (dev s1) (Ok tt) (dev (snd run)) /\
        forall ev q, In ev calls -> removedPath ev = Some q ->
                     MemFs.lookup q (dev (snd run)) = None)).
Proof.
  split.
  - intros Dev backend. apply removeFolderIfExistsRecursion_order_performed.
  - intros ap notifyFile notifyFolder s s1 type Hcheck Htype run.
    split.
    + subst run. destruct s as [d logged]. apply MemFs_removeFolderIfExistsRecursion_ends.
    + intros Hok.
      destruct (removeFolderIfExistsRecursion_order_performed
                  (MemFs.fuelFor ap (dev s)) ap notifyFile notifyFolder s s1 (snd run)
                  type (fst run) Hcheck Htype (surjective_pairing run))
        as (calls & rest & r0 & Hlog & Hfull & Hrest & Hdone & Hr).
      rewrite (Hrest Hok), app_nil_r in Hfull.
      rewrite <- (Hr ltac:(rewrite Hok; discriminate)), Hok in Hdone.
      exists calls. split; [exact Hlog | split; [exact Hfull | split; [exact Hdone|]]].
      exact (MemFs_PerformsAll_removed _ _ _ Hdone).
Qed.

(** The folder [base/dir] of the sample disk holds [f.txt], the folder [sub]
    with the file [g], and the symlink [lnk]. Its removal returns; the calls
    are made in the order of the claim; afterwards the disk holds [base]
    alone, and the other devices are as they were. *)
Lemma removeFolderIfExistsRecursion_order_witness :
  let dir := Sample.at_ Sample.disk "base/dir" in
  let run := removeFolderIfExistsRecursion (MemFs.fuelFor dir Sample.device) dir
               (observerIf true recordFileDeletion)
               (observerIf true recordFolderDeletion) Sample.initial in
  fst run = Ok tt /\
  MemFs.items (dev (snd run))
    = [ (Sample.at_ Sample.disk "base", MemFs.Folder);
        (Sample.at_ Sample.ftp "src.txt", MemFs.File 1005 77);
        (Sample.at_ Sample.usb "photo.jpg", MemFs.File 1005 78);
        (Sample.at_ Sample.phone "rec.wav", MemFs.File 1005 79) ] /\
  exists calls,
    log (snd run) = (CallGetItemType dir :: calls)%list /\
    FolderRemoval true true dir calls /\
    PerformsAll calls Sample.device (Ok tt) (dev (snd run)) /\
    (forall ev q, In ev calls -> removedPath ev = Some q ->
                  MemFs.lookup q (dev (snd run)) = None) /\
    calls =
      [ CallTraverseFolder dir [("f.txt", FILE); ("sub", FOLDER); ("lnk", SYMLINK)];
        NotifyBeforeFileDeletion "disk/base/dir/f.txt";
        CallRemoveFilePlain (Sample.at_ Sample.disk "base/dir/f.txt");
        NotifyBeforeFileDeletion "disk/base/dir/lnk";
        CallRemoveSymlinkPlain (Sample.at_ Sample.disk "base/dir/lnk");
        CallTraverseFolder (Sample.at_ Sample.disk "base/dir/sub") [("g", FILE)];
        NotifyBeforeFileDeletion "disk/base/dir/sub/g";
        CallRemoveFilePlain (Sample.at_ Sample.disk "base/dir/sub/g");
        NotifyBeforeFolderDeletion "disk/base/dir/sub";
        CallRemoveFolderPlain (Sample.at_ Sample.disk "base/dir/sub");
        NotifyBeforeFolderDeletion "disk/base/dir";
        CallRemoveFolderPlain dir ].
Proof.
  intros dir run.
  assert (Hok : fst run = Ok tt) by reflexivity.
  assert (Hsymlink : FOLDER <> SYMLINK) by discriminate.
  split; [exact Hok | split; [reflexivity|]].
  destruct (proj1 removeFolderIfExistsRecursion_order MemFs.Device MemFs.backend
              (MemFs.fuelFor dir Sample.device) dir true true Sample.initial
              (mkState Sample.device [CallGetItemType dir]) (snd run) FOLDER (fst run)
              eq_refl Hsymlink (surjective_pairing run))
    as (calls & rest & r0 & Hlog & Hfull & Hrest & Hdone & Hr).
  rewrite (Hrest Hok), app_nil_r in Hfull.
  assert (Hr0 : r0 = Ok tt) by (rewrite <- Hr, Hok; [reflexivity | rewrite Hok; discriminate]).
  rewrite Hr0 in Hdone.
  destruct (proj2 removeFolderIfExistsRecursion_order dir true true Sample.initial
              (mkState Sample.device [CallGetItemType dir]) FOLDER eq_refl Hsymlink)
    as [_ Hreturned].
  destruct (Hreturned Hok) as (calls' & Hlog' & _ & _ & Hgone).
  assert (Hsame : calls' = calls)
    by (apply (app_inv_head (log (mkState Sample.device [CallGetItemType dir])));
        rewrite <- Hlog, <- Hlog'; reflexivity).
  subst calls'. exists calls.
  split; [exact Hlog | split; [exact Hfull | split; [exact Hdone | split; [exact Hgone|]]]].
  vm_compute in Hlog. injection Hlog as Hcalls. symmetry. exact Hcalls.
Defined.

End RemovalPerformedOnMemFs.
